(** * Tile grid and tile summary of [wsi/tile.py]

    A shallow embedding of the tile module: the grid indexer
    ([get_num_tiles], [get_tile_indices]), the summary renderer
    ([display_tile_summary]) and the script that runs them on a slide.

    Python integers are [Z].  The quotient [rows / row_tile_size] is a
    Python true division, hence a binary64 float: it is modelled with the
    IEEE-754 specification of the standard library ([SpecFloat]), and
    [math.ceil] is taken on the float.  NumPy arrays are a shape and an
    indexing function.  The collaborators that live outside the module
    (tissue measurement, PIL image conversion, font loading) are section
    variables; PIL drawing is recorded as the sequence of draw calls, and
    a rectangle whose second corner lies before the first raises
    [ValueError], as in PIL. *)

From Stdlib Require Import ZArith QArith Qround Qabs Lia Lqa List Bool String Ascii.
From Stdlib Require Import DecimalString.
From Stdlib Require Import Floats.SpecFloat.
Import ListNotations.
Open Scope Z_scope.

(** ** Python values and exceptions *)

Module Py.

Inductive exn := ZeroDivisionError | OverflowError | ValueError | OSError.

Inductive result (A : Type) :=
| Ok (a : A)
| Raise (e : exn).
Arguments Ok {A} a.
Arguments Raise {A} e.

Definition bind {A B} (x : result A) (f : A -> result B) : result B :=
  match x with
  | Ok a => f a
  | Raise e => Raise e
  end.

(** *** binary64 floats *)

Definition prec := 53.
Definition emax := 1024.

(** An [int] operand of a true division, as the float of the same value
    (mantissa and exponent are not normalised: [SFdiv] rounds the exact
    quotient, which is what [int.__truediv__] returns). *)
Definition float_of_int (n : Z) : spec_float :=
  match n with
  | Z0 => S754_zero false
  | Zpos p => S754_finite false p 0
  | Zneg p => S754_finite true p 0
  end.

(** [a / b] on two [int]s. *)
Definition int_truediv (a b : Z) : result spec_float :=
  if b =? 0 then Raise ZeroDivisionError
  else match SFdiv prec emax (float_of_int a) (float_of_int b) with
       | S754_infinity _ => Raise OverflowError
       | x => Ok x
       end.

(** The exact ceiling of the rational [n / d]. *)
Definition ceil_div (n d : Z) : Z := - ((- n) / d).

(** [math.ceil x] on a float. *)
Definition math_ceil (x : spec_float) : result Z :=
  match x with
  | S754_zero _ => Ok 0
  | S754_infinity _ => Raise OverflowError
  | S754_nan => Raise ValueError
  | S754_finite s m e =>
      let n := cond_Zopp s (Zpos m) in
      Ok (if 0 <=? e then n * 2 ^ e else ceil_div n (2 ^ (- e)))
  end.

(** [range(0, n)] *)
Definition range (n : Z) : list Z := map Z.of_nat (seq 0 (Z.to_nat n)).

(** [for i in range(0, n): s = body(i, s)] *)
Definition for_range {S : Type} (n : Z) (body : Z -> S -> S) (s : S) : S :=
  fold_left (fun s i => body i s) (range n) s.

(** *** String formatting with [%] *)

Definition newline : string := String (ascii_of_nat 10) EmptyString.

(** [%d] *)
Definition format_d (n : Z) : string := NilZero.string_of_int (Z.to_int n).

Definition digit_char (d : Z) : ascii := ascii_of_nat (48 + Z.to_nat d).

(** The [k] low decimal digits of [n], most significant first. *)
Fixpoint frac_digits (k : nat) (n : Z) : string :=
  match k with
  | O => EmptyString
  | S k' => String (digit_char ((n / 10 ^ Z.of_nat k') mod 10)) (frac_digits k' n)
  end.

(** Rounding to the nearest integer, ties to even. *)
Definition round_half_even (x : Q) : Z :=
  let f := Qfloor x in
  match (x - inject_Z f ?= 1 # 2)%Q with
  | Lt => f
  | Gt => f + 1
  | Eq => if Z.even f then f else f + 1
  end.

Fixpoint spaces (k : nat) : string :=
  match k with
  | O => EmptyString
  | S k' => String " "%char (spaces k')
  end.

Definition pad_left (width : nat) (s : string) : string :=
  (spaces (width - String.length s) ++ s)%string.

(** [%<width>.<digits>f] on a finite number: the exact value is rounded to
    [digits] decimals, ties to even. *)
Definition format_f (width digits : nat) (x : Q) : string :=
  let scale := 10 ^ Z.of_nat digits in
  let n := round_half_even (Qabs x * inject_Z scale) in
  let sign := match (x ?= 0)%Q with Lt => "-"%string | _ => ""%string end in
  let point := match digits with O => ""%string | S _ => "."%string end in
  pad_left width
    (sign ++ format_d (n / scale) ++ point ++ frac_digits digits (n mod scale))%string.

Definition Qltb (x y : Q) : bool :=
  match (x ?= y)%Q with Lt => true | _ => false end.

End Py.

Notation "x <- e ;; k" := (Py.bind e (fun x => k))
  (at level 61, e at next level, right associativity).
Notation "' pat <- e ;; k" := (Py.bind e (fun x => match x with pat => k end))
  (at level 61, pat pattern, e at next level, right associativity).

(** ** NumPy arrays of three dimensions *)

Module Np.
Import Py.

(** A [rows x cols x channels] array: its [shape] and its elements. *)
Record ndarray := { shape : Z * Z * Z; item : Z -> Z -> Z -> Z }.

Definition rows (a : ndarray) : Z := fst (fst (shape a)).
Definition cols (a : ndarray) : Z := snd (fst (shape a)).
Definition channels (a : ndarray) : Z := snd (shape a).

(** Dimensions are non-negative machine integers ([npy_intp]). *)
Definition valid_dim (n : Z) : Prop := 0 <= n < 2 ^ 63.
Definition valid_shape (a : ndarray) : Prop :=
  valid_dim (rows a) /\ valid_dim (cols a) /\ valid_dim (channels a).

(** A bound of the slice [start:stop] on an axis of length [n]: negative
    bounds count from the end, and every bound is clipped to the axis. *)
Definition slice_index (n i : Z) : Z :=
  if i <? 0 then Z.max 0 (i + n) else Z.min i n.

(** First index and length of [start:stop] on an axis of length [n]. *)
Definition slice_range (n start stop : Z) : Z * Z :=
  let s := slice_index n start in
  let e := slice_index n stop in
  (s, Z.max 0 (e - s)).

(** [a[r_s:r_e, c_s:c_e]] *)
Definition getslice2 (a : ndarray) (r_s r_e c_s c_e : Z) : ndarray :=
  let '(r0, nr) := slice_range (rows a) r_s r_e in
  let '(c0, nc) := slice_range (cols a) c_s c_e in
  {| shape := (nr, nc, channels a);
     item := fun i j k => item a (r0 + i) (c0 + j) k |}.

Definition uint8 (v : Z) : Z := v mod 256.

(** [np.zeros([r, c, ch], dtype=np.uint8)] *)
Definition zeros (r c ch : Z) : result ndarray :=
  if (r <? 0) || (c <? 0) || (ch <? 0) then Raise ValueError
  else Ok {| shape := (r, c, ch); item := fun _ _ _ => 0 |}.

(** [a.fill(v)] on a [uint8] array *)
Definition fill (a : ndarray) (v : Z) : ndarray :=
  {| shape := shape a; item := fun _ _ _ => uint8 v |}.

(** An axis of length [src] can be assigned to an axis of length [dst]. *)
Definition broadcasts (src dst : Z) : bool := (src =? dst) || (src =? 1).

Definition source_index (n i : Z) : Z := if n =? 1 then 0 else i.

(** [a[r_s:r_e, c_s:c_e] = src] on a [uint8] array [a]. *)
Definition setslice2 (a : ndarray) (r_s r_e c_s c_e : Z) (src : ndarray)
  : result ndarray :=
  let '(r0, nr) := slice_range (rows a) r_s r_e in
  let '(c0, nc) := slice_range (cols a) c_s c_e in
  if broadcasts (rows src) nr && broadcasts (cols src) nc
     && broadcasts (channels src) (channels a)
  then Ok {| shape := shape a;
             item := fun i j k =>
               if (r0 <=? i) && (i <? r0 + nr) && (c0 <=? j) && (j <? c0 + nc)
               then uint8 (item src (source_index (rows src) (i - r0))
                                    (source_index (cols src) (j - c0))
                                    (source_index (channels src) k))
               else item a i j k |}
  else Raise ValueError.

End Np.

(** ** The tile module *)

Module Tile.
Import Py Np.

Definition ROW_TILE_SIZE : Z := 128.
Definition COL_TILE_SIZE : Z := 128.
Definition TISSUE_THRESHOLD_PERCENT : Z := 50.

(** (starting row, ending row, starting column, ending column) *)
Definition tile : Type := Z * Z * Z * Z.

Definition get_num_tiles (np_img : ndarray) (row_tile_size col_tile_size : Z)
  : result (Z * Z) :=
  let '(rows, cols, _) := shape np_img in
  num_row_tiles <- (q <- int_truediv rows row_tile_size ;; math_ceil q) ;;
  num_col_tiles <- (q <- int_truediv cols col_tile_size ;; math_ceil q) ;;
  Ok (num_row_tiles, num_col_tiles).

Definition get_tile_indices (np_img : ndarray) (row_tile_size col_tile_size : Z)
  : result (list tile) :=
  let indices : list tile := [] in
  let '(rows, cols, _) := shape np_img in
  '(num_row_tiles, num_col_tiles) <- get_num_tiles np_img row_tile_size col_tile_size ;;
  Ok (for_range num_row_tiles (fun r indices =>
        let start_r := r * row_tile_size in
        let end_r := if r <? num_row_tiles - 1 then (r + 1) * row_tile_size else rows in
        for_range num_col_tiles (fun c indices =>
          let start_c := c * col_tile_size in
          let end_c := if c <? num_col_tiles - 1 then (c + 1) * col_tile_size else cols in
          indices ++ [(start_r, end_r, start_c, end_c)]) indices) indices).

(** *** The list object of [get_tile_indices]

    The same function with the list it returns as an object of a store:
    [list()] allocates a new object, [append] updates it in place, and the
    caller receives its reference. *)

Definition store : Type := list (list tile).
Definition ref : Type := nat.

Definition new_list (h : store) : ref * store := (List.length h, h ++ [[]]).

Fixpoint list_append (h : store) (l : ref) (t : tile) : store :=
  match h, l with
  | [], _ => []
  | x :: h', O => (x ++ [t]) :: h'
  | x :: h', S l' => x :: list_append h' l' t
  end.

Definition deref (h : store) (l : ref) : option (list tile) := nth_error h l.

Definition get_tile_indices_obj (h : store) (np_img : ndarray)
    (row_tile_size col_tile_size : Z) : result (ref * store) :=
  let '(indices, h) := new_list h in
  let '(rows, cols, _) := shape np_img in
  '(num_row_tiles, num_col_tiles) <- get_num_tiles np_img row_tile_size col_tile_size ;;
  Ok (indices,
      for_range num_row_tiles (fun r h =>
        let start_r := r * row_tile_size in
        let end_r := if r <? num_row_tiles - 1 then (r + 1) * row_tile_size else rows in
        for_range num_col_tiles (fun c h =>
          let start_c := c * col_tile_size in
          let end_c := if c <? num_col_tiles - 1 then (c + 1) * col_tile_size else cols in
          list_append h indices (start_r, end_r, start_c, end_c)) h) h).

(** Membership of a pixel in the half-open bounds of a tile. *)
Definition in_tile (t : tile) (i j : Z) : Prop :=
  let '(r_s, r_e, c_s, c_e) := t in r_s <= i < r_e /\ c_s <= j < c_e.

(** *** The summary renderer *)

Definition color : Type := Z * Z * Z.

Section Renderer.
(** PIL images and fonts, and the collaborators of the renderer. *)
Variables pil font : Type.
Variable tissue_percent : ndarray -> Q.
Variable np_to_pil : ndarray -> pil.
(** [ImageFont.truetype(font_path, size=text_size)] returns a font or raises
    (OSError for a file that cannot be read, ValueError for a size that is
    not positive); which of them is left to the collaborator. *)
Variable truetype : string -> Z -> result font.

Inductive draw_call :=
| Rectangle (x0 y0 x1 y1 : Z) (outline : color)
| Text (x y : Z) (label : string) (fill : color) (f : font).

(** A PIL image with the calls drawn on it so far. *)
Record image := { base : pil; strokes : list draw_call }.

(** The image after a call that PIL accepted was drawn on it. *)
Definition draw (im : image) (c : draw_call) : image :=
  {| base := base im; strokes := strokes im ++ [c] |}.

(** What the call leaves outside: printed lines and displayed images. *)
Record world := { stdout : list string; viewer : list image }.

(** Computations that print, display and may raise; an exception keeps
    what was printed and displayed before it. *)
Definition M (A : Type) : Type := world -> result A * world.

Definition ret {A} (a : A) : M A := fun w => (Ok a, w).

Definition bindM {A B} (m : M A) (f : A -> M B) : M B :=
  fun w => match m w with
           | (Ok a, w') => f a w'
           | (Raise e, w') => (Raise e, w')
           end.

Definition lift {A} (r : result A) : M A := fun w => (r, w).

Definition print (s : string) : M unit :=
  fun w => (Ok tt, {| stdout := stdout w ++ [s]; viewer := viewer w |}).

Definition show (im : image) : M unit :=
  fun w => (Ok tt, {| stdout := stdout w; viewer := viewer w ++ [im] |}).

Definition load_font (path : string) (size : Z) : M font :=
  lift (truetype path size).

(** [draw.rectangle([(x0, y0), (x1, y1)], outline=outline)]: PIL raises
    ValueError for a box whose second corner is left of or above the
    first one, and draws nothing then. *)
Definition rectangle (im : image) (x0 y0 x1 y1 : Z) (outline : color) : M image :=
  if (x1 <? x0) || (y1 <? y0) then lift (Raise ValueError)
  else ret (draw im (Rectangle x0 y0 x1 y1 outline)).

(** [draw.text((x, y), label, fill, font=f)] *)
Definition text (im : image) (x y : Z) (label : string) (fill : color) (f : font)
  : M image :=
  ret (draw im (Text x y label fill f)).

(** [for x in l: s = body(s, x)] *)
Fixpoint for_each {A S : Type} (l : list A) (body : S -> A -> M S) (s : S) : M S :=
  match l with
  | [] => ret s
  | x :: l' => bindM (body s x) (for_each l' body)
  end.

(** The gray canvas with the image at its origin. *)
Definition summary_canvas (np_img : ndarray) (row_tile_size col_tile_size : Z)
  : result ndarray :=
  '(num_row_tiles, num_col_tiles) <- get_num_tiles np_img row_tile_size col_tile_size ;;
  summary_img <- zeros (ROW_TILE_SIZE * num_row_tiles) (COL_TILE_SIZE * num_col_tiles)
                       (channels np_img) ;;
  let summary_img := fill summary_img 120 in
  setslice2 summary_img 0 (rows np_img) 0 (cols np_img) np_img.

Definition tile_log (t : tile) (tissue_percentage : Q) : string :=
  let '(r_s, r_e, c_s, c_e) := t in
  ("TILE [" ++ format_d r_s ++ ":" ++ format_d r_e ++ ", " ++ format_d c_s ++ ":"
    ++ format_d c_e ++ "]: Tissue " ++ format_f 0 6 tissue_percentage ++ "%")%string.

Definition tile_label (count : Z) (tissue_percentage : Q) : string :=
  ("#" ++ format_d count ++ newline ++ format_f 4 2 tissue_percentage ++ "%")%string.

(** The body of the loop over the tiles. *)
Definition summarize_tile (np_img : ndarray)
    (thresh_color below_thresh_color no_tissue_color text_color : color)
    (text_size : Z) (font_path : string)
    (st : Z * image) (t : tile) : M (Z * image) :=
  let '(count, summary) := st in
  let count := count + 1 in
  let '(r_s, r_e, c_s, c_e) := t in
  let np_tile := getslice2 np_img r_s r_e c_s c_e in
  let tissue_percentage := tissue_percent np_tile in
  bindM (print (tile_log t tissue_percentage)) (fun _ =>
  bindM
    (if Qle_bool (inject_Z TISSUE_THRESHOLD_PERCENT) tissue_percentage then
       bindM (rectangle summary c_s r_s (c_e - 1) (r_e - 1) thresh_color)
         (fun summary =>
       rectangle summary (c_s + 1) (r_s + 1) (c_e - 2) (r_e - 2) thresh_color)
     else if Qltb 0 tissue_percentage
             && Qltb tissue_percentage (inject_Z TISSUE_THRESHOLD_PERCENT) then
       bindM (rectangle summary c_s r_s (c_e - 1) (r_e - 1) below_thresh_color)
         (fun summary =>
       rectangle summary (c_s + 1) (r_s + 1) (c_e - 2) (r_e - 2) below_thresh_color)
     else
       bindM (rectangle summary c_s r_s (c_e - 1) (r_e - 1) no_tissue_color)
         (fun summary =>
       rectangle summary (c_s + 1) (r_s + 1) (c_e - 2) (r_e - 2) no_tissue_color))
    (fun summary =>
  let label := tile_label count tissue_percentage in
  bindM (load_font font_path text_size) (fun font =>
  bindM (text summary (c_s + 2) (r_s + 2) label text_color font) (fun summary =>
  ret (count, summary))))).

Definition display_tile_summary (np_img : ndarray) (tile_indices : list tile)
    (row_tile_size col_tile_size : Z)
    (thresh_color below_thresh_color no_tissue_color text_color : color)
    (text_size : Z) (font_path : string) : M unit :=
  bindM (lift (summary_canvas np_img row_tile_size col_tile_size)) (fun summary_img =>
  let summary := {| base := np_to_pil summary_img; strokes := [] |} in
  let count := 0 in
  bindM (for_each tile_indices
           (summarize_tile np_img thresh_color below_thresh_color no_tissue_color
                           text_color text_size font_path)
           (count, summary)) (fun st =>
  show (snd st))).

(** The default values of the keyword arguments. *)
Definition default_thresh_color : color := (0, 255, 0).
Definition default_below_thresh_color : color := (255, 255, 0).
Definition default_no_tissue_color : color := (255, 0, 0).
Definition default_text_color : color := (255, 255, 255).
Definition default_text_size : Z := 22.
Definition default_font_path : string := "/Library/Fonts/Arial Bold.ttf".

(** The statements of the module after the image is loaded: the grid of
    the image is computed and rendered with the module's tile sizes. *)
Definition main (np_img : ndarray) : M unit :=
  bindM (lift (get_tile_indices np_img ROW_TILE_SIZE COL_TILE_SIZE)) (fun tile_indices =>
  display_tile_summary np_img tile_indices ROW_TILE_SIZE COL_TILE_SIZE
    default_thresh_color default_below_thresh_color default_no_tissue_color
    default_text_color default_text_size default_font_path).

End Renderer.

Arguments Rectangle {font} x0 y0 x1 y1 outline.
Arguments Text {font} x y label fill f.
Arguments Build_image {pil font} base strokes.
Arguments base {pil font} i.
Arguments strokes {pil font} i.
Arguments Build_world {pil font} stdout viewer.
Arguments stdout {pil font} w.
Arguments viewer {pil font} w.
Arguments draw {pil font} im c.
Arguments ret {pil font A} a _.
Arguments bindM {pil font A B} m f _.
Arguments lift {pil font A} r _.
Arguments print {pil font} s _.
Arguments show {pil font} im _.
Arguments load_font {pil font} truetype path size _.
Arguments rectangle {pil font} im x0 y0 x1 y1 outline _.
Arguments text {pil font} im x y label fill f _.
Arguments for_each {pil font A S} l body s _.
Arguments summarize_tile {pil font} tissue_percent truetype np_img thresh_color
  below_thresh_color no_tissue_color text_color text_size font_path st t _.
Arguments display_tile_summary {pil font} tissue_percent np_to_pil truetype np_img
  tile_indices row_tile_size col_tile_size thresh_color below_thresh_color
  no_tissue_color text_color text_size font_path _.
Arguments main {pil font} tissue_percent np_to_pil truetype np_img _.

End Tile.

Import Py Np Tile.

(** ** Vocabulary of the statements *)

(** Operands for which the ceiling of the float quotient is the ceiling of
    the exact quotient: a dividend that a float represents exactly, and a
    divisor that keeps the quotient a normal number. *)
Definition exact_dim (n : Z) : Prop := 0 <= n < 2 ^ 53.
Definition exact_size (n : Z) : Prop := 0 < n < 2 ^ 1022.

(** The rational [N / D] lies in [[m, m + 1)], at the place [l] of that
    interval (its lower end, its lower half, its middle, its upper half). *)
Definition located (N D m : Z) (l : location) : Prop :=
  match l with
  | loc_Exact => N = m * D
  | loc_Inexact c =>
      m * D < N < (m + 1) * D /\
      match c with
      | Lt => 2 * N < (2 * m + 1) * D
      | Eq => 2 * N = (2 * m + 1) * D
      | Gt => (2 * m + 1) * D < 2 * N
      end
  end.

(** A list that the memory of a machine can hold: at most [2^53] items,
    whose references alone take [2^56] bytes. *)
Definition storable {A : Type} (l : list A) : Prop := Z.of_nat (List.length l) <= 2 ^ 53.

(** An array of [r] by [c] by [ch] bytes that can be allocated: fewer than
    [2^60] bytes, more than the address space of a machine. *)
Definition allocatable (r c ch : Z) : Prop := r * c * ch < 2 ^ 60.

(** The bounds of band [k] out of [n] bands of nominal size [size] on an
    axis of length [total]. *)
Definition band_start (size k : Z) : Z := k * size.
Definition band_end (size total n k : Z) : Z :=
  if k =? n - 1 then total else (k + 1) * size.

(** The tile of row band [r] and column band [c]. *)
Definition tile_at (np_img : ndarray) (row_tile_size col_tile_size nr nc r c : Z) : tile :=
  (band_start row_tile_size r, band_end row_tile_size (rows np_img) nr r,
   band_start col_tile_size c, band_end col_tile_size (cols np_img) nc c).

(** The grid in row-major order. *)
Definition grid (np_img : ndarray) (row_tile_size col_tile_size nr nc : Z) : list tile :=
  flat_map (fun r => map (tile_at np_img row_tile_size col_tile_size nr nc r) (range nc))
           (range nr).

(** The outline colour of a tile by its tissue percentage. *)
Definition outline_of (p : Q) (thresh_color below_thresh_color no_tissue_color : color)
  : color :=
  if Qle_bool (inject_Z TISSUE_THRESHOLD_PERCENT) p then thresh_color
  else if Qltb 0 p && Qltb p (inject_Z TISSUE_THRESHOLD_PERCENT) then below_thresh_color
  else no_tissue_color.

(** The percentage in hundredths, rounded to nearest (ties to even), and its
    text with two decimals. *)
Definition hundredths (p : Q) : Z := round_half_even (Qabs p * inject_Z 100).

Definition two_decimals (p : Q) : string :=
  ((match (p ?= 0)%Q with Lt => "-" | _ => "" end)
   ++ format_d (hundredths p / 100) ++ "."
   ++ String (digit_char (hundredths p / 10 mod 10))
        (String (digit_char (hundredths p mod 10)) EmptyString))%string.

(** A tile on which the two rectangles of its outline can be drawn: the
    inner one, inset by one pixel, needs three rows and three columns. *)
Definition drawable (t : tile) : bool :=
  let '(r_s, r_e, c_s, c_e) := t in (r_s + 3 <=? r_e) && (c_s + 3 <=? c_e).

(** The calls drawn for one tile, and the numbering of the tiles. *)
Section RendererVocabulary.
Variable font : Type.
Variable tissue_percent : ndarray -> Q.

Definition tile_percentage (np_img : ndarray) (t : tile) : Q :=
  let '(r_s, r_e, c_s, c_e) := t in tissue_percent (getslice2 np_img r_s r_e c_s c_e).

Definition tile_rectangles (t : tile) (outline : color) : list (draw_call font) :=
  let '(r_s, r_e, c_s, c_e) := t in
  [Rectangle c_s r_s (c_e - 1) (r_e - 1) outline;
   Rectangle (c_s + 1) (r_s + 1) (c_e - 2) (r_e - 2) outline].

Definition tile_text (t : tile) (label : string) (text_color : color) (f : font)
  : draw_call font :=
  let '(r_s, r_e, c_s, c_e) := t in Text (c_s + 2) (r_s + 2) label text_color f.

(** The calls drawn for tile [t] when it is given the number [count]. *)
Definition tile_strokes (np_img : ndarray)
    (thresh_color below_thresh_color no_tissue_color text_color : color) (f : font)
    (count : Z) (t : tile) : list (draw_call font) :=
  let p := tile_percentage np_img t in
  tile_rectangles t (outline_of p thresh_color below_thresh_color no_tissue_color)
  ++ [tile_text t (tile_label count p) text_color f].

(** The tiles with their sequence numbers, counted on from [count]. *)
Fixpoint numbered (count : Z) (l : list tile) : list (Z * tile) :=
  match l with
  | [] => []
  | t :: l' => (count + 1, t) :: numbered (count + 1) l'
  end.
End RendererVocabulary.

(** The test images of the examples: a shape filled with one value. *)
Definition blank (r c ch : Z) : ndarray :=
  {| shape := (r, c, ch); item := fun _ _ _ => 0 |}.

(** The canvas of an image, when [summary_canvas] returns one. *)
Definition canvas_of (np_img : ndarray) (row_tile_size col_tile_size : Z) : ndarray :=
  match summary_canvas np_img row_tile_size col_tile_size with
  | Ok summary_img => summary_img
  | Raise _ => blank 0 0 0
  end.

(** Collaborators and outputs of the examples: a measurement that finds 50
    percent of tissue in every tile, a font that always loads, and a world
    in which nothing was printed or displayed yet. *)
Definition half_tissue : ndarray -> Q := fun _ => 50%Q.
Definition any_font : string -> Z -> result unit := fun _ _ => Ok tt.
Definition as_pil : ndarray -> unit := fun _ => tt.
Definition no_output : world unit unit := {| stdout := []; viewer := [] |}.
Definition empty_summary : image unit unit := {| base := tt; strokes := [] |}.

(** ** Rounding of the float quotient *)

Lemma fexp_eq x : fexp prec emax x = Z.max (x - 53) (-1074).
Proof. reflexivity. Qed.

Lemma pow2_pos n : 0 <= n -> 0 < 2 ^ n.
Proof. intros. apply Z.pow_pos_nonneg; lia. Qed.

Lemma digits2_pos_bounds p :
  2 ^ (Zpos (digits2_pos p) - 1) <= Zpos p < 2 ^ Zpos (digits2_pos p).
Proof.
  induction p as [p IH | p IH |]; cbn [digits2_pos].
  - rewrite Pos2Z.inj_succ. change (Zpos p~1) with (2 * Zpos p + 1).
    replace (Z.succ (Zpos (digits2_pos p)) - 1) with (Z.succ (Zpos (digits2_pos p) - 1)) by lia.
    rewrite !Z.pow_succ_r by lia.
    revert IH. generalize (2 ^ (Zpos (digits2_pos p) - 1)) (2 ^ Zpos (digits2_pos p)). lia.
  - rewrite Pos2Z.inj_succ. change (Zpos p~0) with (2 * Zpos p).
    replace (Z.succ (Zpos (digits2_pos p)) - 1) with (Z.succ (Zpos (digits2_pos p) - 1)) by lia.
    rewrite !Z.pow_succ_r by lia.
    revert IH. generalize (2 ^ (Zpos (digits2_pos p) - 1)) (2 ^ Zpos (digits2_pos p)). lia.
  - cbn. lia.
Qed.

Lemma Zdigits2_bounds m : 0 < m -> 2 ^ (Zdigits2 m - 1) <= m < 2 ^ Zdigits2 m.
Proof. destruct m as [|p|p]; try lia. intros _. apply digits2_pos_bounds. Qed.

Lemma Zdigits2_pos m : 0 < m -> 0 < Zdigits2 m.
Proof. destruct m; cbn; lia. Qed.

Lemma Zdigits2_le m k : 0 < m -> m < 2 ^ k -> Zdigits2 m <= k.
Proof.
  intros Hm Hk. destruct (Zdigits2_bounds m Hm) as [Hlo _].
  destruct (Z_le_gt_dec (Zdigits2 m) k) as [|Hgt]; [assumption|exfalso].
  assert (0 <= k) by (destruct k; try lia; cbn in Hk; lia).
  assert (2 ^ k <= 2 ^ (Zdigits2 m - 1)) by (apply Z.pow_le_mono_r; lia). lia.
Qed.

Lemma Zdigits2_le0 m k : 0 <= m -> 0 <= k -> m < 2 ^ k -> Zdigits2 m <= k.
Proof.
  intros Hm Hk H. destruct (Z.eq_dec m 0) as [->|]; [cbn; lia|].
  apply Zdigits2_le; lia.
Qed.

Lemma Zdigits2_ge m k : 0 < m -> 2 ^ (k - 1) <= m -> k <= Zdigits2 m.
Proof.
  intros Hm Hk. destruct (Zdigits2_bounds m Hm) as [_ Hhi].
  pose proof (Zdigits2_pos m Hm).
  destruct (Z_le_gt_dec k (Zdigits2 m)) as [|Hgt]; [assumption|exfalso].
  assert (2 ^ Zdigits2 m <= 2 ^ (k - 1)) by (apply Z.pow_le_mono_r; lia). lia.
Qed.

Lemma located_floor N D m l : 0 < D -> located N D m l -> m * D <= N < (m + 1) * D.
Proof. destruct l as [|[]]; cbn; intros; lia. Qed.

Lemma loc_of_shr_record_of_loc m l :
  loc_of_shr_record (shr_record_of_loc m l) = l.
Proof. destruct l as [|[]]; reflexivity. Qed.

Lemma shr_m_of_loc m l : shr_m (shr_record_of_loc m l) = m.
Proof. destruct l as [|[]]; reflexivity. Qed.

(** One right shift halves the mantissa and keeps track of the place. *)
Lemma shr_1_spec mrs N D :
  0 < D -> 0 <= shr_m mrs ->
  located N D (shr_m mrs) (loc_of_shr_record mrs) ->
  0 <= shr_m (shr_1 mrs) /\
  located N (2 * D) (shr_m (shr_1 mrs)) (loc_of_shr_record (shr_1 mrs)).
Proof.
  intros HD Hm. destruct mrs as [m r s]. cbn [shr_m] in *.
  destruct m as [|[p|p|]|p]; try lia;
    destruct r, s; cbn [shr_1 shr_m loc_of_shr_record orb located];
    try change (Zpos p~0) with (2 * Zpos p) in *;
    try change (Zpos p~1) with (2 * Zpos p + 1) in *;
    intros H; lia.
Qed.

Lemma iter_shr_1_spec p : forall mrs N D,
  0 < D -> 0 <= shr_m mrs ->
  located N D (shr_m mrs) (loc_of_shr_record mrs) ->
  0 <= shr_m (iter_pos shr_1 p mrs) /\
  located N (2 ^ Zpos p * D) (shr_m (iter_pos shr_1 p mrs))
          (loc_of_shr_record (iter_pos shr_1 p mrs)).
Proof.
  induction p as [p IH | p IH |]; intros mrs N D HD Hm H; cbn [iter_pos].
  - destruct (shr_1_spec mrs N D HD Hm H) as [H1 H2].
    destruct (IH _ N (2 * D) ltac:(lia) H1 H2) as [H3 H4].
    assert (HP : 0 < 2 ^ Zpos p) by (apply pow2_pos; lia).
    destruct (IH _ N (2 ^ Zpos p * (2 * D)) ltac:(nia) H3 H4) as [H5 H6].
    split; [exact H5|].
    replace (2 ^ Zpos p~1 * D) with (2 ^ Zpos p * (2 ^ Zpos p * (2 * D))); [exact H6|].
    change (Zpos p~1) with (2 * Zpos p + 1). rewrite Z.pow_add_r, Z.pow_mul_r by lia.
    change (2 ^ 2) with 4. change (2 ^ 1) with 2.
    replace (4 ^ Zpos p) with (2 ^ Zpos p * 2 ^ Zpos p); [ring|].
    rewrite <- Z.pow_mul_l. reflexivity.
  - destruct (IH _ N D HD Hm H) as [H3 H4].
    assert (HP : 0 < 2 ^ Zpos p) by (apply pow2_pos; lia).
    destruct (IH _ N (2 ^ Zpos p * D) ltac:(nia) H3 H4) as [H5 H6].
    split; [exact H5|].
    replace (2 ^ Zpos p~0 * D) with (2 ^ Zpos p * (2 ^ Zpos p * D)); [exact H6|].
    change (Zpos p~0) with (2 * Zpos p). rewrite Z.pow_mul_r by lia.
    change (2 ^ 2) with 4.
    replace (4 ^ Zpos p) with (2 ^ Zpos p * 2 ^ Zpos p); [ring|].
    rewrite <- Z.pow_mul_l. reflexivity.
  - change (2 ^ 1) with 2. apply shr_1_spec; assumption.
Qed.

Lemma shr_fexp_spec m e l N D :
  0 < D -> 0 <= m -> located N D m l ->
  let n := Z.max 0 (fexp prec emax (Zdigits2 m + e) - e) in
  let '(mrs, e1) := shr_fexp prec emax m e l in
  e1 = e + n /\ 0 <= shr_m mrs /\
  located N (2 ^ n * D) (shr_m mrs) (loc_of_shr_record mrs).
Proof.
  intros HD Hm H. unfold shr_fexp, shr.
  destruct (fexp prec emax (Zdigits2 m + e) - e) as [|p|p] eqn:En; cbn zeta.
  - rewrite loc_of_shr_record_of_loc, shr_m_of_loc.
    change (Z.max 0 0) with 0. rewrite Z.pow_0_r, Z.mul_1_l. repeat split; try lia; assumption.
  - replace (Z.max 0 (Zpos p)) with (Zpos p) by lia.
    split; [reflexivity|].
    apply iter_shr_1_spec; rewrite ?loc_of_shr_record_of_loc, ?shr_m_of_loc; assumption.
  - rewrite loc_of_shr_record_of_loc, shr_m_of_loc.
    replace (Z.max 0 (Zneg p)) with 0 by lia.
    rewrite Z.pow_0_r, Z.mul_1_l. repeat split; try lia; assumption.
Qed.

Lemma new_location_spec b q r :
  0 < b -> 0 <= r < b -> located (q * b + r) b q (new_location b r).
Proof.
  intros Hb Hr. unfold new_location, new_location_even, new_location_odd.
  destruct (Z.even b) eqn:Eb.
  - destruct (Z.eqb_spec r 0) as [->|Hr0]; cbn [located]; [lia|].
    split; [lia|]. destruct (Z.compare_spec (2 * r) b); lia.
  - assert (Hodd : Z.odd b = true) by (rewrite <- Z.negb_even, Eb; reflexivity).
    apply Z.odd_spec in Hodd. destruct Hodd as [k Hk].
    destruct (Z.eqb_spec r 0) as [->|Hr0]; cbn [located]; [lia|].
    split; [lia|]. destruct (Z.compare_spec (2 * r + 1) b); lia.
Qed.

Lemma round_nearest_even_spec N D m l :
  0 < D -> located N D m l ->
  let m1 := round_nearest_even m l in
  m <= m1 <= m + 1 /\ 2 * m1 * D - D <= 2 * N <= 2 * m1 * D + D.
Proof.
  intros HD H. destruct l as [|[]]; cbn [round_nearest_even located] in *;
    try destruct (Z.even m); lia.
Qed.

Lemma SFdiv_core_spec a b :
  0 < a -> 0 < b ->
  let e' := Z.min (fexp prec emax (Zdigits2 a - Zdigits2 b)) 0 in
  SFdiv_core_binary prec emax a 0 b 0 =
    (a * 2 ^ (- e') / b, e', new_location b ((a * 2 ^ (- e')) mod b)).
Proof.
  intros Ha Hb e'. unfold SFdiv_core_binary.
  rewrite !Z.add_0_r, Z.sub_diag. fold e'.
  assert (He : e' <= 0) by (unfold e'; lia).
  replace (0 - e') with (- e') by lia.
  assert (Hm : match - e' with
               | Zpos _ => Z.shiftl a (- e') | Z0 => a | Zneg _ => 0 end
               = a * 2 ^ (- e')).
  { destruct (- e') as [|p|p] eqn:E; try lia.
    apply Z.shiftl_mul_pow2. lia. }
  rewrite Hm. unfold Z.div, Z.modulo.
  destruct (Z.div_eucl (a * 2 ^ (- e')) b) as [q r]. reflexivity.
Qed.

(** The two roundings of [binary_round_aux] on a located quotient. *)
Lemma binary_round_aux_spec q e l N D :
  0 < D -> 0 <= q -> located N D q l ->
  let n1 := Z.max 0 (fexp prec emax (Zdigits2 q + e) - e) in
  let e1 := e + n1 in
  exists ms m1 m2,
    0 <= ms /\ ms * (2 ^ n1 * D) <= N < (ms + 1) * (2 ^ n1 * D) /\
    ms <= m1 <= ms + 1 /\
    2 * m1 * (2 ^ n1 * D) - 2 ^ n1 * D <= 2 * N <= 2 * m1 * (2 ^ n1 * D) + 2 ^ n1 * D /\
    let n2 := Z.max 0 (fexp prec emax (Zdigits2 m1 + e1) - e1) in
    0 <= m2 /\ m2 * 2 ^ n2 <= m1 < (m2 + 1) * 2 ^ n2 /\
    binary_round_aux prec emax false q e l =
      match m2 with
      | Z0 => S754_zero false
      | Zpos p => if e1 + n2 <=? 971 then S754_finite false p (e1 + n2)
                  else S754_infinity false
      | Zneg _ => S754_nan
      end.
Proof.
  intros HD Hq H n1 e1. unfold binary_round_aux.
  pose proof (shr_fexp_spec q e l N D HD Hq H) as S1. cbv zeta in S1. fold n1 in S1.
  destruct (shr_fexp prec emax q e l) as [mrs e1'].
  destruct S1 as (-> & Hms & Hin). fold e1.
  assert (HD1 : 0 < 2 ^ n1 * D).
  { assert (0 < 2 ^ n1) by (apply pow2_pos; lia). nia. }
  pose proof (round_nearest_even_spec N _ _ _ HD1 Hin) as R. cbv zeta in R.
  set (m1 := round_nearest_even (shr_m mrs) (loc_of_shr_record mrs)) in *.
  destruct R as [R1 R2].
  assert (Hm1 : 0 <= m1) by lia.
  assert (Hx : located m1 1 m1 loc_Exact) by (cbn; lia).
  pose proof (shr_fexp_spec m1 e1 loc_Exact m1 1 ltac:(lia) Hm1 Hx) as S2. cbv zeta in S2.
  destruct (shr_fexp prec emax m1 e1 loc_Exact) as [mrs2 e2].
  destruct S2 as (-> & Hm2 & Hin2).
  exists (shr_m mrs), m1, (shr_m mrs2).
  split; [exact Hms|]. split; [eapply located_floor; eassumption|].
  split; [exact R1|]. split; [exact R2|]. cbv zeta.
  split; [exact Hm2|].
  rewrite Z.mul_1_r in Hin2.
  split.
  { apply located_floor in Hin2; [exact Hin2|]. apply pow2_pos; lia. }
  reflexivity.
Qed.

Lemma SFdiv_pos a b :
  0 < a -> 0 < b ->
  let e' := Z.min (fexp prec emax (Zdigits2 a - Zdigits2 b)) 0 in
  let N := a * 2 ^ (- e') in
  SFdiv prec emax (float_of_int a) (float_of_int b) =
    binary_round_aux prec emax false (N / b) e' (new_location b (N mod b)).
Proof.
  intros Ha Hb e' N. destruct a as [|pa|pa]; try lia. destruct b as [|pb|pb]; try lia.
  cbn [float_of_int SFdiv xorb].
  pose proof (SFdiv_core_spec (Zpos pa) (Zpos pb) Ha Hb) as C. cbv zeta in C.
  rewrite C. reflexivity.
Qed.

(** ** The ceiling of a true division *)

Lemma ceil_div_spec n d : 0 < d -> (ceil_div n d - 1) * d < n <= ceil_div n d * d.
Proof.
  intros Hd. unfold ceil_div.
  pose proof (Z.div_mod (- n) d ltac:(lia)).
  pose proof (Z.mod_pos_bound (- n) d Hd). nia.
Qed.

Lemma ceil_div_unique n d k : 0 < d -> (k - 1) * d < n <= k * d -> ceil_div n d = k.
Proof.
  intros Hd H. pose proof (ceil_div_spec n d Hd). nia.
Qed.

Lemma ceil_div_nonneg n d : 0 <= n -> 0 < d -> 0 <= ceil_div n d.
Proof. intros Hn Hd. pose proof (ceil_div_spec n d Hd). nia. Qed.

(** The ceiling of the float [p * 2^e], read at the finer scale [2^e1]. *)
Lemma math_ceil_scaled p e e1 m1 k :
  e1 <= 0 -> e1 <= e ->
  Zpos p * 2 ^ (e - e1) = m1 ->
  (k - 1) * 2 ^ (- e1) < m1 <= k * 2 ^ (- e1) ->
  math_ceil (S754_finite false p e) = Ok k.
Proof.
  intros He1 He Hm Hk. cbn [math_ceil cond_Zopp]. f_equal.
  destruct (Z.leb_spec 0 e) as [H0|H0].
  - assert (E : 2 ^ (e - e1) = 2 ^ e * 2 ^ (- e1)).
    { rewrite <- Z.pow_add_r by lia. f_equal; lia. }
    pose proof (pow2_pos (- e1) ltac:(lia)). pose proof (pow2_pos e H0).
    rewrite E in Hm. nia.
  - apply ceil_div_unique; [apply pow2_pos; lia|].
    assert (E : 2 ^ (- e1) = 2 ^ (e - e1) * 2 ^ (- e)).
    { rewrite <- Z.pow_add_r by lia. f_equal; lia. }
    pose proof (pow2_pos (- e) ltac:(lia)). pose proof (pow2_pos (e - e1) ltac:(lia)).
    rewrite E in Hk. nia.
Qed.

Lemma math_ceil_finite_nonneg p e :
  exists n, math_ceil (S754_finite false p e) = Ok n /\ 0 <= n.
Proof.
  cbn [math_ceil cond_Zopp]. eexists; split; [reflexivity|].
  destruct (Z.leb_spec 0 e).
  - pose proof (pow2_pos e ltac:(lia)). nia.
  - pose proof (pow2_pos (- e) ltac:(lia)) as HP.
    pose proof (ceil_div_spec (Zpos p) (2 ^ (- e)) HP). nia.
Qed.

Lemma shifted_mantissa_bounds L P b N q ms :
  0 < P -> 0 < b ->
  q * b <= N < (q + 1) * b ->
  ms * (P * b) <= N < (ms + 1) * (P * b) ->
  L * P <= q < 2 * L * P ->
  L <= ms < 2 * L.
Proof.
  intros HP Hb Hq Hms HL.
  assert (H1 : ms * P < q + 1).
  { apply (Z.mul_lt_mono_pos_r b); [assumption|]. lia. }
  assert (H2 : q < (ms + 1) * P).
  { apply (Z.mul_lt_mono_pos_r b); [assumption|]. lia. }
  split.
  - assert (L < ms + 1); [|lia]. apply (Z.mul_lt_mono_pos_r P); [assumption|]. lia.
  - apply (Z.mul_lt_mono_pos_r P); [assumption|]. lia.
Qed.

(** A mantissa within half a unit of [a / b] at scale [E] has the ceiling of
    [a / b], as long as [1 / b] is more than half a unit. *)
Lemma nearest_keeps_ceiling a b k S E P N m1 :
  0 < E -> 0 < P -> 0 < b ->
  S = E * P -> P * b < 2 * S -> N = a * S ->
  (k - 1) * b < a <= k * b ->
  2 * m1 * (P * b) - P * b <= 2 * N <= 2 * m1 * (P * b) + P * b ->
  (k - 1) * E < m1 <= k * E.
Proof.
  intros HE HP Hb HS Hsmall HN Hk Hnear. subst S N.
  assert (HPb : 0 < P * b) by nia.
  split.
  - assert (H1 : 2 * ((k - 1) * b + 1) * (E * P) <= 2 * (a * (E * P))).
    { assert (0 < E * P) by nia. nia. }
    assert (H2 : 2 * ((k - 1) * E) * (P * b) < 2 * m1 * (P * b)) by lia.
    assert (H3 : 2 * ((k - 1) * E) < 2 * m1).
    { apply (Z.mul_lt_mono_pos_r (P * b)); assumption. }
    lia.
  - assert (H1 : 2 * (a * (E * P)) <= 2 * (k * b) * (E * P)).
    { assert (0 < E * P) by nia. nia. }
    assert (H2 : 2 * m1 * (P * b) < (2 * (k * E) + 2) * (P * b)) by lia.
    assert (H3 : 2 * m1 < 2 * (k * E) + 2).
    { apply (Z.mul_lt_mono_pos_r (P * b)); assumption. }
    lia.
Qed.

(** In the exact range, [math.ceil(a / b)] is the exact ceiling. *)
Lemma ceil_truediv_exact a b :
  exact_dim a -> exact_size b ->
  (q <- int_truediv a b ;; math_ceil q) = Ok (ceil_div a b).
Proof.
  unfold exact_dim, exact_size.
  intros Ha Hb. unfold int_truediv.
  destruct (Z.eqb_spec b 0) as [|_]; [lia|].
  destruct (Z.eq_dec a 0) as [->|Ha0].
  { destruct b; try lia. reflexivity. }
  assert (Hap : 0 < a) by lia. destruct Hb as [Hbp Hb].
  rewrite (SFdiv_pos a b Hap Hbp).
  pose proof (Zdigits2_bounds a Hap) as [HA1 HA2].
  pose proof (Zdigits2_bounds b Hbp) as [HB1 HB2].
  pose proof (Zdigits2_pos a Hap) as Hd1. pose proof (Zdigits2_pos b Hbp) as Hd2.
  pose proof (Zdigits2_le a 53 Hap ltac:(lia)) as Hd1'.
  pose proof (Zdigits2_le b 1022 Hbp Hb) as Hd2'.
  clear Hb.
  set (d1 := Zdigits2 a) in *. set (d2 := Zdigits2 b) in *.
  rewrite fexp_eq.
  replace (Z.min (Z.max (d1 - d2 - 53) (-1074)) 0) with (d1 - d2 - 53) by lia.
  set (e' := d1 - d2 - 53).
  set (s := - e').
  assert (Hs : s = 53 + d2 - d1) by (unfold s, e'; lia).
  set (N := a * 2 ^ s).
  pose proof (Z.div_mod N b ltac:(lia)) as HN.
  pose proof (Z.mod_pos_bound N b Hbp) as Hr.
  assert (Hin : located N b (N / b) (new_location b (N mod b))).
  { rewrite HN at 1. rewrite (Z.mul_comm b). apply new_location_spec; assumption. }
  (* the quotient has 53 or 54 binary digits *)
  assert (HSA : 2 ^ s * 2 ^ (d1 - 1) = 2 ^ 53 * 2 ^ (d2 - 1)).
  { rewrite <- !Z.pow_add_r by lia. f_equal; lia. }
  assert (HSB : 2 * 2 ^ (d2 - 1) <= 2 ^ s).
  { replace (2 * 2 ^ (d2 - 1)) with (2 ^ d2).
    - apply Z.pow_le_mono_r; lia.
    - replace d2 with (Z.succ (d2 - 1)) at 1 by lia. apply Z.pow_succ_r. lia. }
  assert (HA3 : 2 ^ d1 = 2 * 2 ^ (d1 - 1)).
  { replace d1 with (Z.succ (d1 - 1)) at 1 by lia. apply Z.pow_succ_r. lia. }
  assert (HB3 : 2 ^ d2 = 2 * 2 ^ (d2 - 1)).
  { replace d2 with (Z.succ (d2 - 1)) at 1 by lia. apply Z.pow_succ_r. lia. }
  pose proof (pow2_pos s ltac:(lia)) as HS.
  pose proof (pow2_pos (d1 - 1) ltac:(lia)) as HAp.
  pose proof (pow2_pos (d2 - 1) ltac:(lia)) as HBp.
  set (S := 2 ^ s) in *. set (A := 2 ^ (d1 - 1)) in *. set (B := 2 ^ (d2 - 1)) in *.
  rewrite HA3 in HA2. rewrite HB3 in HB2. clear HA3 HB3.
  assert (Hq1 : 2 ^ 52 <= N / b).
  { apply Z.div_le_lower_bound; [lia|]. unfold N.
    change (2 ^ 53) with (2 * 2 ^ 52) in HSA. nia. }
  assert (Hq2 : N / b < 2 ^ 54).
  { apply Z.div_lt_upper_bound; [lia|]. unfold N. change (2 ^ 54) with (2 * 2 ^ 53). nia. }
  set (q := N / b) in *.
  assert (Hqp : 0 < q) by (change (2 ^ 52) with 4503599627370496 in Hq1; lia).
  pose proof (Zdigits2_bounds q Hqp) as [HQ1 HQ2].
  pose proof (Zdigits2_le q 54 Hqp Hq2) as HQ3.
  pose proof (Zdigits2_ge q 53 Hqp Hq1) as HQ4.
  destruct (binary_round_aux_spec q e' _ N b Hbp ltac:(lia) Hin)
    as (ms & m1 & m2 & Hms & Hfl & Hm1 & Hnear & Hm2 & Hfl2 & ->).
  rewrite !fexp_eq in *.
  set (dq := Zdigits2 q) in *.
  replace (Z.max 0 (Z.max (dq + e' - 53) (-1074) - e')) with (dq - 53) in * by lia.
  set (n1 := dq - 53) in *.
  set (e1 := e' + n1) in *.
  (* the rounded mantissa *)
  assert (Hn1 : 0 <= n1 <= 1) by (unfold n1; lia).
  pose proof (pow2_pos n1 ltac:(lia)) as HPp.
  assert (HQ5 : 2 ^ (dq - 1) = 2 ^ 52 * 2 ^ n1).
  { rewrite <- Z.pow_add_r by lia. f_equal; unfold n1; lia. }
  assert (HQ6 : 2 ^ dq = 2 * 2 ^ 52 * 2 ^ n1).
  { change (2 * 2 ^ 52) with (2 ^ 53). rewrite <- Z.pow_add_r by lia.
    f_equal; unfold n1; lia. }
  assert (Hms1 : 2 ^ 52 <= ms < 2 * 2 ^ 52).
  { apply (shifted_mantissa_bounds (2 ^ 52) (2 ^ n1) b N q ms); try assumption.
    - rewrite (Z.mul_comm q), (Z.mul_comm (q + 1)). unfold q. lia.
    - rewrite <- HQ5, <- HQ6. lia. }
  change (2 * 2 ^ 52) with (2 ^ 53) in Hms1.
  assert (Hm1b : 2 ^ 52 <= m1 <= 2 ^ 53) by lia.
  assert (Hm1p : 0 < m1) by (change (2 ^ 52) with 4503599627370496 in Hm1b; lia).
  pose proof (Zdigits2_ge m1 53 Hm1p ltac:(lia)) as HM1.
  assert (HE : S = 2 ^ (- e1) * 2 ^ n1).
  { unfold S. rewrite <- Z.pow_add_r by lia. f_equal; lia. }
  pose proof (pow2_pos (- e1) ltac:(lia)) as HEp.
  pose proof (ceil_div_spec a b Hbp) as Hk.
  set (k := ceil_div a b) in *.
  assert (Hsmall : 2 ^ n1 * b < 2 * S).
  { assert (H2 : 2 ^ n1 <= 2) by (change 2 with (2 ^ 1) at 2; apply Z.pow_le_mono_r; lia).
    assert (2 ^ n1 * b <= 2 * b) by (apply Z.mul_le_mono_nonneg_r; lia). lia. }
  assert (Hkey : (k - 1) * 2 ^ (- e1) < m1 <= k * 2 ^ (- e1)).
  { apply (nearest_keeps_ceiling a b k S (2 ^ (- e1)) (2 ^ n1) N m1); try assumption.
    reflexivity. }
  destruct (Z_lt_le_dec m1 (2 ^ 53)) as [Hlt|Hge].
  - pose proof (Zdigits2_le m1 53 Hm1p Hlt) as HM2.
    replace (Z.max 0 (Z.max (Zdigits2 m1 + e1 - 53) (-1074) - e1)) with 0 in * by lia.
    rewrite Z.pow_0_r in Hfl2. assert (m2 = m1) by lia. subst m2.
    destruct m1 as [|p1|p1]; try lia.
    destruct (Z.leb_spec (e1 + 0) 971) as [_|]; [|lia].
    cbn [bind]. apply (math_ceil_scaled p1 (e1 + 0) e1 (Zpos p1) k); try lia.
    replace (e1 + 0 - e1) with 0 by lia. rewrite Z.pow_0_r. lia.
  - assert (m1 = 2 ^ 53) by lia. subst m1.
    change (Zdigits2 (2 ^ 53)) with 54 in *.
    replace (Z.max 0 (Z.max (54 + e1 - 53) (-1074) - e1)) with 1 in * by lia.
    change (2 ^ 1) with 2 in Hfl2.
    destruct m2 as [|p2|p2]; try (change (2 ^ 53) with 9007199254740992 in Hfl2; lia).
    destruct (Z.leb_spec (e1 + 1) 971) as [_|]; [|lia].
    cbn [bind]. apply (math_ceil_scaled p2 (e1 + 1) e1 (2 ^ 53) k); try lia.
    replace (e1 + 1 - e1) with 1 by lia. change (2 ^ 1) with 2.
    change (2 ^ 53) with 9007199254740992 in *. lia.
Qed.

(** On the dimension of an array and a positive size, [math.ceil(a / b)]
    returns, and returns a natural number. *)
Lemma ceil_truediv_total a b :
  valid_dim a -> 0 < b ->
  exists n, (q <- int_truediv a b ;; math_ceil q) = Ok n /\ 0 <= n.
Proof.
  unfold valid_dim.
  intros Ha Hb. unfold int_truediv.
  destruct (Z.eqb_spec b 0) as [|_]; [lia|].
  destruct (Z.eq_dec a 0) as [->|Ha0].
  { destruct b; try lia. exists 0. split; [reflexivity|lia]. }
  assert (Hap : 0 < a) by lia.
  rewrite (SFdiv_pos a b Hap Hb).
  set (e' := Z.min (fexp prec emax (Zdigits2 a - Zdigits2 b)) 0).
  assert (He' : e' <= 0) by (unfold e'; lia).
  set (N := a * 2 ^ (- e')).
  pose proof (pow2_pos (- e') ltac:(lia)) as HS.
  assert (HN0 : 0 <= N) by (unfold N; nia).
  assert (HN1 : N < 2 ^ (63 - e')).
  { replace (63 - e') with (63 + - e') by lia. rewrite Z.pow_add_r by lia.
    unfold N. apply Z.mul_lt_mono_pos_r; lia. }
  pose proof (Z.div_mod N b ltac:(lia)) as HN.
  pose proof (Z.mod_pos_bound N b Hb) as Hr.
  assert (Hin : located N b (N / b) (new_location b (N mod b))).
  { rewrite HN at 1. rewrite (Z.mul_comm b). apply new_location_spec; assumption. }
  assert (Hq0 : 0 <= N / b) by (apply Z.div_pos; lia).
  assert (Hq1 : N / b <= N) by (apply Z.div_le_upper_bound; nia).
  set (q := N / b) in *.
  destruct (binary_round_aux_spec q e' _ N b Hb Hq0 Hin)
    as (ms & m1 & m2 & Hms & Hfl & Hm1 & _ & Hm2 & Hfl2 & ->).
  pose proof (Zdigits2_le0 q (63 - e') Hq0 ltac:(lia) ltac:(lia)) as Hdq.
  rewrite !fexp_eq in *.
  set (n1 := Z.max 0 (Z.max (Zdigits2 q + e' - 53) (-1074) - e')) in *.
  set (e1 := e' + n1) in *.
  assert (He1 : e1 <= 10) by (unfold e1, n1; lia).
  assert (Hn1 : 0 <= n1) by (unfold n1; lia).
  pose proof (pow2_pos n1 Hn1) as HP1.
  assert (Hms1 : ms < 2 ^ (63 - e1)).
  { apply (Z.mul_lt_mono_pos_r (2 ^ n1)); [assumption|].
    rewrite <- Z.pow_add_r by lia.
    replace (63 - e1 + n1) with (63 - e') by (unfold e1; lia).
    assert (ms * 2 ^ n1 * 1 <= ms * 2 ^ n1 * b) by (apply Z.mul_le_mono_nonneg_l; nia).
    lia. }
  assert (Hm1b : m1 < 2 ^ (64 - e1)).
  { replace (64 - e1) with (Z.succ (63 - e1)) by lia. rewrite Z.pow_succ_r by lia. lia. }
  pose proof (Zdigits2_le0 m1 (64 - e1) ltac:(lia) ltac:(lia) Hm1b) as Hdm.
  set (n2 := Z.max 0 (Z.max (Zdigits2 m1 + e1 - 53) (-1074) - e1)) in *.
  assert (He2 : e1 + n2 <= 971) by (unfold n2; lia).
  destruct m2 as [|p2|p2]; try lia.
  - exists 0. split; [reflexivity|lia].
  - destruct (Z.leb_spec (e1 + n2) 971); [|lia].
    cbn [bind]. apply math_ceil_finite_nonneg.
Qed.

(** The ceiling of a float that is not above [k] at the scale [2^e1]. *)
Lemma math_ceil_le p e e1 n2 k n :
  0 <= n2 -> e = e1 + n2 -> e1 <= 0 ->
  Zpos p * 2 ^ n2 <= k * 2 ^ (- e1) ->
  math_ceil (S754_finite false p e) = Ok n -> n <= k.
Proof.
  intros Hn2 -> He1 Hle H. cbn [math_ceil cond_Zopp] in H. injection H as <-.
  pose proof (pow2_pos (- e1) ltac:(lia)) as HE.
  destruct (Z.leb_spec 0 (e1 + n2)) as [H0|H0].
  - assert (E : 2 ^ n2 = 2 ^ (e1 + n2) * 2 ^ (- e1)).
    { rewrite <- Z.pow_add_r by lia. f_equal; lia. }
    rewrite E in Hle.
    assert (Zpos p * 2 ^ (e1 + n2) * 2 ^ (- e1) <= k * 2 ^ (- e1)) by lia.
    apply (Z.mul_le_mono_pos_r _ _ (2 ^ (- e1))); assumption.
  - pose proof (pow2_pos (- (e1 + n2)) ltac:(lia)) as HF.
    pose proof (pow2_pos n2 Hn2) as HP.
    assert (E : 2 ^ (- e1) = 2 ^ (- (e1 + n2)) * 2 ^ n2).
    { rewrite <- Z.pow_add_r by lia. f_equal; lia. }
    rewrite E in Hle.
    assert (Hp : Zpos p <= k * 2 ^ (- (e1 + n2))).
    { apply (Z.mul_le_mono_pos_r _ _ (2 ^ n2)); [assumption|lia]. }
    pose proof (ceil_div_spec (Zpos p) _ HF) as [Hc _].
    assert ((ceil_div (Zpos p) (2 ^ (- (e1 + n2))) - 1) * 2 ^ (- (e1 + n2))
            < k * 2 ^ (- (e1 + n2))) by lia.
    apply Z.mul_lt_mono_pos_r in H; [lia|assumption].
Qed.

Lemma math_ceil_nonneg_exponent p e n :
  0 <= e -> math_ceil (S754_finite false p e) = Ok n -> n = Zpos p * 2 ^ e.
Proof.
  intros He H. unfold math_ceil, cond_Zopp in H.
  destruct (Z.leb_spec 0 e); [|lia]. congruence.
Qed.

(** Up to [2^53], [math.ceil(a / b)] is not above the exact ceiling. *)
Lemma ceil_truediv_upper a b n :
  valid_dim a -> 0 < b ->
  (q <- int_truediv a b ;; math_ceil q) = Ok n ->
  n <= 2 ^ 53 ->
  n <= ceil_div a b.
Proof.
  unfold valid_dim.
  intros Ha Hb Hn Hsmall. unfold int_truediv in Hn.
  destruct (Z.eqb_spec b 0) as [|_]; [lia|].
  pose proof (ceil_div_spec a b Hb) as Hk.
  pose proof (ceil_div_nonneg a b ltac:(lia) Hb) as Hk0.
  set (k := ceil_div a b) in *.
  destruct (Z.eq_dec a 0) as [->|Ha0].
  { destruct b; try lia. cbn in Hn. injection Hn as <-. exact Hk0. }
  assert (Hap : 0 < a) by lia.
  rewrite (SFdiv_pos a b Hap Hb) in Hn.
  rewrite fexp_eq in Hn.
  set (e' := Z.min (Z.max (Zdigits2 a - Zdigits2 b - 53) (-1074)) 0) in *.
  assert (He' : -1074 <= e' <= 0) by (unfold e'; lia).
  set (N := a * 2 ^ (- e')) in *.
  pose proof (pow2_pos (- e') ltac:(lia)) as HS.
  assert (HN0 : 0 <= N) by (unfold N; nia).
  pose proof (Z.div_mod N b ltac:(lia)) as HN.
  pose proof (Z.mod_pos_bound N b Hb) as Hr.
  assert (Hin : located N b (N / b) (new_location b (N mod b))).
  { rewrite HN at 1. rewrite (Z.mul_comm b). apply new_location_spec; assumption. }
  assert (Hq0 : 0 <= N / b) by (apply Z.div_pos; lia).
  set (q := N / b) in *.
  destruct (binary_round_aux_spec q e' _ N b Hb Hq0 Hin)
    as (ms & m1 & m2 & Hms & Hfl & Hm1 & Hnear & Hm2 & Hfl2 & Hres).
  rewrite Hres in Hn. clear Hres.
  rewrite !fexp_eq in *.
  set (n1 := Z.max 0 (Z.max (Zdigits2 q + e' - 53) (-1074) - e')) in *.
  set (e1 := e' + n1) in *.
  assert (Hn1 : 0 <= n1) by (unfold n1; lia).
  pose proof (pow2_pos n1 Hn1) as HP1.
  set (n2 := Z.max 0 (Z.max (Zdigits2 m1 + e1 - 53) (-1074) - e1)) in *.
  assert (Hn2 : 0 <= n2) by (unfold n2; lia).
  pose proof (pow2_pos n2 Hn2) as HP2.
  destruct m2 as [|p2|p2]; try lia.
  { cbn in Hn. injection Hn as <-. exact Hk0. }
  destruct (Z.leb_spec (e1 + n2) 971) as [Hfin|]; [|discriminate Hn].
  cbn [bind] in Hn.
  destruct (Z_le_gt_dec e1 0) as [He1|He1].
  - (* the unit of the rounding is at most one *)
    apply (math_ceil_le p2 (e1 + n2) e1 n2 k n); try lia; try assumption.
    pose proof (pow2_pos (- e1) ltac:(lia)) as HE.
    assert (E : 2 ^ (- e') = 2 ^ (- e1) * 2 ^ n1).
    { rewrite <- Z.pow_add_r by lia. f_equal; unfold e1; lia. }
    assert (HNk : N <= k * 2 ^ (- e1) * (2 ^ n1 * b)).
    { unfold N. rewrite E.
      replace (k * 2 ^ (- e1) * (2 ^ n1 * b)) with (k * b * (2 ^ (- e1) * 2 ^ n1)) by ring.
      apply Z.mul_le_mono_nonneg_r; lia. }
    assert (HPb : 0 < 2 ^ n1 * b) by (apply Z.mul_pos_pos; lia).
    assert (H1 : (2 * m1 - 1) * (2 ^ n1 * b) <= 2 * (k * 2 ^ (- e1)) * (2 ^ n1 * b)) by lia.
    apply Z.mul_le_mono_pos_r in H1; [|assumption]. lia.
  - (* the unit of the rounding is two or more: the float is above 2^53
       as soon as it is rounded up *)
    assert (En1 : n1 = Zdigits2 q - 53) by (unfold e1, n1 in *; lia).
    assert (Hqp : 0 < q).
    { destruct (Z.eq_dec q 0) as [E|]; [|lia]. rewrite E in En1. cbn in En1. lia. }
    pose proof (Zdigits2_bounds q Hqp) as [HQ1 HQ2].
    set (dq := Zdigits2 q) in *.
    assert (HQ5 : 2 ^ (dq - 1) = 2 ^ 52 * 2 ^ n1).
    { rewrite <- Z.pow_add_r by lia. f_equal; lia. }
    assert (HQ6 : 2 ^ dq = 2 * 2 ^ 52 * 2 ^ n1).
    { change (2 * 2 ^ 52) with (2 ^ 53). rewrite <- Z.pow_add_r by lia. f_equal; lia. }
    assert (Hms1 : 2 ^ 52 <= ms < 2 * 2 ^ 52).
    { apply (shifted_mantissa_bounds (2 ^ 52) (2 ^ n1) b N q ms); try assumption.
      - rewrite (Z.mul_comm q), (Z.mul_comm (q + 1)). unfold q. lia.
      - rewrite <- HQ5, <- HQ6. lia. }
    change (2 * 2 ^ 52) with (2 ^ 53) in Hms1.
    assert (Hm1p : 0 < m1) by (change (2 ^ 52) with 4503599627370496 in Hms1; lia).
    pose proof (Zdigits2_ge m1 53 Hm1p ltac:(lia)) as HM1.
    pose proof (pow2_pos e1 ltac:(lia)) as HG.
    assert (HG2 : 2 <= 2 ^ e1).
    { change 2 with (2 ^ 1) at 1. apply Z.pow_le_mono_r; lia. }
    assert (En : n = Zpos p2 * 2 ^ n2 * 2 ^ e1).
    { rewrite (math_ceil_nonneg_exponent p2 (e1 + n2) n ltac:(lia) Hn).
      rewrite Z.pow_add_r by lia. ring. }
    destruct (Z.eq_dec m1 ms) as [Em|Em].
    + (* rounded down *)
      assert (E : 2 ^ n1 = 2 ^ e1 * 2 ^ (- e')).
      { rewrite <- Z.pow_add_r by lia. f_equal; unfold e1; lia. }
      assert (H1 : ms * 2 ^ e1 * b * 2 ^ (- e') <= k * b * 2 ^ (- e')).
      { replace (ms * 2 ^ e1 * b * 2 ^ (- e')) with (ms * (2 ^ n1 * b)) by (rewrite E; ring).
        transitivity N; [lia|]. unfold N. apply Z.mul_le_mono_nonneg_r; lia. }
      apply Z.mul_le_mono_pos_r in H1; [|assumption].
      apply Z.mul_le_mono_pos_r in H1; [|assumption].
      rewrite En. subst m1.
      transitivity (ms * 2 ^ e1); [|assumption].
      apply Z.mul_le_mono_nonneg_r; lia.
    + (* rounded up *)
      exfalso. assert (Em1 : m1 = ms + 1) by lia.
      destruct (Z_lt_le_dec m1 (2 ^ 53)) as [Hlt|Hge].
      * pose proof (Zdigits2_le m1 53 Hm1p Hlt) as HM2.
        assert (E2 : n2 = 0) by (unfold n2; lia).
        rewrite E2 in *. rewrite Z.pow_0_r in *.
        assert (Zpos p2 = m1) by lia.
        assert ((2 ^ 52 + 1) * 2 <= Zpos p2 * 1 * 2 ^ e1).
        { rewrite Z.mul_1_r. apply Z.mul_le_mono_nonneg; lia. }
        change (2 ^ 53) with 9007199254740992 in *.
        change (2 ^ 52) with 4503599627370496 in *. lia.
      * assert (Em2 : m1 = 2 ^ 53) by lia.
        assert (E2 : n2 = 1).
        { unfold n2. rewrite Em2. change (Zdigits2 (2 ^ 53)) with 54. lia. }
        rewrite Em2 in *.
        rewrite E2 in *. change (2 ^ 1) with 2 in *.
        assert (2 ^ 53 * 2 <= Zpos p2 * 2 * 2 ^ e1).
        { apply Z.mul_le_mono_nonneg; lia. }
        change (2 ^ 53) with 9007199254740992 in *. lia.
Qed.

(** From [2^53] pixels on, [math.ceil(a / 128)] is [2^46] or more. *)
Lemma ceil_truediv_128_large a n :
  valid_dim a -> 2 ^ 53 <= a ->
  (q <- int_truediv a 128 ;; math_ceil q) = Ok n ->
  2 ^ 46 <= n.
Proof.
  unfold valid_dim.
  intros Ha Hbig Hn. unfold int_truediv in Hn. cbn [Z.eqb] in Hn.
  assert (Hap : 0 < a) by (change (2 ^ 53) with 9007199254740992 in Hbig; lia).
  assert (Hb : 0 < 128) by lia.
  rewrite (SFdiv_pos a 128 Hap Hb) in Hn.
  rewrite fexp_eq in Hn. change (Zdigits2 128) with 8 in Hn.
  pose proof (Zdigits2_bounds a Hap) as [HA1 HA2].
  pose proof (Zdigits2_le a 63 Hap ltac:(lia)) as Hd1.
  pose proof (Zdigits2_ge a 54 Hap Hbig) as Hd1'.
  set (d1 := Zdigits2 a) in *.
  replace (Z.min (Z.max (d1 - 8 - 53) (-1074)) 0) with (Z.min (d1 - 61) 0) in Hn by lia.
  set (e' := Z.min (d1 - 61) 0) in *.
  assert (He' : -7 <= e' <= 0) by (unfold e'; lia).
  set (N := a * 2 ^ (- e')) in *.
  pose proof (pow2_pos (- e') ltac:(lia)) as HS.
  assert (HN60 : 2 ^ 60 <= N).
  { unfold N. destruct (Z_le_gt_dec d1 61) as [Hd|Hd].
    - replace (2 ^ 60) with (2 ^ (d1 - 1) * 2 ^ (- e')).
      + apply Z.mul_le_mono_nonneg_r; lia.
      + rewrite <- Z.pow_add_r by lia. f_equal. unfold e'. lia.
    - replace (- e') with 0 by (unfold e'; lia). rewrite Z.pow_0_r, Z.mul_1_r.
      transitivity (2 ^ (d1 - 1)); [|assumption].
      apply Z.pow_le_mono_r; lia. }
  pose proof (Z.div_mod N 128 ltac:(lia)) as HN.
  pose proof (Z.mod_pos_bound N 128 Hb) as Hr.
  assert (Hin : located N 128 (N / 128) (new_location 128 (N mod 128))).
  { rewrite HN at 1. rewrite (Z.mul_comm 128). apply new_location_spec; assumption. }
  assert (Hq1 : 2 ^ 53 <= N / 128).
  { apply Z.div_le_lower_bound; [lia|]. change (128 * 2 ^ 53) with (2 ^ 60). exact HN60. }
  set (q := N / 128) in *.
  assert (Hqp : 0 < q) by (change (2 ^ 53) with 9007199254740992 in Hq1; lia).
  pose proof (Zdigits2_bounds q Hqp) as [HQ1 HQ2].
  pose proof (Zdigits2_ge q 54 Hqp Hq1) as HQ4.
  destruct (binary_round_aux_spec q e' _ N 128 Hb ltac:(lia) Hin)
    as (ms & m1 & m2 & Hms & Hfl & Hm1 & _ & Hm2 & Hfl2 & Hres).
  rewrite Hres in Hn. clear Hres.
  rewrite !fexp_eq in *.
  set (dq := Zdigits2 q) in *.
  replace (Z.max 0 (Z.max (dq + e' - 53) (-1074) - e')) with (dq - 53) in * by lia.
  set (n1 := dq - 53) in *.
  set (e1 := e' + n1) in *.
  assert (Hn1 : 1 <= n1) by (unfold n1; lia).
  pose proof (pow2_pos n1 ltac:(lia)) as HPp.
  assert (HQ5 : 2 ^ (dq - 1) = 2 ^ 52 * 2 ^ n1).
  { rewrite <- Z.pow_add_r by lia. f_equal; unfold n1; lia. }
  assert (HQ6 : 2 ^ dq = 2 * 2 ^ 52 * 2 ^ n1).
  { change (2 * 2 ^ 52) with (2 ^ 53). rewrite <- Z.pow_add_r by lia.
    f_equal; unfold n1; lia. }
  assert (Hms1 : 2 ^ 52 <= ms < 2 * 2 ^ 52).
  { apply (shifted_mantissa_bounds (2 ^ 52) (2 ^ n1) 128 N q ms); try assumption.
    - rewrite (Z.mul_comm q), (Z.mul_comm (q + 1)). unfold q. lia.
    - rewrite <- HQ5, <- HQ6. lia. }
  change (2 * 2 ^ 52) with (2 ^ 53) in Hms1.
  assert (Hm1p : 0 < m1) by (change (2 ^ 52) with 4503599627370496 in Hms1; lia).
  pose proof (Zdigits2_ge m1 53 Hm1p ltac:(lia)) as HM1.
  assert (He1 : -6 <= e1) by (unfold e1; lia).
  set (n2 := Z.max 0 (Z.max (Zdigits2 m1 + e1 - 53) (-1074) - e1)) in *.
  assert (Hn2 : 0 <= n2) by (unfold n2; lia).
  assert (Hp2 : 2 ^ 52 <= m2).
  { destruct (Z_lt_le_dec m1 (2 ^ 53)) as [Hlt|Hge].
    - pose proof (Zdigits2_le m1 53 Hm1p Hlt) as HM2.
      assert (E2 : n2 = 0) by (unfold n2; lia).
      rewrite E2, Z.pow_0_r in Hfl2. lia.
    - assert (Em2 : m1 = 2 ^ 53) by lia.
      assert (E2 : n2 = 1).
      { unfold n2. rewrite Em2. change (Zdigits2 (2 ^ 53)) with 54. lia. }
      rewrite E2, Em2 in Hfl2. change (2 ^ 1) with 2 in Hfl2.
      change (2 ^ 53) with 9007199254740992 in Hfl2.
      change (2 ^ 52) with 4503599627370496. lia. }
  destruct m2 as [|p2|p2]; try (change (2 ^ 52) with 4503599627370496 in Hp2; lia).
  destruct (Z.leb_spec (e1 + n2) 971) as [Hfin|]; [|discriminate Hn].
  cbn [bind] in Hn.
  change (2 ^ 46) with 70368744177664. change (2 ^ 52) with 4503599627370496 in Hp2.
  destruct (Z_le_gt_dec 0 (e1 + n2)) as [H0|H0].
  - rewrite (math_ceil_nonneg_exponent p2 (e1 + n2) n H0 Hn).
    pose proof (pow2_pos (e1 + n2) H0) as HF.
    assert (Zpos p2 * 1 <= Zpos p2 * 2 ^ (e1 + n2)) by (apply Z.mul_le_mono_nonneg_l; lia).
    lia.
  - unfold math_ceil, cond_Zopp in Hn.
    destruct (Z.leb_spec 0 (e1 + n2)); [lia|]. injection Hn as <-.
    pose proof (pow2_pos (- (e1 + n2)) ltac:(lia)) as HF.
    assert (HF6 : 2 ^ (- (e1 + n2)) <= 2 ^ 6) by (apply Z.pow_le_mono_r; lia).
    change (2 ^ 6) with 64 in HF6.
    pose proof (ceil_div_spec (Zpos p2) _ HF) as [_ Hc].
    set (c := ceil_div (Zpos p2) (2 ^ (- (e1 + n2)))) in *.
    assert (0 < c).
    { destruct (Z_lt_le_dec 0 c); [assumption|].
      assert (c * 2 ^ (- (e1 + n2)) <= 0) by (apply Z.mul_nonpos_nonneg; lia). lia. }
    assert (c * 2 ^ (- (e1 + n2)) <= c * 64) by (apply Z.mul_le_mono_nonneg_l; lia).
    lia.
Qed.

(** ** Loops over ranges *)

Lemma range_length n : List.length (range n) = Z.to_nat n.
Proof. unfold range. rewrite length_map, length_seq. reflexivity. Qed.

Lemma In_range n x : In x (range n) <-> 0 <= x < n.
Proof.
  unfold range. rewrite in_map_iff. split.
  - intros (i & <- & Hi). apply in_seq in Hi. lia.
  - intros Hx. exists (Z.to_nat x). split; [lia|]. apply in_seq. lia.
Qed.

Lemma nth_error_range n i :
  (i < Z.to_nat n)%nat -> nth_error (range n) i = Some (Z.of_nat i).
Proof.
  intros Hi. unfold range. rewrite nth_error_map.
  rewrite nth_error_seq. destruct (Nat.ltb_spec i (Z.to_nat n)); [reflexivity|lia].
Qed.

Lemma fold_left_ext_in {A B} (f g : A -> B -> A) l : forall s,
  (forall s x, In x l -> f s x = g s x) -> fold_left f l s = fold_left g l s.
Proof.
  induction l as [|x l IH]; intros s H; cbn; [reflexivity|].
  rewrite H by (left; reflexivity). apply IH. intros; apply H; right; assumption.
Qed.

Lemma for_range_ext {S} n (f g : Z -> S -> S) s :
  (forall i s, 0 <= i < n -> f i s = g i s) -> for_range n f s = for_range n g s.
Proof.
  intros H. unfold for_range. apply fold_left_ext_in.
  intros s' x Hx. apply H. apply In_range. assumption.
Qed.

Lemma for_range_append {A} n (f : Z -> A) acc :
  for_range n (fun i acc => acc ++ [f i]) acc = acc ++ map f (range n).
Proof.
  unfold for_range. generalize (range n). intros l. revert acc.
  induction l as [|x l IH]; intros acc; cbn.
  - rewrite app_nil_r. reflexivity.
  - rewrite IH, <- app_assoc. reflexivity.
Qed.

Lemma for_range_concat {A} n (f : Z -> list A) acc :
  for_range n (fun i acc => acc ++ f i) acc = acc ++ flat_map f (range n).
Proof.
  unfold for_range. generalize (range n). intros l. revert acc.
  induction l as [|x l IH]; intros acc; cbn.
  - rewrite app_nil_r. reflexivity.
  - rewrite IH, <- app_assoc. reflexivity.
Qed.

Lemma length_flat_map_uniform {A B} (f : A -> list B) n l :
  (forall x, In x l -> List.length (f x) = n) ->
  List.length (flat_map f l) = (List.length l * n)%nat.
Proof.
  induction l as [|a l IH]; intros H; cbn; [reflexivity|].
  rewrite length_app, H by (left; reflexivity).
  rewrite IH by (intros; apply H; right; assumption). reflexivity.
Qed.

Lemma nth_error_flat_map_uniform {A B} (f : A -> list B) n l :
  (forall x, In x l -> List.length (f x) = n) ->
  forall i j x, nth_error l i = Some x -> (j < n)%nat ->
  nth_error (flat_map f l) (i * n + j) = nth_error (f x) j.
Proof.
  induction l as [|a l IH]; intros H i j x Hi Hj.
  - destruct i; discriminate.
  - destruct i as [|i]; cbn in Hi |- *.
    + injection Hi as ->. apply nth_error_app1. rewrite H by (left; reflexivity). exact Hj.
    + rewrite nth_error_app2 by (rewrite H by (left; reflexivity); lia).
      rewrite H by (left; reflexivity).
      replace (n + i * n + j - n)%nat with (i * n + j)%nat by lia.
      apply IH; try assumption. intros; apply H; right; assumption.
Qed.

(** ** The grid *)

Section Grid.
Variable np_img : ndarray.
Variables row_tile_size col_tile_size nr nc : Z.

Let at_ := tile_at np_img row_tile_size col_tile_size nr nc.
Let grid_ := grid np_img row_tile_size col_tile_size nr nc.

Lemma grid_length : List.length grid_ = (Z.to_nat nr * Z.to_nat nc)%nat.
Proof.
  unfold grid_, grid.
  rewrite (length_flat_map_uniform _ (Z.to_nat nc)).
  - rewrite range_length. reflexivity.
  - intros x _. rewrite length_map, range_length. reflexivity.
Qed.

Lemma grid_length_Z : 0 <= nr -> 0 <= nc -> Z.of_nat (List.length grid_) = nr * nc.
Proof. intros. rewrite grid_length. lia. Qed.

Lemma nth_error_grid r c :
  0 <= r < nr -> 0 <= c < nc ->
  nth_error grid_ (Z.to_nat (r * nc + c)) = Some (at_ r c).
Proof.
  intros Hr Hc. unfold grid_, grid.
  replace (Z.to_nat (r * nc + c)) with (Z.to_nat r * Z.to_nat nc + Z.to_nat c)%nat by nia.
  rewrite (nth_error_flat_map_uniform _ (Z.to_nat nc) _
             (fun x _ => eq_trans (length_map _ _) (range_length nc))
             (Z.to_nat r) (Z.to_nat c) r).
  - rewrite nth_error_map, nth_error_range by lia.
    cbn. rewrite Z2Nat.id by lia. reflexivity.
  - rewrite nth_error_range by lia. rewrite Z2Nat.id by lia. reflexivity.
  - lia.
Qed.

Lemma nth_error_grid_inv k t :
  nth_error grid_ k = Some t ->
  exists r c, 0 <= r < nr /\ 0 <= c < nc /\ k = Z.to_nat (r * nc + c) /\ t = at_ r c.
Proof.
  intros H.
  assert (Hk : (k < Z.to_nat nr * Z.to_nat nc)%nat).
  { rewrite <- grid_length. apply nth_error_Some. congruence. }
  assert (Hnc : 0 < nc) by nia.
  assert (Hnr : 0 < nr) by nia.
  set (z := Z.of_nat k).
  assert (Hz : 0 <= z < nr * nc) by (unfold z; nia).
  pose proof (Z.div_mod z nc ltac:(lia)) as Hdm.
  pose proof (Z.mod_pos_bound z nc Hnc) as Hm.
  assert (Hd : 0 <= z / nc < nr).
  { split; [apply Z.div_pos; lia|]. apply Z.div_lt_upper_bound; lia. }
  exists (z / nc), (z mod nc).
  assert (E : k = Z.to_nat (z / nc * nc + z mod nc)).
  { replace (z / nc * nc + z mod nc) with z by lia. unfold z. lia. }
  repeat split; try lia.
  pose proof (nth_error_grid (z / nc) (z mod nc) Hd Hm) as G.
  rewrite <- E in G. congruence.
Qed.

Lemma In_grid t :
  In t grid_ <-> exists r c, 0 <= r < nr /\ 0 <= c < nc /\ t = at_ r c.
Proof.
  unfold grid_, grid. rewrite in_flat_map. split.
  - intros (r & Hr & Ht). apply in_map_iff in Ht. destruct Ht as (c & <- & Hc).
    apply In_range in Hr. apply In_range in Hc. exists r, c. auto.
  - intros (r & c & Hr & Hc & ->). exists r. split; [apply In_range; assumption|].
    apply in_map. apply In_range. assumption.
Qed.

End Grid.

(** [get_tile_indices] builds the grid of the counts of [get_num_tiles]. *)
Lemma get_tile_indices_grid np_img row_tile_size col_tile_size nr nc :
  get_num_tiles np_img row_tile_size col_tile_size = Ok (nr, nc) ->
  get_tile_indices np_img row_tile_size col_tile_size
  = Ok (grid np_img row_tile_size col_tile_size nr nc).
Proof.
  intros H. unfold get_tile_indices. rewrite H.
  destruct np_img as [[[r c] ch] it]. cbn [shape bind]. f_equal.
  set (np_img := {| shape := (r, c, ch); item := it |}).
  rewrite (for_range_ext _ _
    (fun i acc => acc ++ map (tile_at np_img row_tile_size col_tile_size nr nc i) (range nc))).
  - rewrite for_range_concat. reflexivity.
  - intros i s Hi.
    rewrite (for_range_ext _ _
      (fun j acc => acc ++ [tile_at np_img row_tile_size col_tile_size nr nc i j])).
    + apply for_range_append.
    + intros j s' Hj. unfold tile_at, band_start, band_end. cbn.
      destruct (Z.ltb_spec i (nr - 1)); destruct (Z.eqb_spec i (nr - 1)); try lia;
      destruct (Z.ltb_spec j (nc - 1)); destruct (Z.eqb_spec j (nc - 1)); try lia;
      reflexivity.
Qed.

Lemma get_num_tiles_exact np_img row_tile_size col_tile_size :
  exact_dim (rows np_img) -> exact_dim (cols np_img) ->
  exact_size row_tile_size -> exact_size col_tile_size ->
  get_num_tiles np_img row_tile_size col_tile_size
  = Ok (ceil_div (rows np_img) row_tile_size, ceil_div (cols np_img) col_tile_size).
Proof.
  intros Hr Hc Hrs Hcs. unfold get_num_tiles.
  destruct np_img as [[[r c] ch] it]. cbn [shape rows cols fst snd] in *.
  rewrite (ceil_truediv_exact r _ Hr Hrs). cbn [bind].
  rewrite (ceil_truediv_exact c _ Hc Hcs). reflexivity.
Qed.

Lemma get_num_tiles_total np_img row_tile_size col_tile_size :
  valid_shape np_img -> 0 < row_tile_size -> 0 < col_tile_size ->
  exists nr nc,
    get_num_tiles np_img row_tile_size col_tile_size = Ok (nr, nc) /\ 0 <= nr /\ 0 <= nc.
Proof.
  intros (Hr & Hc & _) Hrs Hcs. unfold get_num_tiles.
  destruct np_img as [[[r c] ch] it]. cbn [shape rows cols fst snd] in *.
  destruct (ceil_truediv_total r _ Hr Hrs) as (nr & -> & Hnr).
  destruct (ceil_truediv_total c _ Hc Hcs) as (nc & -> & Hnc).
  exists nr, nc. repeat split; assumption.
Qed.

Lemma get_num_tiles_inv np_img row_tile_size col_tile_size nr nc :
  get_num_tiles np_img row_tile_size col_tile_size = Ok (nr, nc) ->
  (q <- int_truediv (rows np_img) row_tile_size ;; math_ceil q) = Ok nr
  /\ (q <- int_truediv (cols np_img) col_tile_size ;; math_ceil q) = Ok nc.
Proof.
  unfold get_num_tiles. destruct np_img as [[[r c] ch] it]. cbn [shape rows cols fst snd].
  destruct (q <- int_truediv r row_tile_size ;; math_ceil q) as [nr'|]; [|discriminate].
  cbn [bind].
  destruct (q <- int_truediv c col_tile_size ;; math_ceil q) as [nc'|]; [|discriminate].
  cbn [bind]. intros H. injection H as -> ->. split; reflexivity.
Qed.

(** ** One axis of the grid

    [n] bands of nominal size [size] on an axis of length [total], where [n]
    is the exact ceiling of [total / size]. *)

Section Axis.
Variables size total n : Z.
Hypothesis size_pos : 0 < size.
Hypothesis n_ceil : (n - 1) * size < total <= n * size.

Lemma band_index_range i : 0 <= i < total -> 0 <= i / size < n.
Proof.
  intros Hi. split; [apply Z.div_pos; lia|].
  apply Z.div_lt_upper_bound; lia.
Qed.

Lemma band_contains k i :
  0 <= k < n ->
  (band_start size k <= i < band_end size total n k <-> 0 <= i < total /\ k = i / size).
Proof.
  intros Hk. unfold band_start, band_end.
  pose proof (Z.div_mod i size ltac:(lia)) as Hdm.
  pose proof (Z.mod_pos_bound i size size_pos) as Hm.
  destruct (Z.eqb_spec k (n - 1)) as [->|Hne]; split.
  - intros H. split; [nia|].
    assert (i / size < n) by (apply Z.div_lt_upper_bound; lia).
    assert (n - 1 <= i / size) by (apply Z.div_le_lower_bound; lia). lia.
  - intros [H ->]. nia.
  - intros H.
    assert (i / size < k + 1) by (apply Z.div_lt_upper_bound; lia).
    assert (k <= i / size) by (apply Z.div_le_lower_bound; lia).
    split; [nia|lia].
  - intros [H ->]. nia.
Qed.

Lemma band_length k :
  0 <= k < n ->
  0 < band_end size total n k - band_start size k <= size /\
  (k <> n - 1 -> band_end size total n k - band_start size k = size).
Proof.
  intros Hk. unfold band_start, band_end.
  destruct (Z.eqb_spec k (n - 1)) as [->|Hne]; split; try lia.
Qed.

Lemma band_within k :
  0 <= k < n ->
  0 <= band_start size k <= band_end size total n k /\ band_end size total n k <= total.
Proof.
  intros Hk. unfold band_start, band_end.
  destruct (Z.eqb_spec k (n - 1)) as [->|Hne]; nia.
Qed.

End Axis.

(** Bands that are not more than the exact ceiling end on the axis. *)
Lemma band_within_upper size total n k :
  0 < size -> (n - 1) * size < total -> 0 <= k < n ->
  0 <= band_start size k <= band_end size total n k /\ band_end size total n k <= total.
Proof.
  intros Hs Hn Hk. unfold band_start, band_end.
  assert (0 <= k * size) by (apply Z.mul_nonneg_nonneg; lia).
  destruct (Z.eqb_spec k (n - 1)) as [->|Hne]; [lia|].
  assert ((k + 1) * size <= (n - 1) * size) by (apply Z.mul_le_mono_nonneg_r; lia).
  lia.
Qed.

Lemma slice_range_within n start stop :
  0 <= start <= stop -> stop <= n -> slice_range n start stop = (start, stop - start).
Proof.
  intros H1 H2. unfold slice_range, slice_index.
  destruct (Z.ltb_spec start 0); destruct (Z.ltb_spec stop 0); try lia.
  f_equal; lia.
Qed.

(** ** The grid indexer *)

(** C2, counterexample: with [2^53 + 1] rows and rows of one pixel the
    quotient is rounded to [2^53], one band short of the ceiling; with a
    tile size of [2^1100] the quotient underflows to zero and no band is
    counted for an image of one pixel. *)
Lemma get_num_tiles_rounds_counterexample :
  (get_num_tiles (blank (2 ^ 53 + 1) 1 3) 1 1 = Ok (2 ^ 53, 1)
   /\ ceil_div (2 ^ 53 + 1) 1 = 2 ^ 53 + 1)
  /\ (get_num_tiles (blank 1 1 3) (2 ^ 1100) (2 ^ 1100) = Ok (0, 0)
      /\ ceil_div 1 (2 ^ 1100) = 1).
Proof. repeat split; vm_compute; reflexivity. Qed.

(** C2, amended: for an image whose rows and columns are below [2^53] and
    tile sizes that are positive and below [2^1022], [get_num_tiles]
    returns the pair of the exact ceilings of [rows / row_tile_size] and
    [cols / col_tile_size]: the least counts of bands that cover the axes. *)
Theorem get_num_tiles_ceil np_img row_tile_size col_tile_size :
  exact_dim (rows np_img) -> exact_dim (cols np_img) ->
  exact_size row_tile_size -> exact_size col_tile_size ->
  get_num_tiles np_img row_tile_size col_tile_size
  = Ok (ceil_div (rows np_img) row_tile_size, ceil_div (cols np_img) col_tile_size)
  /\ (ceil_div (rows np_img) row_tile_size - 1) * row_tile_size
       < rows np_img <= ceil_div (rows np_img) row_tile_size * row_tile_size
  /\ (ceil_div (cols np_img) col_tile_size - 1) * col_tile_size
       < cols np_img <= ceil_div (cols np_img) col_tile_size * col_tile_size.
Proof.
  intros Hr Hc Hrs Hcs. split; [apply get_num_tiles_exact; assumption|].
  split; apply ceil_div_spec; [apply Hrs|apply Hcs].
Qed.

Lemma get_num_tiles_ceil_witness :
  get_num_tiles (blank 300 200 3) 128 128
  = Ok (ceil_div (rows (blank 300 200 3)) 128, ceil_div (cols (blank 300 200 3)) 128)
  /\ (ceil_div (rows (blank 300 200 3)) 128 - 1) * 128
       < rows (blank 300 200 3) <= ceil_div (rows (blank 300 200 3)) 128 * 128
  /\ (ceil_div (cols (blank 300 200 3)) 128 - 1) * 128
       < cols (blank 300 200 3) <= ceil_div (cols (blank 300 200 3)) 128 * 128.
Proof.
  apply (get_num_tiles_ceil (blank 300 200 3) 128 128);
    unfold exact_dim, exact_size; split; reflexivity || (vm_compute; discriminate).
Defined.

(** C3: for every image and positive tile sizes, [get_tile_indices] returns
    [num_row_tiles * num_col_tiles] tuples in row-major order: the tuple of
    row band [r] and column band [c] is at position [r * num_col_tiles + c],
    it starts at [r * row_tile_size] and [c * col_tile_size], and it ends at
    the next multiple of the tile size, except the last band of an axis,
    which ends at the length of the axis. *)
Theorem get_tile_indices_row_major np_img row_tile_size col_tile_size :
  valid_shape np_img -> 0 < row_tile_size -> 0 < col_tile_size ->
  exists num_row_tiles num_col_tiles indices,
    get_num_tiles np_img row_tile_size col_tile_size = Ok (num_row_tiles, num_col_tiles)
    /\ 0 <= num_row_tiles /\ 0 <= num_col_tiles
    /\ get_tile_indices np_img row_tile_size col_tile_size = Ok indices
    /\ Z.of_nat (List.length indices) = num_row_tiles * num_col_tiles
    /\ forall r c, 0 <= r < num_row_tiles -> 0 <= c < num_col_tiles ->
         nth_error indices (Z.to_nat (r * num_col_tiles + c))
         = Some (r * row_tile_size,
                 (if r =? num_row_tiles - 1 then rows np_img else (r + 1) * row_tile_size),
                 c * col_tile_size,
                 (if c =? num_col_tiles - 1 then cols np_img else (c + 1) * col_tile_size)).
Proof.
  intros Hv Hrs Hcs.
  destruct (get_num_tiles_total np_img _ _ Hv Hrs Hcs) as (nr & nc & Hn & Hnr & Hnc).
  exists nr, nc, (grid np_img row_tile_size col_tile_size nr nc).
  split; [exact Hn|]. split; [exact Hnr|]. split; [exact Hnc|].
  split; [apply get_tile_indices_grid; exact Hn|].
  split; [apply grid_length_Z; assumption|].
  intros r c Hr Hc. apply nth_error_grid; assumption.
Qed.

Lemma get_tile_indices_row_major_witness :
  exists num_row_tiles num_col_tiles indices,
    get_num_tiles (blank 300 200 3) 128 128 = Ok (num_row_tiles, num_col_tiles)
    /\ 0 <= num_row_tiles /\ 0 <= num_col_tiles
    /\ get_tile_indices (blank 300 200 3) 128 128 = Ok indices
    /\ Z.of_nat (List.length indices) = num_row_tiles * num_col_tiles
    /\ forall r c, 0 <= r < num_row_tiles -> 0 <= c < num_col_tiles ->
         nth_error indices (Z.to_nat (r * num_col_tiles + c))
         = Some (r * 128,
                 (if r =? num_row_tiles - 1 then rows (blank 300 200 3) else (r + 1) * 128),
                 c * 128,
                 (if c =? num_col_tiles - 1 then cols (blank 300 200 3) else (c + 1) * 128)).
Proof.
  apply (get_tile_indices_row_major (blank 300 200 3) 128 128).
  - unfold valid_shape, valid_dim. cbn. lia.
  - lia.
  - lia.
Defined.

(** In the exact range the grid is the grid of the exact ceilings. *)
Lemma get_tile_indices_exact np_img row_tile_size col_tile_size :
  exact_dim (rows np_img) -> exact_dim (cols np_img) ->
  exact_size row_tile_size -> exact_size col_tile_size ->
  get_tile_indices np_img row_tile_size col_tile_size
  = Ok (grid np_img row_tile_size col_tile_size
          (ceil_div (rows np_img) row_tile_size) (ceil_div (cols np_img) col_tile_size)).
Proof.
  intros. apply get_tile_indices_grid. apply get_num_tiles_exact; assumption.
Qed.

(** C4, counterexample: with tile sizes of [2^1100] the quotients underflow
    to zero, no tile is produced for an image of one pixel, and the pixel
    lies in no tile. *)
Lemma tiles_cover_counterexample :
  get_tile_indices (blank 1 1 3) (2 ^ 1100) (2 ^ 1100) = Ok []
  /\ 0 <= 0 < rows (blank 1 1 3) /\ 0 <= 0 < cols (blank 1 1 3)
  /\ ~ exists t, In t (@nil tile) /\ in_tile t 0 0.
Proof.
  split; [vm_compute; reflexivity|]. split; [cbn; lia|]. split; [cbn; lia|].
  intros (t & [] & _).
Qed.

(** C4, amended: for an image whose rows and columns are below [2^53] and
    tile sizes that are positive and below [2^1022], every pixel of the
    image lies in the bounds of exactly one tile of the sequence, and the
    bounds of every tile lie in the image. *)
Theorem tiles_partition_image np_img row_tile_size col_tile_size :
  exact_dim (rows np_img) -> exact_dim (cols np_img) ->
  exact_size row_tile_size -> exact_size col_tile_size ->
  exists indices,
    get_tile_indices np_img row_tile_size col_tile_size = Ok indices
    /\ (forall i j, 0 <= i < rows np_img -> 0 <= j < cols np_img ->
          exists! k, exists t, nth_error indices k = Some t /\ in_tile t i j)
    /\ (forall t i j, In t indices -> in_tile t i j ->
          0 <= i < rows np_img /\ 0 <= j < cols np_img).
Proof.
  intros Hr Hc Hrs Hcs.
  pose proof (ceil_div_spec (rows np_img) row_tile_size (proj1 Hrs)) as Cr.
  pose proof (ceil_div_spec (cols np_img) col_tile_size (proj1 Hcs)) as Cc.
  pose proof (get_tile_indices_exact _ _ _ Hr Hc Hrs Hcs) as Hg.
  destruct Hrs as [Hrs _]. destruct Hcs as [Hcs _].
  set (nr := ceil_div (rows np_img) row_tile_size) in *.
  set (nc := ceil_div (cols np_img) col_tile_size) in *.
  eexists. split; [exact Hg|]. split.
  - intros i j Hi Hj.
    pose proof (band_index_range _ _ _ Hrs Cr i Hi) as Bi.
    pose proof (band_index_range _ _ _ Hcs Cc j Hj) as Bj.
    exists (Z.to_nat (i / row_tile_size * nc + j / col_tile_size)). split.
    + eexists. split; [apply nth_error_grid; assumption|].
      unfold tile_at, in_tile. split.
      * apply (band_contains _ _ _ Hrs Cr); auto.
      * apply (band_contains _ _ _ Hcs Cc); auto.
    + intros k (t & Hk & Ht).
      apply nth_error_grid_inv in Hk. destruct Hk as (r & c & Hr' & Hc' & -> & ->).
      unfold tile_at, in_tile in Ht. destruct Ht as [Ht1 Ht2].
      apply (band_contains _ _ _ Hrs Cr) in Ht1; [|assumption].
      apply (band_contains _ _ _ Hcs Cc) in Ht2; [|assumption].
      destruct Ht1 as [_ ->]. destruct Ht2 as [_ ->]. reflexivity.
  - intros t i j Ht Hin. apply In_grid in Ht. destruct Ht as (r & c & Hr' & Hc' & ->).
    unfold tile_at, in_tile in Hin. destruct Hin as [Ht1 Ht2].
    apply (band_contains _ _ _ Hrs Cr) in Ht1; [|assumption].
    apply (band_contains _ _ _ Hcs Cc) in Ht2; [|assumption].
    split; [apply Ht1|apply Ht2].
Qed.

Lemma tiles_partition_image_witness :
  exists indices,
    get_tile_indices (blank 300 200 3) 128 128 = Ok indices
    /\ (forall i j, 0 <= i < rows (blank 300 200 3) -> 0 <= j < cols (blank 300 200 3) ->
          exists! k, exists t, nth_error indices k = Some t /\ in_tile t i j)
    /\ (forall t i j, In t indices -> in_tile t i j ->
          0 <= i < rows (blank 300 200 3) /\ 0 <= j < cols (blank 300 200 3)).
Proof.
  apply (tiles_partition_image (blank 300 200 3) 128 128);
    unfold exact_dim, exact_size; split; reflexivity || (vm_compute; discriminate).
Defined.

(** C6, counterexample: with [2^53 + 1] rows and a row tile size of [2^53]
    the quotient is rounded to one, and the single band is one row taller
    than the tile size. *)
Lemma tile_height_counterexample :
  get_tile_indices (blank (2 ^ 53 + 1) 1 3) (2 ^ 53) 1 = Ok [(0, 2 ^ 53 + 1, 0, 1)]
  /\ ~ (2 ^ 53 + 1 - 0 <= 2 ^ 53).
Proof. split; [vm_compute; reflexivity|lia]. Qed.

(** C6, amended: for an image whose rows and columns are below [2^53] and
    tile sizes that are positive and below [2^1022], every tile is at most
    [row_tile_size] rows high and [col_tile_size] columns wide, and a tile
    that is not in the last row band (column band) is exactly that high
    (wide). *)
Theorem tile_extent_bounded np_img row_tile_size col_tile_size :
  exact_dim (rows np_img) -> exact_dim (cols np_img) ->
  exact_size row_tile_size -> exact_size col_tile_size ->
  exists num_row_tiles num_col_tiles indices,
    get_num_tiles np_img row_tile_size col_tile_size = Ok (num_row_tiles, num_col_tiles)
    /\ get_tile_indices np_img row_tile_size col_tile_size = Ok indices
    /\ (forall r_s r_e c_s c_e, In (r_s, r_e, c_s, c_e) indices ->
          r_e - r_s <= row_tile_size /\ c_e - c_s <= col_tile_size)
    /\ (forall r c, 0 <= r < num_row_tiles -> 0 <= c < num_col_tiles ->
          exists r_s r_e c_s c_e,
            nth_error indices (Z.to_nat (r * num_col_tiles + c)) = Some (r_s, r_e, c_s, c_e)
            /\ (r <> num_row_tiles - 1 -> r_e - r_s = row_tile_size)
            /\ (c <> num_col_tiles - 1 -> c_e - c_s = col_tile_size)).
Proof.
  intros Hr Hc Hrs Hcs.
  pose proof (ceil_div_spec (rows np_img) row_tile_size (proj1 Hrs)) as Cr.
  pose proof (ceil_div_spec (cols np_img) col_tile_size (proj1 Hcs)) as Cc.
  pose proof (get_num_tiles_exact _ _ _ Hr Hc Hrs Hcs) as Hn.
  pose proof (get_tile_indices_exact _ _ _ Hr Hc Hrs Hcs) as Hg.
  destruct Hrs as [Hrs _]. destruct Hcs as [Hcs _].
  set (nr := ceil_div (rows np_img) row_tile_size) in *.
  set (nc := ceil_div (cols np_img) col_tile_size) in *.
  exists nr, nc. eexists. split; [exact Hn|]. split; [exact Hg|]. split.
  - intros r_s r_e c_s c_e Ht. apply In_grid in Ht.
    destruct Ht as (r & c & Hr' & Hc' & Ht). unfold tile_at in Ht.
    injection Ht as -> -> -> ->.
    split; [apply (band_length _ _ _ Hrs Cr); assumption
           |apply (band_length _ _ _ Hcs Cc); assumption].
  - intros r c Hr' Hc'. do 4 eexists.
    split; [apply nth_error_grid; assumption|].
    split; [apply (band_length _ _ _ Hrs Cr); assumption
           |apply (band_length _ _ _ Hcs Cc); assumption].
Qed.

Lemma tile_extent_bounded_witness :
  exists num_row_tiles num_col_tiles indices,
    get_num_tiles (blank 300 200 3) 128 128 = Ok (num_row_tiles, num_col_tiles)
    /\ get_tile_indices (blank 300 200 3) 128 128 = Ok indices
    /\ (forall r_s r_e c_s c_e, In (r_s, r_e, c_s, c_e) indices ->
          r_e - r_s <= 128 /\ c_e - c_s <= 128)
    /\ (forall r c, 0 <= r < num_row_tiles -> 0 <= c < num_col_tiles ->
          exists r_s r_e c_s c_e,
            nth_error indices (Z.to_nat (r * num_col_tiles + c)) = Some (r_s, r_e, c_s, c_e)
            /\ (r <> num_row_tiles - 1 -> r_e - r_s = 128)
            /\ (c <> num_col_tiles - 1 -> c_e - c_s = 128)).
Proof.
  apply (tile_extent_bounded (blank 300 200 3) 128 128);
    unfold exact_dim, exact_size; split; reflexivity || (vm_compute; discriminate).
Defined.

(** Beyond [2^53] bands the float quotient can be rounded up: on [2^54 + 6]
    rows of one pixel it is [2^54 + 8], and a list of that many tuples
    would have a band that starts at row [2^54 + 6] and ends one row after
    the last row of the image.  No machine holds a list of that length. *)
Lemma long_grid_overshoots :
  get_num_tiles (blank (2 ^ 54 + 6) 1 3) 1 1 = Ok (2 ^ 54 + 8, 1)
  /\ tile_at (blank (2 ^ 54 + 6) 1 3) 1 1 (2 ^ 54 + 8) 1 (2 ^ 54 + 6) 0
     = (2 ^ 54 + 6, 2 ^ 54 + 7, 0, 1)
  /\ ~ storable (grid (blank (2 ^ 54 + 6) 1 3) 1 1 (2 ^ 54 + 8) 1).
Proof.
  split; [vm_compute; reflexivity|]. split; [vm_compute; reflexivity|].
  unfold storable. rewrite grid_length_Z by lia. vm_compute. intros H. apply H. reflexivity.
Qed.

(** On a list that a machine can hold, the bands are not more than the
    exact ceiling of the quotient. *)
Lemma storable_grid_counts np_img row_tile_size col_tile_size nr nc t :
  valid_shape np_img -> 0 < row_tile_size -> 0 < col_tile_size ->
  get_num_tiles np_img row_tile_size col_tile_size = Ok (nr, nc) ->
  storable (grid np_img row_tile_size col_tile_size nr nc) ->
  In t (grid np_img row_tile_size col_tile_size nr nc) ->
  (nr - 1) * row_tile_size < rows np_img /\ (nc - 1) * col_tile_size < cols np_img.
Proof.
  intros (Hr & Hc & _) Hrs Hcs Hn Hst Ht.
  apply In_grid in Ht. destruct Ht as (r & c & Hr' & Hc' & _).
  unfold storable in Hst. rewrite grid_length_Z in Hst by lia.
  destruct (get_num_tiles_inv _ _ _ _ _ Hn) as [Er Ec].
  assert (Hnr : nr <= 2 ^ 53).
  { assert (nr * 1 <= nr * nc) by (apply Z.mul_le_mono_nonneg_l; lia). lia. }
  assert (Hnc : nc <= 2 ^ 53).
  { assert (1 * nc <= nr * nc) by (apply Z.mul_le_mono_nonneg_r; lia). lia. }
  pose proof (ceil_truediv_upper _ _ _ Hr Hrs Er Hnr) as Ur.
  pose proof (ceil_truediv_upper _ _ _ Hc Hcs Ec Hnc) as Uc.
  pose proof (ceil_div_spec (rows np_img) row_tile_size Hrs) as [Cr _].
  pose proof (ceil_div_spec (cols np_img) col_tile_size Hcs) as [Cc _].
  split.
  - assert ((nr - 1) * row_tile_size
            <= (ceil_div (rows np_img) row_tile_size - 1) * row_tile_size)
      by (apply Z.mul_le_mono_nonneg_r; lia).
    lia.
  - assert ((nc - 1) * col_tile_size
            <= (ceil_div (cols np_img) col_tile_size - 1) * col_tile_size)
      by (apply Z.mul_le_mono_nonneg_r; lia).
    lia.
Qed.

(** C7: for every image and positive tile sizes, [get_tile_indices] returns
    a list, and when the list is one that a machine can hold (at most
    [2^53] tuples) every tile of it ends within the image, in the last
    bands too, so that the slice of the image on the bounds of a tile is
    not clipped: it has the extent of the tile and holds the pixels of the
    image at the rows and columns of the tile. *)
Theorem tile_within_image np_img row_tile_size col_tile_size :
  valid_shape np_img -> 0 < row_tile_size -> 0 < col_tile_size ->
  exists indices,
    get_tile_indices np_img row_tile_size col_tile_size = Ok indices
    /\ (storable indices ->
        forall r_s r_e c_s c_e, In (r_s, r_e, c_s, c_e) indices ->
          r_e <= rows np_img /\ c_e <= cols np_img
          /\ shape (getslice2 np_img r_s r_e c_s c_e)
             = (r_e - r_s, c_e - c_s, channels np_img)
          /\ forall i j k,
               item (getslice2 np_img r_s r_e c_s c_e) i j k
               = item np_img (r_s + i) (c_s + j) k).
Proof.
  intros Hv Hrs Hcs.
  destruct (get_num_tiles_total np_img _ _ Hv Hrs Hcs) as (nr & nc & Hn & Hnr & Hnc).
  eexists. split; [apply (get_tile_indices_grid _ _ _ _ _ Hn)|].
  intros Hst r_s r_e c_s c_e Ht.
  destruct (storable_grid_counts _ _ _ _ _ _ Hv Hrs Hcs Hn Hst Ht) as [Ur Uc].
  apply In_grid in Ht.
  destruct Ht as (r & c & Hr' & Hc' & Ht). unfold tile_at in Ht.
  injection Ht as -> -> -> ->.
  pose proof (band_within_upper _ _ _ r Hrs Ur Hr') as [Br1 Br2].
  pose proof (band_within_upper _ _ _ c Hcs Uc Hc') as [Bc1 Bc2].
  split; [exact Br2|]. split; [exact Bc2|].
  unfold getslice2.
  rewrite (slice_range_within (rows np_img)) by assumption.
  rewrite (slice_range_within (cols np_img)) by assumption.
  split; reflexivity.
Qed.

Lemma tile_within_image_witness :
  exists indices,
    get_tile_indices (blank 300 200 3) 128 128 = Ok indices
    /\ storable indices
    /\ forall r_s r_e c_s c_e, In (r_s, r_e, c_s, c_e) indices ->
         r_e <= rows (blank 300 200 3) /\ c_e <= cols (blank 300 200 3)
         /\ shape (getslice2 (blank 300 200 3) r_s r_e c_s c_e)
            = (r_e - r_s, c_e - c_s, channels (blank 300 200 3))
         /\ forall i j k,
              item (getslice2 (blank 300 200 3) r_s r_e c_s c_e) i j k
              = item (blank 300 200 3) (r_s + i) (c_s + j) k.
Proof.
  destruct (tile_within_image (blank 300 200 3) 128 128) as (indices & Hg & Hin).
  - unfold valid_shape, valid_dim. cbn. lia.
  - lia.
  - lia.
  - assert (Hs : storable indices).
    { vm_compute in Hg. injection Hg as <-. vm_compute. discriminate. }
    exists indices. split; [exact Hg|]. split; [exact Hs|]. exact (Hin Hs).
Defined.

(** ** The list object of the grid indexer *)

Lemma list_append_fresh (h : store) acc t :
  list_append (h ++ [acc]) (List.length h) t = h ++ [acc ++ [t]].
Proof. induction h as [|x h IH]; cbn; [reflexivity|]. rewrite IH. reflexivity. Qed.

Lemma for_range_store {A} n (h : list A) (f : Z -> list A -> list A) (g : Z -> A -> A) acc :
  (forall i a, f i (h ++ [a]) = h ++ [g i a]) ->
  for_range n f (h ++ [acc]) = h ++ [for_range n g acc].
Proof.
  intros H. unfold for_range. generalize (range n). intros l. revert acc.
  induction l as [|x l IH]; intros acc; cbn; [reflexivity|].
  rewrite H. apply IH.
Qed.

(** The object version allocates one new list, leaves the objects of the
    store as they are, and fills the new list with the value of
    [get_tile_indices]. *)
Lemma get_tile_indices_obj_spec h np_img row_tile_size col_tile_size :
  get_tile_indices_obj h np_img row_tile_size col_tile_size
  = (indices <- get_tile_indices np_img row_tile_size col_tile_size ;;
     Ok (List.length h, h ++ [indices])).
Proof.
  unfold get_tile_indices_obj, get_tile_indices, new_list.
  destruct (shape np_img) as [[r c] ch].
  destruct (get_num_tiles np_img row_tile_size col_tile_size) as [[nr nc]|e];
    [|reflexivity].
  cbn [bind]. f_equal. f_equal.
  apply for_range_store. intros i a.
  apply for_range_store. intros j a'.
  apply list_append_fresh.
Qed.

(** C8: [get_tile_indices] is a function of the dimensions of the image and
    of the tile sizes.  Two calls on images of the same shape return the
    same sequence; whatever the store holds when a call is made, the call
    allocates a new list, leaves every other object as it is and returns
    that sequence in the new list. *)
Theorem get_tile_indices_pure h1 h2 np_img1 np_img2 row_tile_size col_tile_size :
  shape np_img1 = shape np_img2 ->
  get_tile_indices np_img1 row_tile_size col_tile_size
  = get_tile_indices np_img2 row_tile_size col_tile_size
  /\ get_tile_indices_obj h1 np_img1 row_tile_size col_tile_size
     = (indices <- get_tile_indices np_img1 row_tile_size col_tile_size ;;
        Ok (List.length h1, h1 ++ [indices]))
  /\ get_tile_indices_obj h2 np_img2 row_tile_size col_tile_size
     = (indices <- get_tile_indices np_img1 row_tile_size col_tile_size ;;
        Ok (List.length h2, h2 ++ [indices])).
Proof.
  intros Hs.
  assert (E : get_tile_indices np_img1 row_tile_size col_tile_size
              = get_tile_indices np_img2 row_tile_size col_tile_size).
  { unfold get_tile_indices, get_num_tiles. rewrite Hs. reflexivity. }
  split; [exact E|]. split; [apply get_tile_indices_obj_spec|].
  rewrite E. apply get_tile_indices_obj_spec.
Qed.

Lemma get_tile_indices_pure_witness :
  get_tile_indices (blank 300 200 3) 128 128
  = get_tile_indices {| shape := (300, 200, 3); item := fun i j k => (i + j + k) mod 256 |}
      128 128
  /\ get_tile_indices_obj [] (blank 300 200 3) 128 128
     = (indices <- get_tile_indices (blank 300 200 3) 128 128 ;;
        Ok (List.length (@nil (list tile)), [] ++ [indices]))
  /\ get_tile_indices_obj [[(0, 1, 0, 1)]]
       {| shape := (300, 200, 3); item := fun i j k => (i + j + k) mod 256 |} 128 128
     = (indices <- get_tile_indices (blank 300 200 3) 128 128 ;;
        Ok (List.length [[(0, 1, 0, 1)]], [[(0, 1, 0, 1)]] ++ [indices])).
Proof.
  apply (get_tile_indices_pure [] [[(0, 1, 0, 1)]] (blank 300 200 3)
           {| shape := (300, 200, 3); item := fun i j k => (i + j + k) mod 256 |} 128 128).
  reflexivity.
Defined.

(** ** The summary canvas *)

Lemma source_index_within n i : 0 <= i < n -> source_index n i = i.
Proof. intros H. unfold source_index. destruct (Z.eqb_spec n 1); lia. Qed.

Lemma summary_canvas_ok np_img row_tile_size col_tile_size nr nc :
  get_num_tiles np_img row_tile_size col_tile_size = Ok (nr, nc) ->
  0 <= nr -> 0 <= nc -> 0 <= channels np_img ->
  rows np_img <= ROW_TILE_SIZE * nr -> cols np_img <= COL_TILE_SIZE * nc ->
  0 <= rows np_img -> 0 <= cols np_img ->
  exists summary_img,
    summary_canvas np_img row_tile_size col_tile_size = Ok summary_img
    /\ shape summary_img = (ROW_TILE_SIZE * nr, COL_TILE_SIZE * nc, channels np_img)
    /\ forall i j k,
         item summary_img i j k
         = if (0 <=? i) && (i <? rows np_img) && (0 <=? j) && (j <? cols np_img)
           then uint8 (item np_img (source_index (rows np_img) i)
                                   (source_index (cols np_img) j)
                                   (source_index (channels np_img) k))
           else 120.
Proof.
  intros Hn Hnr Hnc Hch Hr Hc Hr0 Hc0. unfold summary_canvas. rewrite Hn. cbn [bind].
  destruct np_img as [[[r c] ch] it].
  unfold ROW_TILE_SIZE, COL_TILE_SIZE in *.
  cbn [rows cols channels shape fst snd item] in *.
  unfold zeros.
  destruct (Z.ltb_spec (128 * nr) 0); [lia|].
  destruct (Z.ltb_spec (128 * nc) 0); [lia|].
  destruct (Z.ltb_spec ch 0); [lia|].
  cbn [orb bind]. unfold setslice2, fill.
  cbn [rows cols channels shape fst snd item].
  rewrite (slice_range_within (128 * nr) 0) by lia.
  rewrite (slice_range_within (128 * nc) 0) by lia.
  unfold broadcasts. rewrite !Z.sub_0_r, !Z.eqb_refl. cbn [orb andb].
  eexists. split; [reflexivity|]. split; [reflexivity|].
  intros i j k. cbn [item]. rewrite !Z.sub_0_r. reflexivity.
Qed.

(** C1: the canvas of [display_tile_summary] is sized with the constants
    [ROW_TILE_SIZE] and [COL_TILE_SIZE] of the module, not with the tile
    sizes of the call.  For an image of 256 x 256 pixels and tile sizes of
    256 there is one tile, the canvas is allocated with 128 x 128 pixels and
    the copy of the image into it raises [ValueError]; for an image of
    100 x 100 pixels and tile sizes of 64 the canvas has 256 x 256 pixels,
    where the tile sizes of the call give 128 x 128. *)
Theorem summary_canvas_uses_module_constants :
  (get_num_tiles (blank 256 256 3) 256 256 = Ok (1, 1)
   /\ (c <- zeros (ROW_TILE_SIZE * 1) (COL_TILE_SIZE * 1) 3 ;; Ok (shape c))
      = Ok (128, 128, 3)
   /\ summary_canvas (blank 256 256 3) 256 256 = Raise ValueError
   /\ forall (pil font : Type) (tissue_percent : ndarray -> Q) (np_to_pil : ndarray -> pil)
        (truetype : string -> Z -> result font) c1 c2 c3 c4 text_size font_path w,
        display_tile_summary tissue_percent np_to_pil truetype
          (blank 256 256 3) [(0, 256, 0, 256)] 256 256 c1 c2 c3 c4 text_size font_path w
        = (Raise ValueError, w))
  /\ (get_num_tiles (blank 100 100 3) 64 64 = Ok (2, 2)
      /\ (c <- summary_canvas (blank 100 100 3) 64 64 ;; Ok (shape c)) = Ok (256, 256, 3)
      /\ (64 * 2, 64 * 2, 3) <> (256, 256, 3)).
Proof.
  split; [|split; [vm_compute; reflexivity|split; [vm_compute; reflexivity|discriminate]]].
  split; [vm_compute; reflexivity|]. split; [vm_compute; reflexivity|].
  assert (E : summary_canvas (blank 256 256 3) 256 256 = Raise ValueError)
    by (vm_compute; reflexivity).
  split; [exact E|]. intros. unfold display_tile_summary, bindM, lift. rewrite E. reflexivity.
Qed.

(** On an image whose rows and columns are below [2^53] the tile counts
    are the exact ceilings, the canvas has at least the rows and the
    columns of the image, and the copy of the image into it succeeds. *)
Lemma canvas_holds_exact_image np_img :
  valid_shape np_img -> exact_dim (rows np_img) -> exact_dim (cols np_img) ->
  exists num_row_tiles num_col_tiles summary_img,
    get_num_tiles np_img ROW_TILE_SIZE COL_TILE_SIZE = Ok (num_row_tiles, num_col_tiles)
    /\ rows np_img <= ROW_TILE_SIZE * num_row_tiles
    /\ cols np_img <= COL_TILE_SIZE * num_col_tiles
    /\ summary_canvas np_img ROW_TILE_SIZE COL_TILE_SIZE = Ok summary_img
    /\ shape summary_img
       = (ROW_TILE_SIZE * num_row_tiles, COL_TILE_SIZE * num_col_tiles, channels np_img)
    /\ forall i j k, 0 <= i < rows np_img -> 0 <= j < cols np_img ->
         0 <= k < channels np_img ->
         item summary_img i j k = uint8 (item np_img i j k).
Proof.
  intros (_ & _ & Hch) Hr Hc.
  assert (Hs : exact_size 128) by (split; reflexivity).
  pose proof (get_num_tiles_exact np_img 128 128 Hr Hc Hs Hs) as Hn.
  pose proof (ceil_div_spec (rows np_img) 128 ltac:(lia)) as Cr.
  pose proof (ceil_div_spec (cols np_img) 128 ltac:(lia)) as Cc.
  assert (Hnr : 0 <= ceil_div (rows np_img) 128) by (apply ceil_div_nonneg; [apply Hr|lia]).
  assert (Hnc : 0 <= ceil_div (cols np_img) 128) by (apply ceil_div_nonneg; [apply Hc|lia]).
  set (nr := ceil_div (rows np_img) 128) in *.
  set (nc := ceil_div (cols np_img) 128) in *.
  destruct (summary_canvas_ok np_img 128 128 nr nc Hn Hnr Hnc (proj1 Hch))
    as (summary_img & Hok & Hsh & Hit);
    try (unfold ROW_TILE_SIZE, COL_TILE_SIZE; lia); try apply Hr; try apply Hc.
  exists nr, nc, summary_img.
  split; [exact Hn|]. split; [unfold ROW_TILE_SIZE; lia|].
  split; [unfold COL_TILE_SIZE; lia|]. split; [exact Hok|]. split; [exact Hsh|].
  intros i j k Hi Hj Hk. rewrite Hit.
  destruct (Z.leb_spec 0 i); [|lia]. destruct (Z.ltb_spec i (rows np_img)); [|lia].
  destruct (Z.leb_spec 0 j); [|lia]. destruct (Z.ltb_spec j (cols np_img)); [|lia].
  cbn [andb]. rewrite !source_index_within by assumption. reflexivity.
Qed.

(** The number of bands of 128 pixels on an axis with a pixel is positive,
    and below [2^46] only on an axis of fewer than [2^53] pixels. *)
Lemma bands_of_128 a n :
  valid_dim a -> 0 < a ->
  (q <- int_truediv a 128 ;; math_ceil q) = Ok n ->
  1 <= n /\ (n < 2 ^ 46 -> exact_dim a).
Proof.
  intros Ha Hp Hn.
  destruct (Z_lt_le_dec a (2 ^ 53)) as [Hlt|Hge].
  - assert (Hx : exact_dim a) by (unfold exact_dim; lia).
    assert (Hs : exact_size 128) by (split; reflexivity).
    rewrite (ceil_truediv_exact a 128 Hx Hs) in Hn. injection Hn as <-.
    pose proof (ceil_div_spec a 128 ltac:(lia)). split; [lia|]. intros _. exact Hx.
  - pose proof (ceil_truediv_128_large a n Ha Hge Hn) as H.
    change (2 ^ 46) with 70368744177664 in *. split; [lia|]. intros; lia.
Qed.

(** The two conditions of the statement below cannot be dropped in the
    embedding: an array of [2^60 + 128] rows and no column has its
    quotient [2^53 + 1] rounded to [2^53] and a canvas of fewer rows; and
    for [2^53 + 1] rows of one byte the quotient is rounded to [2^46] and
    the canvas, of exactly [2^60] bytes, has one row less than the image. *)
Lemma canvas_conditions_needed :
  (get_num_tiles (blank (2 ^ 60 + 128) 0 3) ROW_TILE_SIZE COL_TILE_SIZE = Ok (2 ^ 53, 0)
   /\ ~ (rows (blank (2 ^ 60 + 128) 0 3) <= ROW_TILE_SIZE * 2 ^ 53))
  /\ (get_num_tiles (blank (2 ^ 53 + 1) 1 1) ROW_TILE_SIZE COL_TILE_SIZE = Ok (2 ^ 46, 1)
      /\ ROW_TILE_SIZE * 2 ^ 46 * (COL_TILE_SIZE * 1) * 1 = 2 ^ 60
      /\ ~ (rows (blank (2 ^ 53 + 1) 1 1) <= ROW_TILE_SIZE * 2 ^ 46)).
Proof.
  split; [split|split; [|split]]; vm_compute; try reflexivity;
    intros H; apply H; reflexivity.
Qed.

(** C10: for an image with at least one pixel, rendered with the tile sizes
    [ROW_TILE_SIZE] and [COL_TILE_SIZE] of the module, the tile counts are
    computed, and when the canvas of [ROW_TILE_SIZE * num_row_tiles] by
    [COL_TILE_SIZE * num_col_tiles] pixels is one that can be allocated, it
    has at least the rows and the columns of the image, the copy of the
    image into its origin does not raise, and the canvas then holds the
    pixels of the image at the coordinates of the image. *)
Theorem canvas_holds_image np_img :
  valid_shape np_img ->
  0 < rows np_img -> 0 < cols np_img -> 0 < channels np_img ->
  exists num_row_tiles num_col_tiles,
    get_num_tiles np_img ROW_TILE_SIZE COL_TILE_SIZE = Ok (num_row_tiles, num_col_tiles)
    /\ (allocatable (ROW_TILE_SIZE * num_row_tiles) (COL_TILE_SIZE * num_col_tiles)
                    (channels np_img) ->
        rows np_img <= ROW_TILE_SIZE * num_row_tiles
        /\ cols np_img <= COL_TILE_SIZE * num_col_tiles
        /\ exists summary_img,
             summary_canvas np_img ROW_TILE_SIZE COL_TILE_SIZE = Ok summary_img
             /\ shape summary_img
                = (ROW_TILE_SIZE * num_row_tiles, COL_TILE_SIZE * num_col_tiles,
                   channels np_img)
             /\ forall i j k, 0 <= i < rows np_img -> 0 <= j < cols np_img ->
                  0 <= k < channels np_img ->
                  item summary_img i j k = uint8 (item np_img i j k)).
Proof.
  intros Hv Hr0 Hc0 Hch0.
  destruct (get_num_tiles_total np_img ROW_TILE_SIZE COL_TILE_SIZE Hv)
    as (nr & nc & Hn & _ & _); [reflexivity|reflexivity|].
  exists nr, nc. split; [exact Hn|]. intros Hal.
  destruct (get_num_tiles_inv _ _ _ _ _ Hn) as [Er Ec].
  destruct Hv as (Hr & Hc & Hch).
  destruct (bands_of_128 _ _ Hr Hr0 Er) as [Hnr Xr].
  destruct (bands_of_128 _ _ Hc Hc0 Ec) as [Hnc Xc].
  unfold allocatable, ROW_TILE_SIZE, COL_TILE_SIZE in Hal.
  assert (Hm : 1 <= nc * channels np_img).
  { assert (1 * 1 <= nc * channels np_img) by (apply Z.mul_le_mono_nonneg; lia). lia. }
  assert (Hm' : 1 <= nr * channels np_img).
  { assert (1 * 1 <= nr * channels np_img) by (apply Z.mul_le_mono_nonneg; lia). lia. }
  assert (H1 : 16384 * (nr * 1) <= 16384 * (nr * (nc * channels np_img))).
  { apply Z.mul_le_mono_nonneg_l; [lia|]. apply Z.mul_le_mono_nonneg_l; lia. }
  assert (H2 : 16384 * (nc * 1) <= 16384 * (nc * (nr * channels np_img))).
  { apply Z.mul_le_mono_nonneg_l; [lia|]. apply Z.mul_le_mono_nonneg_l; lia. }
  assert (E1 : 128 * nr * (128 * nc) * channels np_img
               = 16384 * (nr * (nc * channels np_img))) by ring.
  assert (E2 : 128 * nr * (128 * nc) * channels np_img
               = 16384 * (nc * (nr * channels np_img))) by ring.
  change (2 ^ 60) with (16384 * 2 ^ 46) in Hal.
  assert (Lr : nr < 2 ^ 46) by (change (2 ^ 46) with 70368744177664 in *; lia).
  assert (Lc : nc < 2 ^ 46) by (change (2 ^ 46) with 70368744177664 in *; lia).
  destruct (canvas_holds_exact_image np_img (conj Hr (conj Hc Hch)) (Xr Lr) (Xc Lc))
    as (nr' & nc' & summary_img & Hn' & Br & Bc & Hok & Hsh & Hit).
  rewrite Hn in Hn'. injection Hn' as <- <-.
  split; [exact Br|]. split; [exact Bc|].
  exists summary_img. split; [exact Hok|]. split; [exact Hsh|exact Hit].
Qed.

Lemma canvas_holds_image_witness :
  exists num_row_tiles num_col_tiles,
    get_num_tiles (blank 300 200 3) ROW_TILE_SIZE COL_TILE_SIZE
    = Ok (num_row_tiles, num_col_tiles)
    /\ allocatable (ROW_TILE_SIZE * num_row_tiles) (COL_TILE_SIZE * num_col_tiles)
                   (channels (blank 300 200 3))
    /\ rows (blank 300 200 3) <= ROW_TILE_SIZE * num_row_tiles
    /\ cols (blank 300 200 3) <= COL_TILE_SIZE * num_col_tiles
    /\ exists summary_img,
         summary_canvas (blank 300 200 3) ROW_TILE_SIZE COL_TILE_SIZE = Ok summary_img
         /\ shape summary_img
            = (ROW_TILE_SIZE * num_row_tiles, COL_TILE_SIZE * num_col_tiles,
               channels (blank 300 200 3))
         /\ forall i j k, 0 <= i < rows (blank 300 200 3) ->
              0 <= j < cols (blank 300 200 3) -> 0 <= k < channels (blank 300 200 3) ->
              item summary_img i j k = uint8 (item (blank 300 200 3) i j k).
Proof.
  destruct (canvas_holds_image (blank 300 200 3)) as (nr & nc & Hn & Himp).
  - unfold valid_shape, valid_dim. cbn. lia.
  - reflexivity.
  - reflexivity.
  - reflexivity.
  - assert (Ha : allocatable (ROW_TILE_SIZE * nr) (COL_TILE_SIZE * nc)
                   (channels (blank 300 200 3))).
    { vm_compute in Hn. injection Hn as <- <-. vm_compute. reflexivity. }
    exists nr, nc. split; [exact Hn|]. split; [exact Ha|]. exact (Himp Ha).
Defined.

(** ** Formatting *)

Lemma string_length_append s1 s2 :
  String.length (s1 ++ s2)%string = (String.length s1 + String.length s2)%nat.
Proof. induction s1 as [|a s1 IH]; cbn; [reflexivity|]. rewrite IH. reflexivity. Qed.

Lemma format_d_length n : (1 <= String.length (format_d n))%nat.
Proof.
  unfold format_d. destruct (Z.to_int n) as [d|d]; cbn; destruct d; cbn; lia.
Qed.

Lemma round_half_even_near x :
  (inject_Z (round_half_even x) - (1 # 2) <= x <= inject_Z (round_half_even x) + (1 # 2))%Q.
Proof.
  unfold round_half_even.
  pose proof (Qfloor_le x) as H1. pose proof (Qlt_floor x) as H2.
  rewrite inject_Z_plus in H2. change (inject_Z 1) with 1%Q in H2.
  destruct (x - inject_Z (Qfloor x) ?= 1 # 2)%Q eqn:E.
  - apply Qeq_alt in E.
    destruct (Z.even (Qfloor x)); rewrite ?inject_Z_plus; change (inject_Z 1) with 1%Q; lra.
  - apply Qlt_alt in E. lra.
  - apply Qgt_alt in E. rewrite inject_Z_plus. change (inject_Z 1) with 1%Q. lra.
Qed.

Lemma round_half_even_nonneg x : (0 <= x)%Q -> 0 <= round_half_even x.
Proof.
  intros Hx. unfold round_half_even.
  assert (0 <= Qfloor x).
  { change 0 with (Qfloor 0). apply Qfloor_resp_le. exact Hx. }
  destruct (x - inject_Z (Qfloor x) ?= 1 # 2)%Q; try destruct (Z.even (Qfloor x)); lia.
Qed.

Lemma hundredths_nonneg p : 0 <= hundredths p.
Proof.
  apply round_half_even_nonneg.
  pose proof (Qabs_nonneg p).
  apply Qmult_le_0_compat; [assumption|]. discriminate.
Qed.

Lemma low_digits n :
  (n mod 100 / 10) mod 10 = n / 10 mod 10 /\ (n mod 100 / 1) mod 10 = n mod 10.
Proof. split; Z.to_euclidean_division_equations; lia. Qed.

(** [%4.2f] never pads: the text has a digit, the point and two digits. *)
Lemma format_f_two_decimals p : format_f 4 2 p = two_decimals p.
Proof.
  unfold format_f, two_decimals. change (10 ^ Z.of_nat 2) with 100.
  fold (hundredths p). set (n := hundredths p).
  cbn [frac_digits]. change (10 ^ Z.of_nat 1) with 10. change (10 ^ Z.of_nat 0) with 1.
  destruct (low_digits n) as [-> ->].
  unfold pad_left.
  match goal with |- (spaces (4 - String.length ?s) ++ _)%string = _ =>
    assert (L : (4 <= String.length s)%nat) end.
  { rewrite !string_length_append. cbn [String.length].
    pose proof (format_d_length (n / 100)). lia. }
  replace (4 - _)%nat with 0%nat by lia. reflexivity.
Qed.

Lemma Qltb_lt x y : Qltb x y = true <-> (x < y)%Q.
Proof.
  unfold Qltb. rewrite Qlt_alt. destruct (x ?= y)%Q; split; congruence.
Qed.

Lemma nth_error_numbered l : forall count k t,
  nth_error l k = Some t -> nth_error (numbered count l) k = Some (count + Z.of_nat k + 1, t).
Proof.
  induction l as [|x l IH]; intros count k t H; [destruct k; discriminate|].
  destruct k as [|k]; cbn in *.
  - injection H as ->. f_equal. f_equal. lia.
  - rewrite (IH (count + 1) k t H). f_equal. f_equal. lia.
Qed.

(** ** The summary renderer *)

Lemma first_undrawable (l : list tile) :
  forallb drawable l = false ->
  exists pre t post,
    l = pre ++ t :: post /\ forallb drawable pre = true /\ drawable t = false.
Proof.
  induction l as [|x l IH]; cbn [forallb]; [discriminate|].
  destruct (drawable x) eqn:Ex; cbn [andb].
  - intros H. destruct (IH H) as (pre & t & post & -> & Hp & Ht).
    exists (x :: pre), t, post. cbn [forallb app]. rewrite Ex, Hp. repeat split. exact Ht.
  - intros _. exists [], x, l. repeat split. exact Ex.
Qed.

Section RendererProofs.
Variables pil font : Type.
Variable tissue_percent : ndarray -> Q.
Variable np_to_pil : ndarray -> pil.
Variable truetype : string -> Z -> result font.
Variable np_img : ndarray.
Variables thresh_color below_thresh_color no_tissue_color text_color : color.
Variable text_size : Z.
Variable font_path : string.

Let step : Z * image pil font -> tile -> M pil font (Z * image pil font) :=
  summarize_tile tissue_percent truetype np_img thresh_color below_thresh_color
    no_tissue_color text_color text_size font_path.
Let strokes_of : Z -> tile -> font -> list (draw_call font) :=
  fun count t f =>
    tile_strokes font tissue_percent np_img thresh_color below_thresh_color
      no_tissue_color text_color f count t.
Let log_of : tile -> string :=
  fun t => tile_log t (tile_percentage tissue_percent np_img t).

(** The two rectangles of a tile are drawn exactly when the tile is
    drawable; otherwise one of them raises. *)
Lemma rectangles_spec (summary : image pil font) r_s r_e c_s c_e outline
    (w : world pil font) :
  bindM (rectangle summary c_s r_s (c_e - 1) (r_e - 1) outline)
    (fun summary => rectangle summary (c_s + 1) (r_s + 1) (c_e - 2) (r_e - 2) outline) w
  = (if drawable (r_s, r_e, c_s, c_e)
     then Ok {| base := base summary;
                strokes := strokes summary
                           ++ tile_rectangles font (r_s, r_e, c_s, c_e) outline |}
     else Raise ValueError, w).
Proof.
  unfold bindM, rectangle, lift, ret, draw, drawable, tile_rectangles.
  destruct (Z.ltb_spec (c_e - 1) c_s); destruct (Z.ltb_spec (r_e - 1) r_s);
    destruct (Z.leb_spec (r_s + 3) r_e); destruct (Z.leb_spec (c_s + 3) c_e);
    cbn [orb andb]; try lia; try reflexivity;
    destruct (Z.ltb_spec (c_e - 2) (c_s + 1)); destruct (Z.ltb_spec (r_e - 2) (r_s + 1));
    cbn [orb andb base strokes]; try lia; try reflexivity.
  rewrite <- app_assoc. reflexivity.
Qed.

(** One turn of the loop: the line of the tile is printed; then the
    rectangles are drawn, the font is loaded and the label is drawn, unless
    a rectangle or the font raises. *)
Lemma summarize_tile_spec count summary t w :
  step (count, summary) t w
  = (if drawable t then
       match truetype font_path text_size with
       | Ok f => Ok (count + 1,
                     {| base := base summary;
                        strokes := strokes summary ++ strokes_of (count + 1) t f |})
       | Raise e => Raise e
       end
     else Raise ValueError,
     {| stdout := stdout w ++ [log_of t]; viewer := viewer w |}).
Proof.
  unfold step, summarize_tile, strokes_of, tile_strokes, log_of.
  destruct t as [[[r_s r_e] c_s] c_e].
  unfold bindM at 1. unfold print. unfold bindM at 1. unfold tile_percentage.
  unfold outline_of.
  destruct (Qle_bool _ _); [|destruct (_ && _)]; rewrite rectangles_spec;
    (destruct (drawable (r_s, r_e, c_s, c_e)); [|reflexivity]);
    unfold bindM, load_font, lift, text, ret, draw, tile_text;
    (destruct (truetype font_path text_size); [|reflexivity]);
    cbn [base strokes]; rewrite <- !app_assoc; reflexivity.
Qed.

Lemma for_each_summarize_ok f tiles : forall count summary w,
  truetype font_path text_size = Ok f ->
  forallb drawable tiles = true ->
  for_each tiles step (count, summary) w
  = (Ok (count + Z.of_nat (List.length tiles),
         {| base := base summary;
            strokes := strokes summary
                       ++ flat_map (fun ct => strokes_of (fst ct) (snd ct) f)
                            (numbered count tiles) |}),
     {| stdout := stdout w ++ map log_of tiles; viewer := viewer w |}).
Proof.
  induction tiles as [|t tiles IH]; intros count summary w Hf Hd.
  - cbn. rewrite Z.add_0_r, !app_nil_r. destruct summary, w. reflexivity.
  - cbn [forallb] in Hd. apply andb_prop in Hd. destruct Hd as [Ht Hd].
    cbn [for_each]. unfold bindM at 1. rewrite summarize_tile_spec, Ht, Hf.
    rewrite IH by assumption. cbn [base strokes stdout viewer numbered flat_map fst snd map].
    rewrite <- !app_assoc. cbn [List.length app].
    replace (count + 1 + Z.of_nat (List.length tiles))
      with (count + Z.of_nat (S (List.length tiles))) by lia.
    reflexivity.
Qed.

(** The loop stops at the first tile that is not drawable. *)
Lemma for_each_summarize_stop f pre t post count summary w :
  truetype font_path text_size = Ok f ->
  forallb drawable pre = true -> drawable t = false ->
  for_each (pre ++ t :: post) step (count, summary) w
  = (Raise ValueError,
     {| stdout := stdout w ++ map log_of (pre ++ [t]); viewer := viewer w |}).
Proof.
  intros Hf. revert count summary w.
  induction pre as [|x pre IH]; intros count summary w Hd Ht.
  - cbn [app for_each]. unfold bindM at 1. rewrite summarize_tile_spec, Ht. reflexivity.
  - cbn [forallb] in Hd. apply andb_prop in Hd. destruct Hd as [Hx Hd].
    cbn [app for_each]. unfold bindM at 1. rewrite summarize_tile_spec, Hx, Hf.
    rewrite IH by assumption. cbn [stdout viewer map]. rewrite <- !app_assoc. reflexivity.
Qed.

Lemma display_tile_summary_ok f summary_img tile_indices row_tile_size col_tile_size
    (w : world pil font) :
  summary_canvas np_img row_tile_size col_tile_size = Ok summary_img ->
  truetype font_path text_size = Ok f ->
  forallb drawable tile_indices = true ->
  display_tile_summary tissue_percent np_to_pil truetype np_img tile_indices
    row_tile_size col_tile_size thresh_color below_thresh_color no_tissue_color
    text_color text_size font_path w
  = (Ok tt,
     {| stdout := stdout w
                  ++ map (fun t => tile_log t (tile_percentage tissue_percent np_img t))
                       tile_indices;
        viewer := viewer w
                  ++ [{| base := np_to_pil summary_img;
                         strokes :=
                           flat_map (fun ct =>
                             tile_strokes font tissue_percent np_img thresh_color
                               below_thresh_color no_tissue_color text_color f
                               (fst ct) (snd ct))
                             (numbered 0 tile_indices) |}] |}).
Proof.
  intros Hc Hf Hd.
  unfold display_tile_summary. unfold bindM at 1. unfold lift. rewrite Hc.
  unfold bindM. fold step. rewrite (for_each_summarize_ok f) by assumption.
  reflexivity.
Qed.

Lemma display_tile_summary_stop f summary_img pre t post row_tile_size col_tile_size
    (w : world pil font) :
  summary_canvas np_img row_tile_size col_tile_size = Ok summary_img ->
  truetype font_path text_size = Ok f ->
  forallb drawable pre = true -> drawable t = false ->
  display_tile_summary tissue_percent np_to_pil truetype np_img (pre ++ t :: post)
    row_tile_size col_tile_size thresh_color below_thresh_color no_tissue_color
    text_color text_size font_path w
  = (Raise ValueError,
     {| stdout := stdout w
                  ++ map (fun t => tile_log t (tile_percentage tissue_percent np_img t))
                       (pre ++ [t]);
        viewer := viewer w |}).
Proof.
  intros Hc Hf Hd Ht.
  unfold display_tile_summary. unfold bindM at 1. unfold lift. rewrite Hc.
  unfold bindM. fold step. rewrite (for_each_summarize_stop f) by assumption.
  reflexivity.
Qed.

(** C5: for a tissue percentage [p] in [[0, 100]], the loop body outlines
    the tile in one colour: [thresh_color] when
    [p >= TISSUE_THRESHOLD_PERCENT] (the threshold included),
    [below_thresh_color] when [0 < p < TISSUE_THRESHOLD_PERCENT] and
    [no_tissue_color] when [p == 0]; exactly one of the three cases holds.
    Both rectangles of the tile are drawn in that colour, when the tile is
    one on which they can be drawn; on a tile of fewer than three rows or
    columns a rectangle raises [ValueError] after the line of the tile was
    printed. *)
Theorem tile_outline_classification count (summary : image pil font) t
    (w : world pil font) :
  let p := tile_percentage tissue_percent np_img t in
  let threshold := inject_Z TISSUE_THRESHOLD_PERCENT in
  (0 <= p <= 100)%Q ->
  exists outline,
    summarize_tile tissue_percent truetype np_img thresh_color below_thresh_color
      no_tissue_color text_color text_size font_path (count, summary) t w
    = (if drawable t then
         match truetype font_path text_size with
         | Ok f =>
             Ok (count + 1,
                 {| base := base summary;
                    strokes := strokes summary ++ tile_rectangles font t outline
                               ++ [tile_text font t (tile_label (count + 1) p)
                                     text_color f] |})
         | Raise e => Raise e
         end
       else Raise ValueError,
       {| stdout := stdout w ++ [tile_log t p]; viewer := viewer w |})
    /\ ((threshold <= p)%Q -> outline = thresh_color)
    /\ ((0 < p < threshold)%Q -> outline = below_thresh_color)
    /\ ((p == 0)%Q -> outline = no_tissue_color)
    /\ (((threshold <= p)%Q /\ ~ (0 < p < threshold)%Q /\ ~ (p == 0)%Q)
        \/ (~ (threshold <= p)%Q /\ (0 < p < threshold)%Q /\ ~ (p == 0)%Q)
        \/ (~ (threshold <= p)%Q /\ ~ (0 < p < threshold)%Q /\ (p == 0)%Q)).
Proof.
  intros p threshold Hp.
  exists (outline_of p thresh_color below_thresh_color no_tissue_color).
  split; [apply summarize_tile_spec|].
  unfold outline_of. fold threshold.
  assert (Ht : (threshold == 50)%Q) by reflexivity.
  destruct (Qle_bool threshold p) eqn:E1.
  - apply Qle_bool_iff in E1.
    split; [reflexivity|]. split; [intros; lra|]. split; [intros; lra|].
    left. split; [assumption|]. split; intros H; lra.
  - assert (N1 : ~ (threshold <= p)%Q).
    { intros H. apply Qle_bool_iff in H. congruence. }
    destruct (Qltb 0 p) eqn:E2; [destruct (Qltb p threshold) eqn:E3|]; cbn [andb].
    + apply Qltb_lt in E2. apply Qltb_lt in E3.
      split; [intros; contradiction|]. split; [reflexivity|]. split; [intros; lra|].
      right; left. split; [assumption|]. split; [split; assumption|]. intros H; lra.
    + exfalso. apply N1. apply Qnot_lt_le. intros H. apply Qltb_lt in H. congruence.
    + assert (N2 : ~ (0 < p)%Q) by (intros H; apply Qltb_lt in H; congruence).
      split; [intros; contradiction|]. split; [intros; lra|]. split; [reflexivity|].
      right; right. split; [assumption|]. split; [intros H; lra|]. lra.
Qed.

End RendererProofs.

Lemma tile_outline_classification_witness :
  let p := tile_percentage half_tissue (blank 300 200 3) (0, 128, 0, 128) in
  let threshold := inject_Z TISSUE_THRESHOLD_PERCENT in
  exists outline,
    summarize_tile half_tissue any_font (blank 300 200 3) default_thresh_color
      default_below_thresh_color default_no_tissue_color default_text_color
      default_text_size default_font_path (0, empty_summary) (0, 128, 0, 128) no_output
    = (if drawable (0, 128, 0, 128) then
         match any_font default_font_path default_text_size with
         | Ok f =>
             Ok (0 + 1,
                 {| base := base empty_summary;
                    strokes := strokes empty_summary
                               ++ tile_rectangles unit (0, 128, 0, 128) outline
                               ++ [tile_text unit (0, 128, 0, 128) (tile_label (0 + 1) p)
                                     default_text_color f] |})
         | Raise e => Raise e
         end
       else Raise ValueError,
       {| stdout := stdout no_output ++ [tile_log (0, 128, 0, 128) p];
          viewer := viewer no_output |})
    /\ ((threshold <= p)%Q -> outline = default_thresh_color)
    /\ ((0 < p < threshold)%Q -> outline = default_below_thresh_color)
    /\ ((p == 0)%Q -> outline = default_no_tissue_color)
    /\ (((threshold <= p)%Q /\ ~ (0 < p < threshold)%Q /\ ~ (p == 0)%Q)
        \/ (~ (threshold <= p)%Q /\ (0 < p < threshold)%Q /\ ~ (p == 0)%Q)
        \/ (~ (threshold <= p)%Q /\ ~ (0 < p < threshold)%Q /\ (p == 0)%Q)).
Proof.
  apply (tile_outline_classification unit unit half_tissue any_font (blank 300 200 3)
           default_thresh_color default_below_thresh_color default_no_tissue_color
           default_text_color default_text_size default_font_path 0 empty_summary
           (0, 128, 0, 128) no_output).
  split; vm_compute; discriminate.
Defined.

(** C9: the label of a tile is drawn after its two rectangles, and the
    inner rectangle cannot be drawn on a tile of fewer than three rows or
    columns.  An image of 129 x 128 pixels has the tiles [(0, 128, 0, 128)]
    and [(128, 129, 0, 128)]; on the second one the inner rectangle
    [[(1, 129), (126, 127)]] ends above its start and [draw.rectangle]
    raises [ValueError]: the call prints the lines of both tiles and stops,
    the label [#2] is not drawn and no image is displayed. *)
Theorem thin_tile_stops_labels (pil font : Type) (tissue_percent : ndarray -> Q)
    (np_to_pil : ndarray -> pil) (truetype : string -> Z -> result font)
    c1 c2 c3 c4 text_size font_path f (summary : image pil font) (w : world pil font) :
  truetype font_path text_size = Ok f ->
  get_tile_indices (blank 129 128 3) ROW_TILE_SIZE COL_TILE_SIZE
  = Ok [(0, 128, 0, 128); (128, 129, 0, 128)]
  /\ rectangle summary (0 + 1) (128 + 1) (128 - 2) (129 - 2) c1 w = (Raise ValueError, w)
  /\ display_tile_summary tissue_percent np_to_pil truetype (blank 129 128 3)
       [(0, 128, 0, 128); (128, 129, 0, 128)] ROW_TILE_SIZE COL_TILE_SIZE
       c1 c2 c3 c4 text_size font_path w
     = (Raise ValueError,
        {| stdout := stdout w
                     ++ [tile_log (0, 128, 0, 128)
                           (tile_percentage tissue_percent (blank 129 128 3)
                              (0, 128, 0, 128));
                         tile_log (128, 129, 0, 128)
                           (tile_percentage tissue_percent (blank 129 128 3)
                              (128, 129, 0, 128))];
           viewer := viewer w |}).
Proof.
  intros Hf. split; [vm_compute; reflexivity|]. split; [reflexivity|].
  apply (display_tile_summary_stop pil font tissue_percent np_to_pil truetype
           (blank 129 128 3) c1 c2 c3 c4 text_size font_path f
           (canvas_of (blank 129 128 3) 128 128) [(0, 128, 0, 128)] (128, 129, 0, 128) []).
  - vm_compute. reflexivity.
  - exact Hf.
  - reflexivity.
  - reflexivity.
Qed.

Lemma thin_tile_stops_labels_witness :
  get_tile_indices (blank 129 128 3) ROW_TILE_SIZE COL_TILE_SIZE
  = Ok [(0, 128, 0, 128); (128, 129, 0, 128)]
  /\ rectangle empty_summary (0 + 1) (128 + 1) (128 - 2) (129 - 2) default_thresh_color
       no_output
     = (Raise ValueError, no_output)
  /\ display_tile_summary half_tissue as_pil any_font (blank 129 128 3)
       [(0, 128, 0, 128); (128, 129, 0, 128)] ROW_TILE_SIZE COL_TILE_SIZE
       default_thresh_color default_below_thresh_color default_no_tissue_color
       default_text_color default_text_size default_font_path no_output
     = (Raise ValueError,
        {| stdout := stdout no_output
                     ++ [tile_log (0, 128, 0, 128)
                           (tile_percentage half_tissue (blank 129 128 3) (0, 128, 0, 128));
                         tile_log (128, 129, 0, 128)
                           (tile_percentage half_tissue (blank 129 128 3)
                              (128, 129, 0, 128))];
           viewer := viewer no_output |}).
Proof.
  apply (thin_tile_stops_labels unit unit half_tissue as_pil any_font
           default_thresh_color default_below_thresh_color default_no_tissue_color
           default_text_color default_text_size default_font_path tt empty_summary
           no_output).
  reflexivity.
Defined.


(** ** Edge cases of the grid indexer *)

Lemma ceil_truediv_by_zero a : (q <- int_truediv a 0 ;; math_ceil q) = Raise ZeroDivisionError.
Proof. reflexivity. Qed.

Lemma ceil_truediv_of_zero b : b <> 0 -> (q <- int_truediv 0 b ;; math_ceil q) = Ok 0.
Proof. intros Hb. unfold int_truediv. destruct b; [contradiction| |]; reflexivity. Qed.

(** A tile size of zero raises [ZeroDivisionError], in the grid indexer and
    in the renderer, which then prints and displays nothing; for the column
    tile size this is so when the row quotient is computed first without
    error, as it is for every image and positive row tile size. *)
Theorem zero_tile_size_raises np_img row_tile_size col_tile_size :
  valid_shape np_img ->
  row_tile_size = 0 \/ (0 < row_tile_size /\ col_tile_size = 0) ->
  get_num_tiles np_img row_tile_size col_tile_size = Raise ZeroDivisionError
  /\ get_tile_indices np_img row_tile_size col_tile_size = Raise ZeroDivisionError
  /\ forall (pil font : Type) (tissue_percent : ndarray -> Q) (np_to_pil : ndarray -> pil)
       (truetype : string -> Z -> result font) tile_indices c1 c2 c3 c4 text_size font_path
       (w : world pil font),
       display_tile_summary tissue_percent np_to_pil truetype np_img tile_indices
         row_tile_size col_tile_size c1 c2 c3 c4 text_size font_path w
       = (Raise ZeroDivisionError, w).
Proof.
  intros Hv Hz.
  assert (E : get_num_tiles np_img row_tile_size col_tile_size = Raise ZeroDivisionError).
  { unfold get_num_tiles. destruct Hv as (Hr & _ & _).
    destruct np_img as [[[r c] ch] it]. cbn [shape rows fst snd] in *.
    destruct Hz as [->|[Hrs ->]].
    - reflexivity.
    - destruct (ceil_truediv_total r _ Hr Hrs) as (nr & -> & _). reflexivity. }
  split; [exact E|]. split.
  - unfold get_tile_indices. rewrite E. destruct (shape np_img) as [[r c] ch]. reflexivity.
  - intros. unfold display_tile_summary, summary_canvas, bindM, lift. rewrite E. reflexivity.
Qed.

Lemma zero_tile_size_raises_witness :
  get_num_tiles (blank 300 200 3) 128 0 = Raise ZeroDivisionError
  /\ get_tile_indices (blank 300 200 3) 128 0 = Raise ZeroDivisionError
  /\ forall (pil font : Type) (tissue_percent : ndarray -> Q) (np_to_pil : ndarray -> pil)
       (truetype : string -> Z -> result font) tile_indices c1 c2 c3 c4 text_size font_path
       (w : world pil font),
       display_tile_summary tissue_percent np_to_pil truetype (blank 300 200 3) tile_indices
         128 0 c1 c2 c3 c4 text_size font_path w
       = (Raise ZeroDivisionError, w).
Proof.
  apply (zero_tile_size_raises (blank 300 200 3) 128 0).
  - unfold valid_shape, valid_dim. cbn. lia.
  - right. lia.
Defined.

(** An image without rows or without columns has no tiles, whatever the
    positive tile sizes. *)
Theorem empty_image_no_tiles np_img row_tile_size col_tile_size :
  valid_shape np_img -> 0 < row_tile_size -> 0 < col_tile_size ->
  rows np_img = 0 \/ cols np_img = 0 ->
  get_tile_indices np_img row_tile_size col_tile_size = Ok [].
Proof.
  intros Hv Hrs Hcs He.
  destruct (get_num_tiles_total np_img _ _ Hv Hrs Hcs) as (nr & nc & Hn & Hnr & Hnc).
  rewrite (get_tile_indices_grid _ _ _ nr nc Hn). f_equal.
  apply length_zero_iff_nil. rewrite grid_length.
  assert (Hz : nr = 0 \/ nc = 0).
  { unfold get_num_tiles in Hn. destruct np_img as [[[r c] ch] it].
    cbn [shape rows cols fst snd] in *. destruct He as [-> | ->].
    - rewrite ceil_truediv_of_zero in Hn by lia. cbn [bind] in Hn.
      destruct (q <- int_truediv c col_tile_size ;; math_ceil q); [|discriminate].
      cbn in Hn. injection Hn as <- _. left; reflexivity.
    - destruct (q <- int_truediv r row_tile_size ;; math_ceil q); [|discriminate].
      cbn [bind] in Hn. rewrite ceil_truediv_of_zero in Hn by lia.
      cbn in Hn. injection Hn as _ <-. right; reflexivity. }
  destruct Hz as [-> | ->]; lia.
Qed.

Lemma empty_image_no_tiles_witness : get_tile_indices (blank 0 200 3) 128 128 = Ok [].
Proof.
  apply (empty_image_no_tiles (blank 0 200 3) 128 128).
  - unfold valid_shape, valid_dim. cbn. lia.
  - lia.
  - lia.
  - left. reflexivity.
Defined.

(** An image that fits in one tile (in the range where the tile counts are
    exact) has the single tile of its own bounds. *)
Theorem image_within_one_tile np_img row_tile_size col_tile_size :
  exact_dim (rows np_img) -> exact_dim (cols np_img) ->
  exact_size row_tile_size -> exact_size col_tile_size ->
  0 < rows np_img <= row_tile_size -> 0 < cols np_img <= col_tile_size ->
  get_tile_indices np_img row_tile_size col_tile_size
  = Ok [(0, rows np_img, 0, cols np_img)].
Proof.
  intros Hr Hc Hrs Hcs H1 H2.
  rewrite (get_tile_indices_exact _ _ _ Hr Hc Hrs Hcs).
  rewrite (ceil_div_unique (rows np_img) row_tile_size 1) by lia.
  rewrite (ceil_div_unique (cols np_img) col_tile_size 1) by lia.
  reflexivity.
Qed.

Lemma image_within_one_tile_witness :
  get_tile_indices (blank 100 80 3) 128 128
  = Ok [(0, rows (blank 100 80 3), 0, cols (blank 100 80 3))].
Proof.
  apply (image_within_one_tile (blank 100 80 3) 128 128);
    unfold exact_dim, exact_size; cbn; split; reflexivity || (vm_compute; discriminate).
Defined.

(** In the range where the tile counts are exact no tile is empty: every
    tile starts at a non-negative row and column and ends after it starts. *)
Theorem tiles_not_empty np_img row_tile_size col_tile_size :
  exact_dim (rows np_img) -> exact_dim (cols np_img) ->
  exact_size row_tile_size -> exact_size col_tile_size ->
  exists indices,
    get_tile_indices np_img row_tile_size col_tile_size = Ok indices
    /\ forall r_s r_e c_s c_e, In (r_s, r_e, c_s, c_e) indices ->
         0 <= r_s < r_e /\ 0 <= c_s < c_e.
Proof.
  intros Hr Hc Hrs Hcs.
  pose proof (ceil_div_spec (rows np_img) row_tile_size (proj1 Hrs)) as Cr.
  pose proof (ceil_div_spec (cols np_img) col_tile_size (proj1 Hcs)) as Cc.
  pose proof (get_tile_indices_exact _ _ _ Hr Hc Hrs Hcs) as Hg.
  destruct Hrs as [Hrs _]. destruct Hcs as [Hcs _].
  eexists. split; [exact Hg|].
  intros r_s r_e c_s c_e Ht. apply In_grid in Ht.
  destruct Ht as (r & c & Hr' & Hc' & Ht). unfold tile_at in Ht.
  injection Ht as -> -> -> ->.
  pose proof (band_length _ _ _ Hrs Cr r Hr') as [L1 _].
  pose proof (band_length _ _ _ Hcs Cc c Hc') as [L2 _].
  pose proof (band_within _ _ _ Hrs Cr r Hr') as [[B1 _] _].
  pose proof (band_within _ _ _ Hcs Cc c Hc') as [[B2 _] _].
  lia.
Qed.

Lemma tiles_not_empty_witness :
  exists indices,
    get_tile_indices (blank 300 200 3) 128 128 = Ok indices
    /\ forall r_s r_e c_s c_e, In (r_s, r_e, c_s, c_e) indices ->
         0 <= r_s < r_e /\ 0 <= c_s < c_e.
Proof.
  apply (tiles_not_empty (blank 300 200 3) 128 128);
    unfold exact_dim, exact_size; split; reflexivity || (vm_compute; discriminate).
Defined.

Lemma row_major_order nc ra ca rb cb :
  0 <= ca < nc -> 0 <= cb < nc -> ra * nc + ca < rb * nc + cb ->
  ra < rb \/ (ra = rb /\ ca < cb).
Proof.
  intros Ha Hb H. destruct (Z.lt_trichotomy ra rb) as [L|[E|G]].
  - left; exact L.
  - right. subst rb. lia.
  - exfalso. assert (rb * nc + nc <= ra * nc) by nia. lia.
Qed.

(** The tiles come in reading order: a later tile starts at a greater row,
    or at the same row and a greater column; so no tile occurs twice. *)
Theorem tiles_in_reading_order np_img row_tile_size col_tile_size :
  valid_shape np_img -> 0 < row_tile_size -> 0 < col_tile_size ->
  exists indices,
    get_tile_indices np_img row_tile_size col_tile_size = Ok indices
    /\ (forall k1 k2 r1 e1 c1 f1 r2 e2 c2 f2, (k1 < k2)%nat ->
          nth_error indices k1 = Some (r1, e1, c1, f1) ->
          nth_error indices k2 = Some (r2, e2, c2, f2) ->
          r1 < r2 \/ (r1 = r2 /\ c1 < c2))
    /\ NoDup indices.
Proof.
  intros Hv Hrs Hcs.
  destruct (get_num_tiles_total np_img _ _ Hv Hrs Hcs) as (nr & nc & Hn & Hnr & Hnc).
  exists (grid np_img row_tile_size col_tile_size nr nc).
  split; [apply get_tile_indices_grid; exact Hn|].
  assert (Hord : forall k1 k2 r1 e1 c1 f1 r2 e2 c2 f2, (k1 < k2)%nat ->
            nth_error (grid np_img row_tile_size col_tile_size nr nc) k1
            = Some (r1, e1, c1, f1) ->
            nth_error (grid np_img row_tile_size col_tile_size nr nc) k2
            = Some (r2, e2, c2, f2) ->
            r1 < r2 \/ (r1 = r2 /\ c1 < c2)).
  { intros k1 k2 r1 e1 c1 f1 r2 e2 c2 f2 Hk H1 H2.
    apply nth_error_grid_inv in H1. destruct H1 as (ra & ca & Hra & Hca & -> & E1).
    apply nth_error_grid_inv in H2. destruct H2 as (rb & cb & Hrb & Hcb & -> & E2).
    unfold tile_at, band_start in E1, E2.
    injection E1 as -> _ -> _. injection E2 as -> _ -> _.
    assert (Hlt : ra * nc + ca < rb * nc + cb) by nia.
    destruct (row_major_order nc ra ca rb cb Hca Hcb Hlt) as [L|[-> L]].
    - left. apply Z.mul_lt_mono_pos_r; assumption.
    - right. split; [reflexivity|]. apply Z.mul_lt_mono_pos_r; assumption. }
  split; [exact Hord|].
  apply NoDup_nth_error. intros i j Hi Hij.
  destruct (nth_error (grid np_img row_tile_size col_tile_size nr nc) i)
    as [[[[r1 e1] c1] f1]|] eqn:Ei; [|apply nth_error_Some in Hi; contradiction].
  symmetry in Hij.
  destruct (Nat.lt_trichotomy i j) as [L|[E|G]]; [|exact E|].
  - pose proof (Hord _ _ _ _ _ _ _ _ _ _ L Ei Hij). lia.
  - pose proof (Hord _ _ _ _ _ _ _ _ _ _ G Hij Ei). lia.
Qed.

Lemma tiles_in_reading_order_witness :
  exists indices,
    get_tile_indices (blank 300 200 3) 128 128 = Ok indices
    /\ (forall k1 k2 r1 e1 c1 f1 r2 e2 c2 f2, (k1 < k2)%nat ->
          nth_error indices k1 = Some (r1, e1, c1, f1) ->
          nth_error indices k2 = Some (r2, e2, c2, f2) ->
          r1 < r2 \/ (r1 = r2 /\ c1 < c2))
    /\ NoDup indices.
Proof.
  apply (tiles_in_reading_order (blank 300 200 3) 128 128).
  - unfold valid_shape, valid_dim. cbn. lia.
  - lia.
  - lia.
Defined.

(** ** Edge cases of the renderer *)

Lemma tile_strokes_length font tissue_percent np_img c1 c2 c3 c4 (f : font) count t :
  List.length (tile_strokes font tissue_percent np_img c1 c2 c3 c4 f count t) = 3%nat.
Proof. destruct t as [[[r_s r_e] c_s] c_e]. reflexivity. Qed.

Lemma numbered_length l : forall count, List.length (numbered count l) = List.length l.
Proof. induction l as [|t l IH]; intros count; cbn; [reflexivity|]. rewrite IH. reflexivity. Qed.

Section RendererEdgeCases.
Variables pil font : Type.
Variable tissue_percent : ndarray -> Q.
Variable np_to_pil : ndarray -> pil.
Variable truetype : string -> Z -> result font.
Variable np_img : ndarray.
Variables thresh_color below_thresh_color no_tissue_color text_color : color.
Variable text_size : Z.
Variable font_path : string.

(** The font is loaded in the loop, once per tile, after the rectangles of
    the tile.  Without tiles the call displays the bare canvas, whether the
    font can be loaded or not; when loading the font raises, a call whose
    first tile is drawable prints the line of that tile and raises the
    exception of the font without displaying anything. *)
Theorem font_loaded_per_tile summary_img row_tile_size col_tile_size (w : world pil font) :
  summary_canvas np_img row_tile_size col_tile_size = Ok summary_img ->
  display_tile_summary tissue_percent np_to_pil truetype np_img []
    row_tile_size col_tile_size thresh_color below_thresh_color no_tissue_color
    text_color text_size font_path w
  = (Ok tt, {| stdout := stdout w;
               viewer := viewer w ++ [{| base := np_to_pil summary_img; strokes := [] |}] |})
  /\ (forall e t tile_indices,
        truetype font_path text_size = Raise e -> drawable t = true ->
        display_tile_summary tissue_percent np_to_pil truetype np_img (t :: tile_indices)
          row_tile_size col_tile_size thresh_color below_thresh_color no_tissue_color
          text_color text_size font_path w
        = (Raise e,
           {| stdout := stdout w ++ [tile_log t (tile_percentage tissue_percent np_img t)];
              viewer := viewer w |})).
Proof.
  intros Hc. split.
  - unfold display_tile_summary, bindM, lift. rewrite Hc. reflexivity.
  - intros e t tile_indices Hf Ht.
    unfold display_tile_summary. unfold bindM at 1. unfold lift. rewrite Hc.
    unfold bindM at 1. cbn [for_each]. unfold bindM at 1.
    rewrite summarize_tile_spec, Ht, Hf. reflexivity.
Qed.

(** A rendering of drawable tiles with a font that loads prints one line
    per tile, draws three calls per tile on the canvas (two rectangles,
    then the label) and displays that one image. *)
Theorem display_tile_summary_output f summary_img tile_indices row_tile_size col_tile_size
    (w : world pil font) :
  summary_canvas np_img row_tile_size col_tile_size = Ok summary_img ->
  truetype font_path text_size = Ok f ->
  forallb drawable tile_indices = true ->
  exists lines im,
    display_tile_summary tissue_percent np_to_pil truetype np_img tile_indices
      row_tile_size col_tile_size thresh_color below_thresh_color no_tissue_color
      text_color text_size font_path w
    = (Ok tt, {| stdout := stdout w ++ lines; viewer := viewer w ++ [im] |})
    /\ List.length lines = List.length tile_indices
    /\ base im = np_to_pil summary_img
    /\ List.length (strokes im) = (3 * List.length tile_indices)%nat
    /\ forall k, (k < List.length tile_indices)%nat ->
         exists x0 y0 x1 y1 x2 y2 x3 y3 outline x y label fill,
           nth_error (strokes im) (3 * k) = Some (Rectangle x0 y0 x1 y1 outline)
           /\ nth_error (strokes im) (3 * k + 1) = Some (Rectangle x2 y2 x3 y3 outline)
           /\ nth_error (strokes im) (3 * k + 2) = Some (Text x y label fill f).
Proof.
  intros Hc Hf Hd.
  pose proof (display_tile_summary_ok pil font tissue_percent np_to_pil truetype np_img
                thresh_color below_thresh_color no_tissue_color text_color text_size
                font_path f summary_img tile_indices row_tile_size
                col_tile_size w Hc Hf Hd) as E.
  do 2 eexists. split; [exact E|].
  split; [apply length_map|]. split; [reflexivity|].
  cbn [strokes]. split.
  - rewrite (length_flat_map_uniform _ 3%nat).
    + rewrite numbered_length. lia.
    + intros [count t] _. apply tile_strokes_length.
  - intros k Hk.
    destruct (nth_error tile_indices k) as [t|] eqn:Et;
      [|apply nth_error_None in Et; lia].
    pose proof (nth_error_numbered _ 0 k t Et) as En.
    assert (Hn : forall j, (j < 3)%nat ->
              nth_error (flat_map (fun ct =>
                  tile_strokes font tissue_percent np_img thresh_color below_thresh_color
                    no_tissue_color text_color f (fst ct) (snd ct))
                  (numbered 0 tile_indices)) (k * 3 + j)
              = nth_error (tile_strokes font tissue_percent np_img thresh_color
                             below_thresh_color no_tissue_color text_color f
                             (0 + Z.of_nat k + 1) t) j).
    { intros j Hj.
      rewrite (nth_error_flat_map_uniform _ 3%nat _
                 (fun ct _ => tile_strokes_length font tissue_percent np_img _ _ _ _ f
                                (fst ct) (snd ct))
                 k j _ En Hj).
      reflexivity. }
    destruct t as [[[r_s r_e] c_s] c_e].
    assert (L0 : (0 < 3)%nat) by lia.
    assert (L1 : (1 < 3)%nat) by lia.
    assert (L2 : (2 < 3)%nat) by lia.
    pose proof (Hn 0%nat L0) as H0.
    pose proof (Hn 1%nat L1) as H1.
    pose proof (Hn 2%nat L2) as H2.
    replace (k * 3 + 0)%nat with (3 * k)%nat in H0 by lia.
    replace (k * 3 + 1)%nat with (3 * k + 1)%nat in H1 by lia.
    replace (k * 3 + 2)%nat with (3 * k + 2)%nat in H2 by lia.
    cbn in H0, H1, H2.
    do 13 eexists. split; [exact H0|]. split; [exact H1|exact H2].
Qed.

(** On drawable tiles, with a canvas that is built and a font that loads,
    the tiles are numbered from one in the order of the sequence, and for
    each of them, after its rectangles, a text is drawn at
    [(c_s + 2, r_s + 2)] whose first line is [#] and the number of the tile
    and whose second line is the tissue percentage rounded to two decimals
    (to the nearest hundredth) and [%]. *)
Theorem display_tile_summary_labels f summary_img tile_indices
    row_tile_size col_tile_size (w : world pil font) :
  summary_canvas np_img row_tile_size col_tile_size = Ok summary_img ->
  truetype font_path text_size = Ok f ->
  forallb drawable tile_indices = true ->
  display_tile_summary tissue_percent np_to_pil truetype np_img tile_indices
    row_tile_size col_tile_size thresh_color below_thresh_color no_tissue_color
    text_color text_size font_path w
  = (Ok tt,
     {| stdout := stdout w
                  ++ map (fun t => tile_log t (tile_percentage tissue_percent np_img t))
                       tile_indices;
        viewer := viewer w
                  ++ [{| base := np_to_pil summary_img;
                         strokes :=
                           flat_map (fun ct =>
                             let '(count, (r_s, r_e, c_s, c_e)) := ct in
                             let p := tissue_percent (getslice2 np_img r_s r_e c_s c_e) in
                             tile_rectangles font (r_s, r_e, c_s, c_e)
                               (outline_of p thresh_color below_thresh_color no_tissue_color)
                             ++ [Text (c_s + 2) (r_s + 2)
                                   ("#" ++ format_d count ++ newline
                                    ++ two_decimals p ++ "%")%string
                                   text_color f])
                             (numbered 0 tile_indices) |}] |})
  /\ (forall k t, nth_error tile_indices k = Some t ->
        nth_error (numbered 0 tile_indices) k = Some (Z.of_nat k + 1, t))
  /\ (forall p, 0 <= hundredths p
        /\ (inject_Z (hundredths p) - (1 # 2) <= Qabs p * inject_Z 100
            <= inject_Z (hundredths p) + (1 # 2))%Q).
Proof.
  intros Hc Hf Hd. split; [|split].
  - rewrite (display_tile_summary_ok pil font tissue_percent np_to_pil truetype np_img
               thresh_color below_thresh_color no_tissue_color text_color text_size
               font_path f summary_img tile_indices row_tile_size col_tile_size w Hc Hf Hd).
    f_equal. f_equal. f_equal. f_equal. f_equal.
    apply flat_map_ext. intros [count [[[r_s r_e] c_s] c_e]].
    cbn [fst snd]. unfold tile_strokes, tile_percentage, tile_text, tile_label.
    rewrite format_f_two_decimals. reflexivity.
  - intros k t H. rewrite (nth_error_numbered _ 0 k t H). f_equal.
  - intros p. split; [apply hundredths_nonneg|apply round_half_even_near].
Qed.

(** With a canvas that is built and a font that loads, the call stops at
    the first tile that is not drawable: it has printed the lines of the
    tiles up to that one, raises [ValueError] from [draw.rectangle] and
    displays nothing, whatever was drawn for the tiles before. *)
Theorem display_stops_at_thin_tile f summary_img pre t post row_tile_size col_tile_size
    (w : world pil font) :
  summary_canvas np_img row_tile_size col_tile_size = Ok summary_img ->
  truetype font_path text_size = Ok f ->
  forallb drawable pre = true -> drawable t = false ->
  display_tile_summary tissue_percent np_to_pil truetype np_img (pre ++ t :: post)
    row_tile_size col_tile_size thresh_color below_thresh_color no_tissue_color
    text_color text_size font_path w
  = (Raise ValueError,
     {| stdout := stdout w
                  ++ map (fun t => tile_log t (tile_percentage tissue_percent np_img t))
                       (pre ++ [t]);
        viewer := viewer w |})
  /\ (let '(r_s, r_e, c_s, c_e) := t in r_e < r_s + 3 \/ c_e < c_s + 3).
Proof.
  intros Hc Hf Hd Ht. split.
  - apply (display_tile_summary_stop pil font tissue_percent np_to_pil truetype np_img
             thresh_color below_thresh_color no_tissue_color text_color text_size
             font_path f summary_img); assumption.
  - destruct t as [[[r_s r_e] c_s] c_e]. unfold drawable in Ht.
    destruct (Z.leb_spec (r_s + 3) r_e); [|lia].
    destruct (Z.leb_spec (c_s + 3) c_e); [discriminate|lia].
Qed.

End RendererEdgeCases.

(** The last band of an axis cut in bands of 128 pixels has the remainder
    of the division by 128, or 128 pixels when the remainder is zero. *)
Lemma last_band_128 total :
  0 < total ->
  total - (ceil_div total 128 - 1) * 128
  = (if total mod 128 =? 0 then 128 else total mod 128)
  /\ 1 <= ceil_div total 128.
Proof.
  intros Ht.
  pose proof (ceil_div_spec total 128 ltac:(lia)) as Hk.
  pose proof (Z.div_mod total 128 ltac:(lia)) as Hd.
  pose proof (Z.mod_pos_bound total 128 ltac:(lia)) as Hm.
  destruct (Z.eqb_spec (total mod 128) 0); lia.
Qed.

(** The tiles of the grid of the module's tile sizes are drawable, unless
    the rows or the columns of the image leave a remainder of one or two
    pixels. *)
Lemma grid_128_drawable np_img :
  rows np_img mod 128 <> 1 -> rows np_img mod 128 <> 2 ->
  cols np_img mod 128 <> 1 -> cols np_img mod 128 <> 2 ->
  forallb drawable
    (grid np_img 128 128 (ceil_div (rows np_img) 128) (ceil_div (cols np_img) 128)) = true.
Proof.
  intros R1 R2 C1 C2. apply forallb_forall. intros t Ht.
  apply In_grid in Ht. destruct Ht as (r & c & Hr & Hc & ->).
  unfold tile_at, band_start, band_end, drawable.
  pose proof (ceil_div_spec (rows np_img) 128 ltac:(lia)) as Kr.
  pose proof (ceil_div_spec (cols np_img) 128 ltac:(lia)) as Kc.
  assert (Pr : 0 < rows np_img) by lia.
  assert (Pc : 0 < cols np_img) by lia.
  destruct (last_band_128 _ Pr) as [Lr _]. destruct (last_band_128 _ Pc) as [Lc _].
  pose proof (Z.mod_pos_bound (rows np_img) 128 ltac:(lia)) as Mr.
  pose proof (Z.mod_pos_bound (cols np_img) 128 ltac:(lia)) as Mc.
  destruct (Z.eqb_spec (rows np_img mod 128) 0);
    destruct (Z.eqb_spec (cols np_img mod 128) 0);
    destruct (Z.eqb_spec r (ceil_div (rows np_img) 128 - 1));
    destruct (Z.eqb_spec c (ceil_div (cols np_img) 128 - 1));
    apply andb_true_intro; split; apply Z.leb_le; lia.
Qed.

(** The module's script on an image whose rows and columns are below
    [2^53] and do not leave a remainder of one or two pixels in the division
    by 128, with a font that loads: the grid of 128 x 128 tiles is computed,
    the canvas is built, one line is printed and two rectangles and a label
    are drawn for every tile of the grid, in its order, and the image is
    displayed. *)
Theorem main_renders_grid (pil font : Type) (tissue_percent : ndarray -> Q)
    (np_to_pil : ndarray -> pil) (truetype : string -> Z -> result font)
    (np_img : ndarray) f (w : world pil font) :
  valid_shape np_img -> exact_dim (rows np_img) -> exact_dim (cols np_img) ->
  rows np_img mod ROW_TILE_SIZE <> 1 -> rows np_img mod ROW_TILE_SIZE <> 2 ->
  cols np_img mod COL_TILE_SIZE <> 1 -> cols np_img mod COL_TILE_SIZE <> 2 ->
  truetype default_font_path default_text_size = Ok f ->
  exists indices summary_img,
    get_tile_indices np_img ROW_TILE_SIZE COL_TILE_SIZE = Ok indices
    /\ Z.of_nat (List.length indices)
       = ceil_div (rows np_img) ROW_TILE_SIZE * ceil_div (cols np_img) COL_TILE_SIZE
    /\ summary_canvas np_img ROW_TILE_SIZE COL_TILE_SIZE = Ok summary_img
    /\ main tissue_percent np_to_pil truetype np_img w
       = (Ok tt,
          {| stdout := stdout w
                       ++ map (fun t => tile_log t (tile_percentage tissue_percent np_img t))
                            indices;
             viewer := viewer w
                       ++ [{| base := np_to_pil summary_img;
                              strokes :=
                                flat_map (fun ct =>
                                  tile_strokes font tissue_percent np_img
                                    default_thresh_color default_below_thresh_color
                                    default_no_tissue_color default_text_color f
                                    (fst ct) (snd ct))
                                  (numbered 0 indices) |}] |}).
Proof.
  intros (_ & _ & Hch) Hr Hc R1 R2 C1 C2 Hf.
  assert (Hs : exact_size 128) by (split; reflexivity).
  pose proof (get_num_tiles_exact np_img 128 128 Hr Hc Hs Hs) as Hn.
  pose proof (get_tile_indices_exact np_img 128 128 Hr Hc Hs Hs) as Hg.
  pose proof (ceil_div_spec (rows np_img) 128 ltac:(lia)) as Cr.
  pose proof (ceil_div_spec (cols np_img) 128 ltac:(lia)) as Cc.
  assert (Hnr : 0 <= ceil_div (rows np_img) 128) by (apply ceil_div_nonneg; [apply Hr|lia]).
  assert (Hnc : 0 <= ceil_div (cols np_img) 128) by (apply ceil_div_nonneg; [apply Hc|lia]).
  destruct (summary_canvas_ok np_img 128 128 _ _ Hn Hnr Hnc (proj1 Hch))
    as (summary_img & Hok & _);
    try (unfold ROW_TILE_SIZE, COL_TILE_SIZE; lia); try apply Hr; try apply Hc.
  exists (grid np_img 128 128 (ceil_div (rows np_img) 128) (ceil_div (cols np_img) 128)),
         summary_img.
  split; [exact Hg|]. split; [apply grid_length_Z; assumption|]. split; [exact Hok|].
  unfold main. unfold bindM at 1. unfold lift.
  change ROW_TILE_SIZE with 128 in *. change COL_TILE_SIZE with 128 in *. rewrite Hg.
  apply (display_tile_summary_ok pil font tissue_percent np_to_pil truetype np_img
           default_thresh_color default_below_thresh_color default_no_tissue_color
           default_text_color default_text_size default_font_path f summary_img);
    try assumption.
  apply grid_128_drawable; assumption.
Qed.

(** The module's script on an image with pixels whose rows or columns leave
    a remainder of one or two pixels in the division by 128 (dimensions
    below [2^53], a font that loads): the last band is too thin for the
    inner rectangle, the script raises [ValueError] after some printed
    lines and displays nothing. *)
Theorem main_raises_on_thin_band (pil font : Type) (tissue_percent : ndarray -> Q)
    (np_to_pil : ndarray -> pil) (truetype : string -> Z -> result font)
    (np_img : ndarray) f (w : world pil font) :
  valid_shape np_img -> exact_dim (rows np_img) -> exact_dim (cols np_img) ->
  0 < rows np_img -> 0 < cols np_img ->
  rows np_img mod ROW_TILE_SIZE = 1 \/ rows np_img mod ROW_TILE_SIZE = 2
  \/ cols np_img mod COL_TILE_SIZE = 1 \/ cols np_img mod COL_TILE_SIZE = 2 ->
  truetype default_font_path default_text_size = Ok f ->
  exists lines,
    main tissue_percent np_to_pil truetype np_img w
    = (Raise ValueError, {| stdout := stdout w ++ lines; viewer := viewer w |})
    /\ (1 <= List.length lines)%nat.
Proof.
  intros (_ & _ & Hch) Hr Hc Pr Pc Hthin Hf.
  assert (Hs : exact_size 128) by (split; reflexivity).
  pose proof (get_num_tiles_exact np_img 128 128 Hr Hc Hs Hs) as Hn.
  pose proof (get_tile_indices_exact np_img 128 128 Hr Hc Hs Hs) as Hg.
  pose proof (ceil_div_spec (rows np_img) 128 ltac:(lia)) as Cr.
  pose proof (ceil_div_spec (cols np_img) 128 ltac:(lia)) as Cc.
  destruct (last_band_128 _ Pr) as [Lr Hnr]. destruct (last_band_128 _ Pc) as [Lc Hnc].
  destruct (summary_canvas_ok np_img 128 128 _ _ Hn ltac:(lia) ltac:(lia) (proj1 Hch))
    as (summary_img & Hok & _);
    try (unfold ROW_TILE_SIZE, COL_TILE_SIZE; lia).
  set (nr := ceil_div (rows np_img) 128) in *.
  set (nc := ceil_div (cols np_img) 128) in *.
  change ROW_TILE_SIZE with 128 in *. change COL_TILE_SIZE with 128 in *.
  assert (Hex : forallb drawable (grid np_img 128 128 nr nc) = false).
  { destruct (forallb drawable (grid np_img 128 128 nr nc)) eqn:E; [|reflexivity].
    exfalso. rewrite forallb_forall in E.
    assert (Hin : In (tile_at np_img 128 128 nr nc (nr - 1) (nc - 1))
                     (grid np_img 128 128 nr nc)).
    { apply In_grid. exists (nr - 1), (nc - 1). repeat split; lia. }
    apply E in Hin. unfold tile_at, band_start, band_end, drawable in Hin.
    rewrite !Z.eqb_refl in Hin. apply andb_prop in Hin. destruct Hin as [H1 H2].
    apply Z.leb_le in H1. apply Z.leb_le in H2.
    destruct (Z.eqb_spec (rows np_img mod 128) 0);
      destruct (Z.eqb_spec (cols np_img mod 128) 0); lia. }
  destruct (first_undrawable _ Hex) as (pre & t & post & Egrid & Hpre & Ht).
  exists (map (fun t => tile_log t (tile_percentage tissue_percent np_img t)) (pre ++ [t])).
  split.
  - unfold main. unfold bindM at 1. unfold lift.
    change ROW_TILE_SIZE with 128. change COL_TILE_SIZE with 128. rewrite Hg, Egrid.
    apply (display_tile_summary_stop pil font tissue_percent np_to_pil truetype np_img
             default_thresh_color default_below_thresh_color default_no_tissue_color
             default_text_color default_text_size default_font_path f summary_img);
      assumption.
  - rewrite length_map, length_app. cbn. lia.
Qed.

Lemma font_loaded_per_tile_witness :
  display_tile_summary half_tissue as_pil (fun _ _ => @Raise unit OSError)
    (blank 300 200 3) []
    128 128 default_thresh_color default_below_thresh_color default_no_tissue_color
    default_text_color default_text_size default_font_path no_output
  = (Ok tt, {| stdout := stdout no_output;
               viewer := viewer no_output
                         ++ [{| base := as_pil (canvas_of (blank 300 200 3) 128 128);
                                strokes := [] |}] |})
  /\ display_tile_summary half_tissue as_pil (fun _ _ => @Raise unit OSError)
       (blank 300 200 3) [(0, 128, 0, 128); (0, 128, 128, 200)] 128 128
       default_thresh_color default_below_thresh_color
       default_no_tissue_color default_text_color default_text_size default_font_path
       no_output
     = (Raise OSError,
        {| stdout := stdout no_output
                     ++ [tile_log (0, 128, 0, 128)
                           (tile_percentage half_tissue (blank 300 200 3) (0, 128, 0, 128))];
           viewer := viewer no_output |}).
Proof.
  destruct (font_loaded_per_tile unit unit half_tissue as_pil
              (fun _ _ => @Raise unit OSError)
              (blank 300 200 3) default_thresh_color default_below_thresh_color
              default_no_tissue_color default_text_color default_text_size
              default_font_path (canvas_of (blank 300 200 3) 128 128) 128 128 no_output)
    as [H1 H2].
  - vm_compute. reflexivity.
  - split; [exact H1|]. apply H2; reflexivity.
Defined.

Lemma display_tile_summary_output_witness :
  exists lines im,
    display_tile_summary half_tissue as_pil any_font (blank 300 200 3)
      [(0, 128, 0, 128); (0, 128, 128, 200)] 128 128 default_thresh_color
      default_below_thresh_color default_no_tissue_color default_text_color
      default_text_size default_font_path no_output
    = (Ok tt, {| stdout := stdout no_output ++ lines; viewer := viewer no_output ++ [im] |})
    /\ List.length lines = List.length [(0, 128, 0, 128); (0, 128, 128, 200)]
    /\ base im = as_pil (canvas_of (blank 300 200 3) 128 128)
    /\ List.length (strokes im)
       = (3 * List.length [(0, 128, 0, 128); (0, 128, 128, 200)])%nat
    /\ forall k, (k < List.length [(0, 128, 0, 128); (0, 128, 128, 200)])%nat ->
         exists x0 y0 x1 y1 x2 y2 x3 y3 outline x y label fill,
           nth_error (strokes im) (3 * k) = Some (Rectangle x0 y0 x1 y1 outline)
           /\ nth_error (strokes im) (3 * k + 1) = Some (Rectangle x2 y2 x3 y3 outline)
           /\ nth_error (strokes im) (3 * k + 2) = Some (Text x y label fill tt).
Proof.
  apply (display_tile_summary_output unit unit half_tissue as_pil any_font
           (blank 300 200 3) default_thresh_color default_below_thresh_color
           default_no_tissue_color default_text_color default_text_size default_font_path
           tt (canvas_of (blank 300 200 3) 128 128)
           [(0, 128, 0, 128); (0, 128, 128, 200)] 128 128 no_output).
  - vm_compute. reflexivity.
  - reflexivity.
  - reflexivity.
Defined.

Lemma display_tile_summary_labels_witness :
  display_tile_summary half_tissue as_pil any_font (blank 300 200 3)
    [(0, 128, 0, 128); (0, 128, 128, 200)] 128 128 default_thresh_color
    default_below_thresh_color default_no_tissue_color default_text_color
    default_text_size default_font_path no_output
  = (Ok tt,
     {| stdout := stdout no_output
                  ++ map (fun t => tile_log t (tile_percentage half_tissue (blank 300 200 3) t))
                       [(0, 128, 0, 128); (0, 128, 128, 200)];
        viewer := viewer no_output
                  ++ [{| base := as_pil (canvas_of (blank 300 200 3) 128 128);
                         strokes :=
                           flat_map (fun ct =>
                             let '(count, (r_s, r_e, c_s, c_e)) := ct in
                             let p := half_tissue (getslice2 (blank 300 200 3) r_s r_e c_s c_e) in
                             tile_rectangles unit (r_s, r_e, c_s, c_e)
                               (outline_of p default_thresh_color default_below_thresh_color
                                  default_no_tissue_color)
                             ++ [Text (c_s + 2) (r_s + 2)
                                   ("#" ++ format_d count ++ newline
                                    ++ two_decimals p ++ "%")%string
                                   default_text_color tt])
                             (numbered 0 [(0, 128, 0, 128); (0, 128, 128, 200)]) |}] |})
  /\ (forall k t, nth_error [(0, 128, 0, 128); (0, 128, 128, 200)] k = Some t ->
        nth_error (numbered 0 [(0, 128, 0, 128); (0, 128, 128, 200)]) k
        = Some (Z.of_nat k + 1, t))
  /\ (forall p, 0 <= hundredths p
        /\ (inject_Z (hundredths p) - (1 # 2) <= Qabs p * inject_Z 100
            <= inject_Z (hundredths p) + (1 # 2))%Q).
Proof.
  apply (display_tile_summary_labels unit unit half_tissue as_pil any_font
           (blank 300 200 3) default_thresh_color default_below_thresh_color
           default_no_tissue_color default_text_color default_text_size
           default_font_path tt (canvas_of (blank 300 200 3) 128 128)
           [(0, 128, 0, 128); (0, 128, 128, 200)] 128 128 no_output).
  - vm_compute. reflexivity.
  - reflexivity.
  - reflexivity.
Defined.

Lemma display_stops_at_thin_tile_witness :
  display_tile_summary half_tissue as_pil any_font (blank 130 128 3)
    ([(0, 128, 0, 128)] ++ (128, 130, 0, 128) :: []) 128 128 default_thresh_color
    default_below_thresh_color default_no_tissue_color default_text_color
    default_text_size default_font_path no_output
  = (Raise ValueError,
     {| stdout := stdout no_output
                  ++ map (fun t => tile_log t (tile_percentage half_tissue (blank 130 128 3) t))
                       ([(0, 128, 0, 128)] ++ [(128, 130, 0, 128)]);
        viewer := viewer no_output |})
  /\ (130 < 128 + 3 \/ 128 < 0 + 3).
Proof.
  apply (display_stops_at_thin_tile unit unit half_tissue as_pil any_font
           (blank 130 128 3) default_thresh_color default_below_thresh_color
           default_no_tissue_color default_text_color default_text_size
           default_font_path tt (canvas_of (blank 130 128 3) 128 128)
           [(0, 128, 0, 128)] (128, 130, 0, 128) [] 128 128 no_output).
  - vm_compute. reflexivity.
  - reflexivity.
  - reflexivity.
  - reflexivity.
Defined.

Lemma main_renders_grid_witness :
  exists indices summary_img,
    get_tile_indices (blank 300 200 3) ROW_TILE_SIZE COL_TILE_SIZE = Ok indices
    /\ Z.of_nat (List.length indices)
       = ceil_div (rows (blank 300 200 3)) ROW_TILE_SIZE
         * ceil_div (cols (blank 300 200 3)) COL_TILE_SIZE
    /\ summary_canvas (blank 300 200 3) ROW_TILE_SIZE COL_TILE_SIZE = Ok summary_img
    /\ main half_tissue as_pil any_font (blank 300 200 3) no_output
       = (Ok tt,
          {| stdout := stdout no_output
                       ++ map (fun t => tile_log t
                                 (tile_percentage half_tissue (blank 300 200 3) t)) indices;
             viewer := viewer no_output
                       ++ [{| base := as_pil summary_img;
                              strokes :=
                                flat_map (fun ct =>
                                  tile_strokes unit half_tissue (blank 300 200 3)
                                    default_thresh_color default_below_thresh_color
                                    default_no_tissue_color default_text_color tt
                                    (fst ct) (snd ct))
                                  (numbered 0 indices) |}] |}).
Proof.
  apply (main_renders_grid unit unit half_tissue as_pil any_font (blank 300 200 3) tt
           no_output).
  - unfold valid_shape, valid_dim. cbn. lia.
  - unfold exact_dim. cbn. lia.
  - unfold exact_dim. cbn. lia.
  - vm_compute. discriminate.
  - vm_compute. discriminate.
  - vm_compute. discriminate.
  - vm_compute. discriminate.
  - reflexivity.
Defined.

Lemma main_raises_on_thin_band_witness :
  exists lines,
    main half_tissue as_pil any_font (blank 129 128 3) no_output
    = (Raise ValueError,
       {| stdout := stdout no_output ++ lines; viewer := viewer no_output |})
    /\ (1 <= List.length lines)%nat.
Proof.
  apply (main_raises_on_thin_band unit unit half_tissue as_pil any_font (blank 129 128 3)
           tt no_output).
  - unfold valid_shape, valid_dim. cbn. lia.
  - unfold exact_dim. cbn. lia.
  - unfold exact_dim. cbn. lia.
  - reflexivity.
  - reflexivity.
  - left. reflexivity.
  - reflexivity.
Defined.

(** ** When the canvas holds the image *)

Lemma slice_range_from_zero n stop :
  0 <= n -> 0 <= stop -> slice_range n 0 stop = (0, Z.min stop n).
Proof.
  intros Hn Hs. unfold slice_range, slice_index.
  destruct (Z.ltb_spec stop 0); [lia|]. cbn. f_equal; lia.
Qed.

(** With tile sizes of at most [ROW_TILE_SIZE] and [COL_TILE_SIZE] (in the
    range where the tile counts are exact) the canvas is built: it has the
    rows and columns of the module's constants times the tile counts, it
    holds the image at its origin and the gray value 120 everywhere else. *)
Theorem canvas_built_for_small_tiles np_img row_tile_size col_tile_size :
  valid_shape np_img -> exact_dim (rows np_img) -> exact_dim (cols np_img) ->
  exact_size row_tile_size -> exact_size col_tile_size ->
  row_tile_size <= ROW_TILE_SIZE -> col_tile_size <= COL_TILE_SIZE ->
  exists summary_img,
    summary_canvas np_img row_tile_size col_tile_size = Ok summary_img
    /\ shape summary_img
       = (ROW_TILE_SIZE * ceil_div (rows np_img) row_tile_size,
          COL_TILE_SIZE * ceil_div (cols np_img) col_tile_size, channels np_img)
    /\ forall i j k, 0 <= k < channels np_img ->
         item summary_img i j k
         = if (0 <=? i) && (i <? rows np_img) && (0 <=? j) && (j <? cols np_img)
           then uint8 (item np_img i j k) else 120.
Proof.
  intros (_ & _ & Hch) Hr Hc Hrs Hcs Hr128 Hc128.
  pose proof (get_num_tiles_exact np_img _ _ Hr Hc Hrs Hcs) as Hn.
  pose proof (ceil_div_spec (rows np_img) row_tile_size (proj1 Hrs)) as Cr.
  pose proof (ceil_div_spec (cols np_img) col_tile_size (proj1 Hcs)) as Cc.
  assert (Hnr : 0 <= ceil_div (rows np_img) row_tile_size)
    by (apply ceil_div_nonneg; [apply Hr|apply Hrs]).
  assert (Hnc : 0 <= ceil_div (cols np_img) col_tile_size)
    by (apply ceil_div_nonneg; [apply Hc|apply Hcs]).
  set (nr := ceil_div (rows np_img) row_tile_size) in *.
  set (nc := ceil_div (cols np_img) col_tile_size) in *.
  unfold ROW_TILE_SIZE, COL_TILE_SIZE in *.
  destruct (summary_canvas_ok np_img row_tile_size col_tile_size nr nc Hn Hnr Hnc (proj1 Hch))
    as (summary_img & Hok & Hsh & Hit);
    try (unfold ROW_TILE_SIZE, COL_TILE_SIZE; nia); try apply Hr; try apply Hc.
  exists summary_img. split; [exact Hok|]. split; [exact Hsh|].
  intros i j k Hk. rewrite Hit.
  destruct (Z.leb_spec 0 i); [|reflexivity]. destruct (Z.ltb_spec i (rows np_img)); [|reflexivity].
  destruct (Z.leb_spec 0 j); [|reflexivity]. destruct (Z.ltb_spec j (cols np_img)); [|reflexivity].
  cbn [andb]. rewrite !source_index_within by lia. reflexivity.
Qed.

Lemma canvas_built_for_small_tiles_witness :
  exists summary_img,
    summary_canvas (blank 300 200 3) 64 64 = Ok summary_img
    /\ shape summary_img
       = (ROW_TILE_SIZE * ceil_div (rows (blank 300 200 3)) 64,
          COL_TILE_SIZE * ceil_div (cols (blank 300 200 3)) 64, channels (blank 300 200 3))
    /\ forall i j k, 0 <= k < channels (blank 300 200 3) ->
         item summary_img i j k
         = if (0 <=? i) && (i <? rows (blank 300 200 3)) && (0 <=? j)
              && (j <? cols (blank 300 200 3))
           then uint8 (item (blank 300 200 3) i j k) else 120.
Proof.
  apply (canvas_built_for_small_tiles (blank 300 200 3) 64 64);
    try (unfold valid_shape, valid_dim; cbn; lia);
    try (unfold exact_dim, exact_size; cbn; split; reflexivity || (vm_compute; discriminate));
    vm_compute; discriminate.
Defined.

(** When the image has more rows (or columns) than [ROW_TILE_SIZE]
    ([COL_TILE_SIZE]) times its count of row (column) bands, the copy of the
    image into the canvas raises [ValueError], and the renderer prints and
    displays nothing. *)
Theorem canvas_too_small_raises np_img row_tile_size col_tile_size :
  valid_shape np_img -> exact_dim (rows np_img) -> exact_dim (cols np_img) ->
  exact_size row_tile_size -> exact_size col_tile_size ->
  ROW_TILE_SIZE * ceil_div (rows np_img) row_tile_size < rows np_img
  \/ COL_TILE_SIZE * ceil_div (cols np_img) col_tile_size < cols np_img ->
  summary_canvas np_img row_tile_size col_tile_size = Raise ValueError
  /\ forall (pil font : Type) (tissue_percent : ndarray -> Q) (np_to_pil : ndarray -> pil)
       (truetype : string -> Z -> result font) tile_indices c1 c2 c3 c4 text_size font_path
       (w : world pil font),
       display_tile_summary tissue_percent np_to_pil truetype np_img tile_indices
         row_tile_size col_tile_size c1 c2 c3 c4 text_size font_path w
       = (Raise ValueError, w).
Proof.
  intros (_ & _ & Hch) Hr Hc Hrs Hcs Hbig.
  assert (E : summary_canvas np_img row_tile_size col_tile_size = Raise ValueError).
  { pose proof (get_num_tiles_exact np_img _ _ Hr Hc Hrs Hcs) as Hn.
    pose proof (ceil_div_spec (rows np_img) row_tile_size (proj1 Hrs)) as Cr.
    pose proof (ceil_div_spec (cols np_img) col_tile_size (proj1 Hcs)) as Cc.
    assert (Hnr : 0 <= ceil_div (rows np_img) row_tile_size)
      by (apply ceil_div_nonneg; [apply Hr|apply Hrs]).
    assert (Hnc : 0 <= ceil_div (cols np_img) col_tile_size)
      by (apply ceil_div_nonneg; [apply Hc|apply Hcs]).
    set (nr := ceil_div (rows np_img) row_tile_size) in *.
    set (nc := ceil_div (cols np_img) col_tile_size) in *.
    destruct Hrs as [Hrs _]. destruct Hcs as [Hcs _].
    destruct Hr as [Hr _]. destruct Hc as [Hc _]. destruct Hch as [Hch _].
    unfold summary_canvas. rewrite Hn. cbn [bind].
    destruct np_img as [[[r c] ch] it].
    unfold ROW_TILE_SIZE, COL_TILE_SIZE in *.
    cbn [rows cols channels shape fst snd item] in *.
    unfold zeros.
    destruct (Z.ltb_spec (128 * nr) 0); [lia|].
    destruct (Z.ltb_spec (128 * nc) 0); [lia|].
    destruct (Z.ltb_spec ch 0); [lia|].
    cbn [orb bind]. unfold setslice2, fill.
    cbn [rows cols channels shape fst snd item].
    rewrite !slice_range_from_zero by lia.
    assert (Hb : broadcasts r (Z.min r (128 * nr)) && broadcasts c (Z.min c (128 * nc))
                 && broadcasts ch ch = false).
    { unfold broadcasts. destruct Hbig as [Hbig|Hbig].
      - replace (Z.min r (128 * nr)) with (128 * nr) by lia.
        destruct (Z.eqb_spec r (128 * nr)); [lia|].
        destruct (Z.eqb_spec r 1); [nia|]. reflexivity.
      - replace (Z.min c (128 * nc)) with (128 * nc) by lia.
        destruct (Z.eqb_spec c (128 * nc)); [lia|].
        destruct (Z.eqb_spec c 1); [nia|].
        cbn [orb]. rewrite andb_false_r. reflexivity. }
    rewrite Hb. reflexivity. }
  split; [exact E|].
  intros. unfold display_tile_summary, bindM, lift. rewrite E. reflexivity.
Qed.

Lemma canvas_too_small_raises_witness :
  summary_canvas (blank 300 200 3) 256 256 = Raise ValueError
  /\ forall (pil font : Type) (tissue_percent : ndarray -> Q) (np_to_pil : ndarray -> pil)
       (truetype : string -> Z -> result font) tile_indices c1 c2 c3 c4 text_size font_path
       (w : world pil font),
       display_tile_summary tissue_percent np_to_pil truetype (blank 300 200 3) tile_indices
         256 256 c1 c2 c3 c4 text_size font_path w
       = (Raise ValueError, w).
Proof.
  apply (canvas_too_small_raises (blank 300 200 3) 256 256);
    try (unfold valid_shape, valid_dim; cbn; lia);
    try (unfold exact_dim, exact_size; cbn; split; reflexivity || (vm_compute; discriminate)).
Defined.

(** The label of every tile of the module's grid starts on the canvas, and
    the corners of its outer rectangle are pixels of the image. *)
Theorem labels_start_on_canvas np_img :
  exact_dim (rows np_img) -> exact_dim (cols np_img) ->
  exists num_row_tiles num_col_tiles indices,
    get_num_tiles np_img ROW_TILE_SIZE COL_TILE_SIZE = Ok (num_row_tiles, num_col_tiles)
    /\ get_tile_indices np_img ROW_TILE_SIZE COL_TILE_SIZE = Ok indices
    /\ forall r_s r_e c_s c_e, In (r_s, r_e, c_s, c_e) indices ->
         (0 <= c_s + 2 < COL_TILE_SIZE * num_col_tiles
          /\ 0 <= r_s + 2 < ROW_TILE_SIZE * num_row_tiles)
         /\ (0 <= c_s <= c_e - 1 /\ c_e - 1 < cols np_img)
         /\ (0 <= r_s <= r_e - 1 /\ r_e - 1 < rows np_img).
Proof.
  intros Hr Hc.
  assert (Hs : exact_size 128) by (split; reflexivity).
  pose proof (get_num_tiles_exact np_img 128 128 Hr Hc Hs Hs) as Hn.
  pose proof (get_tile_indices_exact np_img 128 128 Hr Hc Hs Hs) as Hg.
  pose proof (ceil_div_spec (rows np_img) 128 ltac:(lia)) as Cr.
  pose proof (ceil_div_spec (cols np_img) 128 ltac:(lia)) as Cc.
  set (nr := ceil_div (rows np_img) 128) in *.
  set (nc := ceil_div (cols np_img) 128) in *.
  exists nr, nc. eexists. split; [exact Hn|]. split; [exact Hg|].
  intros r_s r_e c_s c_e Ht. apply In_grid in Ht.
  destruct Ht as (r & c & Hr' & Hc' & Ht). unfold tile_at in Ht.
  injection Ht as -> -> -> ->.
  assert (P : 0 < 128) by lia.
  pose proof (band_length _ _ _ P Cr r Hr') as [L1 _].
  pose proof (band_length _ _ _ P Cc c Hc') as [L2 _].
  pose proof (band_within _ _ _ P Cr r Hr') as [[B1 _] B1'].
  pose proof (band_within _ _ _ P Cc c Hc') as [[B2 _] B2'].
  unfold band_start, ROW_TILE_SIZE, COL_TILE_SIZE in *. lia.
Qed.

Lemma labels_start_on_canvas_witness :
  exists num_row_tiles num_col_tiles indices,
    get_num_tiles (blank 300 200 3) ROW_TILE_SIZE COL_TILE_SIZE
    = Ok (num_row_tiles, num_col_tiles)
    /\ get_tile_indices (blank 300 200 3) ROW_TILE_SIZE COL_TILE_SIZE = Ok indices
    /\ forall r_s r_e c_s c_e, In (r_s, r_e, c_s, c_e) indices ->
         (0 <= c_s + 2 < COL_TILE_SIZE * num_col_tiles
          /\ 0 <= r_s + 2 < ROW_TILE_SIZE * num_row_tiles)
         /\ (0 <= c_s <= c_e - 1 /\ c_e - 1 < cols (blank 300 200 3))
         /\ (0 <= r_s <= r_e - 1 /\ r_e - 1 < rows (blank 300 200 3)).
Proof.
  apply (labels_start_on_canvas (blank 300 200 3)); unfold exact_dim; cbn; lia.
Defined.

(** ** Tile sizes below zero *)

Lemma binary_round_aux_sign sx q e l :
  binary_round_aux prec emax sx q e l
  = match binary_round_aux prec emax false q e l with
    | S754_zero _ => S754_zero sx
    | S754_infinity _ => S754_infinity sx
    | S754_nan => S754_nan
    | S754_finite _ m e' => S754_finite sx m e'
    end.
Proof.
  unfold binary_round_aux.
  destruct (shr_fexp prec emax q e l) as [mrs e1].
  destruct (shr_fexp prec emax _ e1 loc_Exact) as [mrs2 e2].
  destruct (shr_m mrs2); [reflexivity| |reflexivity].
  destruct (e2 <=? emax - prec); reflexivity.
Qed.

Lemma SFdiv_neg a b :
  0 < a -> 0 < b ->
  SFdiv prec emax (float_of_int a) (float_of_int (- b))
  = match SFdiv prec emax (float_of_int a) (float_of_int b) with
    | S754_zero _ => S754_zero true
    | S754_infinity _ => S754_infinity true
    | S754_nan => S754_nan
    | S754_finite _ m e' => S754_finite true m e'
    end.
Proof.
  intros Ha Hb. destruct a as [|pa|pa]; try lia. destruct b as [|pb|pb]; try lia.
  cbn [float_of_int Z.opp SFdiv xorb].
  destruct (SFdiv_core_binary prec emax (Zpos pa) 0 (Zpos pb) 0) as [[mz ez] lz].
  apply binary_round_aux_sign.
Qed.

Lemma ceil_truediv_negative a b :
  valid_dim a -> b < 0 ->
  exists n, (q <- int_truediv a b ;; math_ceil q) = Ok n /\ n <= 0.
Proof.
  intros Ha Hb.
  destruct (Z.eq_dec a 0) as [->|Ha0].
  { exists 0. split; [apply ceil_truediv_of_zero; lia|lia]. }
  assert (Hap : 0 < a) by (unfold valid_dim in Ha; lia).
  destruct (ceil_truediv_total a (- b) Ha ltac:(lia)) as (n & Hn & _).
  unfold int_truediv in *.
  destruct (Z.eqb_spec b 0) as [|_]; [lia|].
  destruct (Z.eqb_spec (- b) 0) as [|_]; [lia|].
  replace b with (- - b) by lia. rewrite (SFdiv_neg a (- b) Hap ltac:(lia)).
  destruct (SFdiv prec emax (float_of_int a) (float_of_int (- b))) as [s|s| |s m e];
    try discriminate.
  - exists 0. split; [reflexivity|lia].
  - cbn [bind math_ceil cond_Zopp]. eexists. split; [reflexivity|].
    destruct (Z.leb_spec 0 e).
    + pose proof (pow2_pos e ltac:(lia)). nia.
    + pose proof (pow2_pos (- e) ltac:(lia)) as HP.
      pose proof (ceil_div_spec (- Zpos m) (2 ^ (- e)) HP). nia.
Qed.

(** A negative tile size gives no tiles: when neither tile size is zero and
    one of them is negative, [get_tile_indices] returns the empty list
    without raising. *)
Theorem negative_tile_size_no_tiles np_img row_tile_size col_tile_size :
  valid_shape np_img -> row_tile_size <> 0 -> col_tile_size <> 0 ->
  row_tile_size < 0 \/ col_tile_size < 0 ->
  get_tile_indices np_img row_tile_size col_tile_size = Ok [].
Proof.
  intros (Hr & Hc & _) Hrs Hcs Hneg.
  assert (Hq : forall a b, valid_dim a -> b <> 0 ->
            exists n, (q <- int_truediv a b ;; math_ceil q) = Ok n /\ (b < 0 -> n <= 0)).
  { intros a b Ha Hb. destruct (Z_lt_le_dec b 0) as [L|G].
    - destruct (ceil_truediv_negative a b Ha L) as (n & Hn & Hle). exists n. auto.
    - destruct (ceil_truediv_total a b Ha ltac:(lia)) as (n & Hn & _). exists n.
      split; [exact Hn|lia]. }
  destruct (Hq _ _ Hr Hrs) as (nr & Hnr & Lr).
  destruct (Hq _ _ Hc Hcs) as (nc & Hnc & Lc).
  assert (Hn : get_num_tiles np_img row_tile_size col_tile_size = Ok (nr, nc)).
  { unfold get_num_tiles. destruct np_img as [[[r c] ch] it].
    cbn [shape rows cols fst snd] in *. rewrite Hnr. cbn [bind]. rewrite Hnc. reflexivity. }
  rewrite (get_tile_indices_grid _ _ _ nr nc Hn). f_equal.
  apply length_zero_iff_nil. rewrite grid_length. destruct Hneg as [L|L].
  - specialize (Lr L). replace (Z.to_nat nr) with 0%nat by lia. reflexivity.
  - specialize (Lc L). replace (Z.to_nat nc) with 0%nat by lia. apply Nat.mul_0_r.
Qed.

Lemma negative_tile_size_no_tiles_witness :
  get_tile_indices (blank 300 200 3) (-128) 128 = Ok [].
Proof.
  apply (negative_tile_size_no_tiles (blank 300 200 3) (-128) 128).
  - unfold valid_shape, valid_dim. cbn. lia.
  - lia.
  - lia.
  - left. lia.
Defined.

(** ** Successive calls of the grid indexer *)

Lemma list_append_app (h k : store) l t :
  (l < List.length h)%nat -> list_append (h ++ k) l t = list_append h l t ++ k.
Proof.
  revert l. induction h as [|x h IH]; intros l Hl; cbn in *; [lia|].
  destruct l as [|l]; [reflexivity|]. rewrite IH by lia. reflexivity.
Qed.

Lemma nth_error_two_last {A} (h : list A) a b :
  nth_error ((h ++ [a]) ++ [b]) (List.length h) = Some a
  /\ nth_error ((h ++ [a]) ++ [b]) (S (List.length h)) = Some b.
Proof. induction h as [|x h IH]; cbn; [split; reflexivity|exact IH]. Qed.

(** Two calls in a row return two different list objects with the same
    tiles, and appending to the list of the first call leaves the list of
    the second call as it was: the results share no state. *)
Theorem successive_calls_fresh_lists (h : store) np_img row_tile_size col_tile_size indices :
  get_tile_indices np_img row_tile_size col_tile_size = Ok indices ->
  exists l1 h1 l2 h2,
    get_tile_indices_obj h np_img row_tile_size col_tile_size = Ok (l1, h1)
    /\ get_tile_indices_obj h1 np_img row_tile_size col_tile_size = Ok (l2, h2)
    /\ l1 <> l2
    /\ deref h2 l1 = Some indices /\ deref h2 l2 = Some indices
    /\ forall t, deref (list_append h2 l1 t) l1 = Some (indices ++ [t])
                 /\ deref (list_append h2 l1 t) l2 = Some indices.
Proof.
  intros Hg.
  exists (List.length h), (h ++ [indices]), (S (List.length h)), ((h ++ [indices]) ++ [indices]).
  split; [rewrite get_tile_indices_obj_spec, Hg; reflexivity|].
  split.
  { rewrite get_tile_indices_obj_spec, Hg. cbn [bind]. rewrite length_app.
    cbn [List.length]. replace (List.length h + 1)%nat with (S (List.length h)) by lia.
    reflexivity. }
  split; [lia|]. unfold deref.
  destruct (nth_error_two_last h indices indices) as [E1 E2].
  split; [exact E1|]. split; [exact E2|].
  intros t.
  rewrite list_append_app by (rewrite length_app; cbn; lia).
  rewrite list_append_fresh.
  apply (nth_error_two_last h (indices ++ [t]) indices).
Qed.

Lemma successive_calls_fresh_lists_witness :
  exists l1 h1 l2 h2,
    get_tile_indices_obj [] (blank 100 80 3) 128 128 = Ok (l1, h1)
    /\ get_tile_indices_obj h1 (blank 100 80 3) 128 128 = Ok (l2, h2)
    /\ l1 <> l2
    /\ deref h2 l1 = Some [(0, 100, 0, 80)] /\ deref h2 l2 = Some [(0, 100, 0, 80)]
    /\ forall t, deref (list_append h2 l1 t) l1 = Some ([(0, 100, 0, 80)] ++ [t])
                 /\ deref (list_append h2 l1 t) l2 = Some [(0, 100, 0, 80)].
Proof.
  apply (successive_calls_fresh_lists [] (blank 100 80 3) 128 128 [(0, 100, 0, 80)]).
  vm_compute. reflexivity.
Defined.

(** ** Images of whole tiles *)

(** When the rows and the columns of the image are multiples of the tile
    sizes (in the range where the tile counts are exact), there are as many
    tiles as the multiples say and every tile has the full tile size. *)
Theorem whole_tiles_when_sizes_divide np_img row_tile_size col_tile_size a b :
  exact_dim (rows np_img) -> exact_dim (cols np_img) ->
  exact_size row_tile_size -> exact_size col_tile_size ->
  rows np_img = a * row_tile_size -> cols np_img = b * col_tile_size ->
  exists indices,
    get_tile_indices np_img row_tile_size col_tile_size = Ok indices
    /\ Z.of_nat (List.length indices) = a * b
    /\ forall r_s r_e c_s c_e, In (r_s, r_e, c_s, c_e) indices ->
         r_e - r_s = row_tile_size /\ c_e - c_s = col_tile_size.
Proof.
  intros Hr Hc Hrs Hcs Ha Hb.
  pose proof (get_tile_indices_exact _ _ _ Hr Hc Hrs Hcs) as Hg.
  destruct Hrs as [Hrs _]. destruct Hcs as [Hcs _].
  assert (Ea : ceil_div (rows np_img) row_tile_size = a)
    by (apply ceil_div_unique; [assumption|lia]).
  assert (Eb : ceil_div (cols np_img) col_tile_size = b)
    by (apply ceil_div_unique; [assumption|lia]).
  rewrite Ea, Eb in Hg.
  assert (Ha0 : 0 <= a) by (destruct Hr; nia).
  assert (Hb0 : 0 <= b) by (destruct Hc; nia).
  eexists. split; [exact Hg|]. split; [apply grid_length_Z; assumption|].
  intros r_s r_e c_s c_e Ht. apply In_grid in Ht.
  destruct Ht as (r & c & Hr' & Hc' & Ht). unfold tile_at, band_start, band_end in Ht.
  injection Ht as -> -> -> ->.
  destruct (Z.eqb_spec r (a - 1)); destruct (Z.eqb_spec c (b - 1)); subst; lia.
Qed.

Lemma whole_tiles_when_sizes_divide_witness :
  exists indices,
    get_tile_indices (blank 256 384 3) 128 128 = Ok indices
    /\ Z.of_nat (List.length indices) = 2 * 3
    /\ forall r_s r_e c_s c_e, In (r_s, r_e, c_s, c_e) indices ->
         r_e - r_s = 128 /\ c_e - c_s = 128.
Proof.
  apply (whole_tiles_when_sizes_divide (blank 256 384 3) 128 128 2 3);
    try (unfold exact_dim, exact_size; cbn; split; reflexivity || (vm_compute; discriminate));
    reflexivity.
Defined.
